(** * Camera framing and pointer interaction of the campusvt 3D viewer

  Shallow embedding of the camera arithmetic found in
  - [viewer3d_standalone.js] / [campusvt-main/viewer3d.js]
    (module [Viewer]: [autoFitModel], [handleMouseMove],
    [handleMouseWheel], [resetView]), and
  - the [Scene3D] object of the split variant
    (module [Scene3D]: [onTouchStart], [onTouchMove], [onTouchEnd],
    [panCamera], [rotateCamera], [zoomCamera], [fitModelToView],
    [saveCurrentView], [resetView]).

  JavaScript numbers are idealised as real numbers: the development is
  about the geometry of the code, not about IEEE rounding.  The pieces of
  three.js (r155) that the code calls are written out in module [Three]
  with the arithmetic the library performs. *)

From Stdlib Require Import Reals Lra List Bool String ZArith Lia Ascii Strings.Byte.
Import ListNotations.

Open Scope R_scope.

(** ** JavaScript arithmetic used by the viewer *)

Module Js.

(** A JavaScript number. *)
Abbreviation number := R (only parsing).

(** Comparisons as JavaScript evaluates them, to a boolean. *)
Definition ltb (a b : number) : bool := if Rlt_dec a b then true else false.
Definition gtb (a b : number) : bool := ltb b a.
Definition eqb (a b : number) : bool := if Req_dec_T a b then true else false.

(** [Math.max] of two and of three arguments, [Math.min], [Math.abs]. *)
Definition max2 (a b : number) : number := Rmax a b.
Definition max3 (a b c : number) : number := Rmax (Rmax a b) c.
Definition min2 (a b : number) : number := Rmin a b.
Definition abs (a : number) : number := Rabs a.

(** [Math.pow(a, 2)]. *)
Definition pow2 (a : number) : number := a * a.

(** [a || b] on numbers: [a] unless it is zero. *)
Definition or_else (a b : number) : number :=
  if Req_dec_T a 0 then b else a.

(** [Math.atan2(y, x)], by quadrant. *)
Definition atan2 (y x : number) : number :=
  if Rlt_dec 0 x then atan (y / x)
  else if Rlt_dec x 0 then
         (if Rle_dec 0 y then atan (y / x) + PI else atan (y / x) - PI)
  else if Rlt_dec 0 y then PI / 2
  else if Rlt_dec y 0 then - (PI / 2)
  else 0.

End Js.

(** ** The three.js primitives the viewer calls *)

Module Three.

Import Js.

Record Vector3 := vec3 { vx : number; vy : number; vz : number }.

Definition origin : Vector3 := vec3 0 0 0.

Definition add (a b : Vector3) : Vector3 :=
  vec3 (vx a + vx b) (vy a + vy b) (vz a + vz b).

Definition sub (a b : Vector3) : Vector3 :=
  vec3 (vx a - vx b) (vy a - vy b) (vz a - vz b).

Definition multiplyScalar (a : Vector3) (s : number) : Vector3 :=
  vec3 (vx a * s) (vy a * s) (vz a * s).

(** [divideScalar(s)] is [multiplyScalar(1 / s)]. *)
Definition divideScalar (a : Vector3) (s : number) : Vector3 :=
  multiplyScalar a (1 / s).

Definition negate (a : Vector3) : Vector3 :=
  vec3 (- vx a) (- vy a) (- vz a).

Definition lengthSq (a : Vector3) : number :=
  vx a * vx a + vy a * vy a + vz a * vz a.

Definition length (a : Vector3) : number := sqrt (lengthSq a).

(** [normalize()] is [divideScalar(this.length() || 1)]: the zero vector is
    left as it is. *)
Definition normalize (a : Vector3) : Vector3 :=
  divideScalar a (or_else (length a) 1).

Definition crossVectors (a b : Vector3) : Vector3 :=
  vec3 (vy a * vz b - vz a * vy b)
       (vz a * vx b - vx a * vz b)
       (vx a * vy b - vy a * vx b).

(** [MathUtils.clamp]. *)
Definition clamp (value lo hi : number) : number :=
  max2 lo (min2 hi value).

(** *** Box3 *)

Record Box3 := box3 { bmin : Vector3; bmax : Vector3 }.

Definition isEmpty (b : Box3) : bool :=
  ltb (vx (bmax b)) (vx (bmin b))
  || ltb (vy (bmax b)) (vy (bmin b))
  || ltb (vz (bmax b)) (vz (bmin b)).

Definition getCenter (b : Box3) : Vector3 :=
  if isEmpty b then origin
  else multiplyScalar (add (bmin b) (bmax b)) (1 / 2).

Definition getSize (b : Box3) : Vector3 :=
  if isEmpty b then origin else sub (bmax b) (bmin b).

(** *** Spherical coordinates *)

Record Spherical := spherical { radius : number; phi : number; theta : number }.

(** [Spherical.setFromVector3]. *)
Definition setFromVector3 (v : Vector3) : Spherical :=
  let r := length v in
  if eqb r 0 then spherical r 0 0
  else spherical r (acos (clamp (vy v / r) (-1) 1)) (atan2 (vx v) (vz v)).

(** [Vector3.setFromSpherical]. *)
Definition setFromSpherical (s : Spherical) : Vector3 :=
  let sinPhiRadius := sin (phi s) * radius s in
  vec3 (sinPhiRadius * sin (theta s))
       (cos (phi s) * radius s)
       (sinPhiRadius * cos (theta s)).

(** *** Orientation

    The orientation of an object (its quaternion, equivalently its Euler
    [rotation]) is represented by the rotation matrix it stands for, as
    the three columns of that matrix. *)

Record Basis := basis { xAxis : Vector3; yAxis : Vector3; zAxis : Vector3 }.

(** [rotation.set(0, 0, 0)]. *)
Definition identity : Basis :=
  basis (vec3 1 0 0) (vec3 0 1 0) (vec3 0 0 1).

(** The default [up] of every object. *)
Definition up : Vector3 := vec3 0 1 0.

(** [Matrix4.lookAt(eye, target, up)]: the rotation whose z column points
    from [target] to [eye]. *)
Definition lookAtBasis (eye target : Vector3) : Basis :=
  let z0 := sub eye target in
  let z1 := if eqb (lengthSq z0) 0 then vec3 (vx z0) (vy z0) 1 else z0 in
  let z2 := normalize z1 in
  let x0 := crossVectors up z2 in
  let z3 :=
    if eqb (lengthSq x0) 0 then
      (if eqb (abs (vz up)) 1
       then normalize (vec3 (vx z2 + 0.0001) (vy z2) (vz z2))
       else normalize (vec3 (vx z2) (vy z2) (vz z2 + 0.0001)))
    else z2 in
  let x1 := normalize (crossVectors up z3) in
  basis x1 (crossVectors z3 x1) z3.

(** A perspective camera without parent.  [matrix] is the rotation part of
    the cached local matrix, which three.js recomposes from [rotation] in
    [updateMatrix]. *)
Record Camera := camera {
  position : Vector3;
  rotation : Basis;
  zoom : number;
  fov : number;
  matrix : Basis
}.

Definition setPosition (c : Camera) (p : Vector3) : Camera :=
  camera p (rotation c) (zoom c) (fov c) (matrix c).

Definition setRotation (c : Camera) (r : Basis) : Camera :=
  camera (position c) r (zoom c) (fov c) (matrix c).

Definition setZoom (c : Camera) (z : number) : Camera :=
  camera (position c) (rotation c) z (fov c) (matrix c).

(** [updateWorldMatrix(true, false)] on a camera without parent. *)
Definition updateWorldMatrix (c : Camera) : Camera :=
  camera (position c) (rotation c) (zoom c) (fov c) (rotation c).

(** [camera.lookAt(target)]: the matrices are refreshed first, then the
    orientation is replaced. *)
Definition lookAt (c : Camera) (target : Vector3) : Camera :=
  let c1 := updateWorldMatrix c in
  setRotation c1 (lookAtBasis (position c1) target).

(** [camera.getWorldDirection(v)]: refreshes the matrices and returns the
    negated, normalised z column. *)
Definition getWorldDirection (c : Camera) : Camera * Vector3 :=
  let c1 := updateWorldMatrix c in
  (c1, normalize (negate (zAxis (matrix c1)))).

(** [Vector3.setFromMatrixColumn(camera.matrix, i)] for [i = 0, 1]. *)
Definition matrixColumn0 (c : Camera) : Vector3 := xAxis (matrix c).
Definition matrixColumn1 (c : Camera) : Vector3 := yAxis (matrix c).

(** Euler angles of a displayed object. *)
Record Euler := euler { ex : number; ey : number; ez : number }.


(** *** Boxes of the scenarios *)

(** The box of the first end-to-end scenario. *)
Definition cube2 : Box3 := box3 (vec3 (-1) (-1) (-1)) (vec3 1 1 1).

(** A point box and a unit cube around the same point. *)
Definition pointBox : Box3 := box3 (vec3 2 3 4) (vec3 2 3 4).
Definition unitBoxAround : Box3 :=
  box3 (vec3 (3 / 2) (5 / 2) (7 / 2)) (vec3 (5 / 2) (7 / 2) (9 / 2)).

(** The box of a large object: a cube of side 100 around the origin. *)
Definition cube100 : Box3 := box3 (vec3 (-50) (-50) (-50)) (vec3 50 50 50).

End Three.

(** ** The single-file viewer ([viewer3d_standalone.js], and with the same
  arithmetic [campusvt-main/viewer3d.js]) *)

Module Viewer.

Import Js Three.

(** The loaded object: the two fields the viewer writes. *)
Record Model := model { mposition : Vector3; mrotation : Euler }.

Record Controls := controls {
  isRotating : bool;
  isPanning : bool;
  previousMouse : number * number;
  rotationSpeed : number;
  panSpeed : number;
  zoomSpeed : number;
  minZoom : number;
  maxZoom : number;
  initialCameraPosition : Vector3
}.

(** [initializeControls] of [viewer3d_standalone.js]; in
    [campusvt-main/viewer3d.js] the only different value is [maxZoom], 10. *)
Definition initializeControls : Controls :=
  controls false false (0, 0) 0.005 0.003 0.1 0.1 50 (vec3 0 0 5).

(** The module-level variables, after [initializeViewer] has run. *)
Record State := state {
  cam : Camera;
  currentModel : option Model;
  ctl : Controls
}.

Definition setGesture (c : Controls) (rot pan : bool) : Controls :=
  controls rot pan (previousMouse c) (rotationSpeed c) (panSpeed c)
           (zoomSpeed c) (minZoom c) (maxZoom c) (initialCameraPosition c).

Definition setPreviousMouse (c : Controls) (p : number * number) : Controls :=
  controls (isRotating c) (isPanning c) p (rotationSpeed c) (panSpeed c)
           (zoomSpeed c) (minZoom c) (maxZoom c) (initialCameraPosition c).

Definition setInitialCameraPosition (c : Controls) (p : Vector3) : Controls :=
  controls (isRotating c) (isPanning c) (previousMouse c) (rotationSpeed c)
           (panSpeed c) (zoomSpeed c) (minZoom c) (maxZoom c) p.

(** *** [autoFitModel]

    [measured] is what [new THREE.Box3().setFromObject(currentModel)]
    returns, [remeasured] what it returns after
    [currentModel.updateMatrixWorld(true)]. *)

Definition fitBox (measured remeasured : Box3) : Box3 :=
  if isEmpty measured then remeasured else measured.

Definition fitSize (boundingBox : Box3) : Vector3 :=
  let size := getSize boundingBox in
  if eqb (vx size) 0 && eqb (vy size) 0 && eqb (vz size) 0
  then vec3 1 1 1 else size.

Definition fitMaxDimension (boundingBox : Box3) : number :=
  let size := fitSize boundingBox in
  max3 (vx size) (vy size) (vz size).

Definition fitDistance (boundingBox : Box3) (cameraFov : number) : number :=
  let maxDimension := fitMaxDimension boundingBox in
  let fov := cameraFov * (PI / 180) in
  max2 (maxDimension / (2 * tan (fov / 2))) 1.

Definition fitFinalDistance (boundingBox : Box3) (cameraFov : number) : number :=
  let distance := fitDistance boundingBox cameraFov in
  max2 (distance * 2) 5.

Definition autoFitModel (measured remeasured : Box3) (s : State) : State :=
  match currentModel s with
  | None => s
  | Some m =>
    let boundingBox := fitBox measured remeasured in
    let center := getCenter boundingBox in
    let finalDistance := fitFinalDistance boundingBox (fov (cam s)) in
    let m1 := model (sub (mposition m) center) (mrotation m) in
    let c1 := setPosition (cam s) (vec3 0 0 finalDistance) in
    let c2 := lookAt c1 (vec3 0 0 0) in
    state c2 (Some m1) (setInitialCameraPosition (ctl s) (position c2))
  end.

(** *** Mouse handlers *)

Definition handleMouseDown (button : nat) (clientX clientY : number)
           (s : State) : State :=
  let c := setPreviousMouse (ctl s) (clientX, clientY) in
  let c1 :=
    if Nat.eqb button 0 then setGesture c (isRotating c) true
    else if Nat.eqb button 2 then setGesture c true (isPanning c)
    else c in
  state (cam s) (currentModel s) c1.

Definition handleMouseMove (clientX clientY : number) (s : State) : State :=
  let c := ctl s in
  if negb (isPanning c) && negb (isRotating c) then s
  else
    let deltaX := clientX - fst (previousMouse c) in
    let deltaY := clientY - snd (previousMouse c) in
    let c1 := setPreviousMouse c (clientX, clientY) in
    match isRotating c, currentModel s with
    | true, Some m =>
      let r := mrotation m in
      let r1 := euler (ex r + deltaY * rotationSpeed c)
                      (ey r + deltaX * rotationSpeed c) (ez r) in
      state (cam s) (Some (model (mposition m) r1)) c1
    | _, _ =>
      if isPanning c then
        let p := position (cam s) in
        let p1 := vec3 (vx p - deltaX * panSpeed c)
                       (vy p + deltaY * panSpeed c) (vz p) in
        state (setPosition (cam s) p1) (currentModel s) c1
      else state (cam s) (currentModel s) c1
    end.

Definition handleMouseUp (s : State) : State :=
  state (cam s) (currentModel s) (setGesture (ctl s) false false).

(** The clamp shared by the wheel handlers: renormalise the position when
    its length leaves [[lo, hi]]. *)
Definition clampDistance (p : Vector3) (lo hi : number) : Vector3 :=
  let distance := length p in
  if ltb distance lo then multiplyScalar (normalize p) lo
  else if gtb distance hi then multiplyScalar (normalize p) hi
  else p.

Definition handleMouseWheel (deltaY : number) (s : State) : State :=
  let delta := if gtb deltaY 0 then 1 else -1 in
  let '(c1, direction) := getWorldDirection (cam s) in
  let p1 := add (position c1)
                (multiplyScalar direction (delta * zoomSpeed (ctl s) * 2)) in
  let p2 := clampDistance p1 (minZoom (ctl s)) (maxZoom (ctl s)) in
  state (setPosition c1 p2) (currentModel s) (ctl s).

(** [resetView]; the camera exists once the viewer is initialised, so the
    [!camera] guard is not taken. *)
Definition resetView (s : State) : State :=
  let c1 := setPosition (cam s) (initialCameraPosition (ctl s)) in
  let c2 := setRotation c1 identity in
  let m1 := match currentModel s with
            | Some m => Some (model (mposition m) (euler 0 0 0))
            | None => None
            end in
  let c3 := lookAt c2 (vec3 0 0 0) in
  state c3 m1 (ctl s).

(** The events delivered to the canvas. *)
Inductive Event :=
| MouseDown (button : nat) (clientX clientY : number)
| MouseMove (clientX clientY : number)
| MouseUp
| Wheel (deltaY : number).

Definition handle (s : State) (e : Event) : State :=
  match e with
  | MouseDown b x y => handleMouseDown b x y s
  | MouseMove x y => handleMouseMove x y s
  | MouseUp => handleMouseUp s
  | Wheel d => handleMouseWheel d s
  end.

Definition run (s : State) (es : list Event) : State := fold_left handle es s.


(** *** States of the scenarios *)

(** A camera as [initializeViewer] creates it. *)
Definition camera75 : Camera := camera (vec3 0 0 5) identity 1 75 identity.

Definition sampleModel : Model := model (vec3 3 4 5) (euler 0 0 0).

(** The viewer with a model loaded and not yet framed. *)
Definition loaded : State := state camera75 (Some sampleModel) initializeControls.

End Viewer.

(** ** The [Scene3D] object of the split variant *)

Module Scene3D.

Import Js Three.

Record Touch := touch { clientX : number; clientY : number }.

(** [mouseControls].  [mobileMode], [lastPinchDistance] and
    [lastTwoFingerCenter] are absent from the object literal: [None] stands
    for [undefined] and for [null]. *)
Record MouseControls := mouseControls {
  isMouseDown : bool;
  mouseButton : nat;
  lastPosition : number * number;
  mobileMode : option string;
  lastPinchDistance : option number;
  lastTwoFingerCenter : option (number * number)
}.

(** [mouseControls.sensitivity], never written after creation. *)
Definition sensitivity_rotation : number := 0.01.
Definition sensitivity_pan : number := 0.002.
Definition sensitivity_zoom : number := 0.005.

Record View := view {
  viewPosition : Vector3;
  viewRotation : Basis;
  viewZoom : number
}.

Record State := state {
  cam : Camera;
  controls : MouseControls;
  savedView : option View
}.

Definition setCam (s : State) (c : Camera) : State :=
  state c (controls s) (savedView s).

Definition setControls (s : State) (m : MouseControls) : State :=
  state (cam s) m (savedView s).

(** *** Camera movement *)

Definition panCamera (deltaX deltaY : number) (s : State) : State :=
  let sensitivity := sensitivity_pan in
  let vector := multiplyScalar (matrixColumn0 (cam s)) (- deltaX * sensitivity) in
  let vector2 := multiplyScalar (matrixColumn1 (cam s)) (deltaY * sensitivity) in
  setCam s (setPosition (cam s) (add (position (cam s)) (add vector vector2))).

(** The spherical coordinates [rotateCamera] writes back. *)
Definition rotatedSpherical (p : Vector3) (deltaX deltaY : number) : Spherical :=
  let sensitivity := sensitivity_rotation in
  let sph := setFromVector3 p in
  let theta1 := theta sph - deltaX * sensitivity in
  let phi1 := phi sph + deltaY * sensitivity in
  spherical (radius sph) (max2 0.1 (min2 (PI - 0.1) phi1)) theta1.

Definition rotateCamera (deltaX deltaY : number) (s : State) : State :=
  let sph := rotatedSpherical (position (cam s)) deltaX deltaY in
  let c1 := setPosition (cam s) (setFromSpherical sph) in
  setCam s (lookAt c1 (vec3 0 0 0)).

Definition minDistance : number := 1.
Definition maxDistance : number := 10.

Definition zoomCamera (delta : number) (s : State) : State :=
  let '(c1, direction) := getWorldDirection (cam s) in
  let p1 := add (position c1) (multiplyScalar direction delta) in
  let distance := length p1 in
  let p2 :=
    if ltb distance minDistance then multiplyScalar (normalize p1) minDistance
    else if gtb distance maxDistance then multiplyScalar (normalize p1) maxDistance
    else p1 in
  setCam s (setPosition c1 p2).

(** *** Mouse *)

Definition onMouseDown (button : nat) (x y : number) (s : State) : State :=
  let m := controls s in
  setControls s (mouseControls true button (x, y) (mobileMode m)
                               (lastPinchDistance m) (lastTwoFingerCenter m)).

Definition setLastPosition (m : MouseControls) (p : number * number) : MouseControls :=
  mouseControls (isMouseDown m) (mouseButton m) p (mobileMode m)
                (lastPinchDistance m) (lastTwoFingerCenter m).

Definition onMouseMove (x y : number) (s : State) : State :=
  let m := controls s in
  if negb (isMouseDown m) then s
  else
    let deltaX := x - fst (lastPosition m) in
    let deltaY := y - snd (lastPosition m) in
    let s1 :=
      if Nat.eqb (mouseButton m) 0 then panCamera deltaX deltaY s
      else if Nat.eqb (mouseButton m) 2 then rotateCamera deltaX deltaY s
      else s in
    setControls s1 (setLastPosition (controls s1) (x, y)).

Definition onMouseUp (s : State) : State :=
  let m := controls s in
  setControls s (mouseControls false (mouseButton m) (lastPosition m) (mobileMode m)
                               (lastPinchDistance m) (lastTwoFingerCenter m)).

Definition onMouseWheel (deltaY : number) (s : State) : State :=
  let delta := deltaY * sensitivity_zoom in
  zoomCamera delta s.

(** *** Touch *)

(** [getMobileMode]: the value of the checked radio button, if any. *)
Definition getMobileMode (checkedRadio : option string) : string :=
  match checkedRadio with
  | Some value => value
  | None => "pan"%string
  end.

(** [mouseControls.mobileMode || 'pan']. *)
Definition modeOrPan (m : option string) : string :=
  match m with
  | Some EmptyString => "pan"%string
  | Some v => v
  | None => "pan"%string
  end.

Definition pinchDistanceOf (touch1 touch2 : Touch) : number :=
  sqrt (pow2 (clientX touch2 - clientX touch1)
        + pow2 (clientY touch2 - clientY touch1)).

Definition centerOf (touch1 touch2 : Touch) : number * number :=
  ((clientX touch1 + clientX touch2) / 2,
   (clientY touch1 + clientY touch2) / 2).

Definition onTouchStart (touches : list Touch) (checkedRadio : option string)
           (s : State) : State :=
  let m := controls s in
  match touches with
  | [t] =>
    setControls s (mouseControls true (mouseButton m) (clientX t, clientY t)
                                 (Some (getMobileMode checkedRadio))
                                 (lastPinchDistance m) (lastTwoFingerCenter m))
  | [touch1; touch2] =>
    setControls s (mouseControls false (mouseButton m) (lastPosition m)
                                 (mobileMode m)
                                 (Some (pinchDistanceOf touch1 touch2))
                                 (Some (centerOf touch1 touch2)))
  | _ => s
  end.

(** The zoom argument of a two-finger frame, when the pinch passes its
    threshold. *)
Definition pinchZoom (pinchDistance last : number) : option number :=
  let distanceDelta := (pinchDistance - last) * 0.01 in
  if gtb (abs distanceDelta) 0.5 then Some distanceDelta else None.

(** The rotate arguments of a two-finger frame, when the centre movement
    passes both of its thresholds. *)
Definition twoFingerRotate (currentCenter lastCenter : number * number)
           (pinchDistance last : number) : option (number * number) :=
  let centerDeltaX := fst currentCenter - fst lastCenter in
  let centerDeltaY := snd currentCenter - snd lastCenter in
  let centerMovement := sqrt (centerDeltaX * centerDeltaX + centerDeltaY * centerDeltaY) in
  let distanceChange := abs (pinchDistance - last) in
  if gtb centerMovement 5 && gtb centerMovement (distanceChange * 0.5)
  then Some (centerDeltaX, centerDeltaY) else None.

(** The baseline of a two-finger frame, when both stored values are truthy:
    a stored distance of zero counts as absent. *)
Definition baseline (m : MouseControls) : option (number * (number * number)) :=
  match lastPinchDistance m, lastTwoFingerCenter m with
  | Some last, Some lastCenter =>
    if eqb last 0 then None else Some (last, lastCenter)
  | _, _ => None
  end.

Definition onTouchMove (touches : list Touch) (s : State) : State :=
  let m := controls s in
  match touches with
  | [t] =>
    if isMouseDown m then
      let deltaX := clientX t - fst (lastPosition m) in
      let deltaY := clientY t - snd (lastPosition m) in
      let mode := modeOrPan (mobileMode m) in
      let s1 :=
        if String.eqb mode "pan" then panCamera deltaX deltaY s
        else if String.eqb mode "rotate" then rotateCamera deltaX deltaY s
        else if String.eqb mode "zoom" then zoomCamera (- deltaY * 0.01) s
        else s in
      setControls s1 (setLastPosition (controls s1) (clientX t, clientY t))
    else s
  | [touch1; touch2] =>
    let pinchDistance := pinchDistanceOf touch1 touch2 in
    let currentCenter := centerOf touch1 touch2 in
    let s2 :=
      match baseline m with
      | Some (last, lastCenter) =>
        let s1 := match pinchZoom pinchDistance last with
                  | Some distanceDelta => zoomCamera distanceDelta s
                  | None => s
                  end in
        match twoFingerRotate currentCenter lastCenter pinchDistance last with
        | Some (centerDeltaX, centerDeltaY) => rotateCamera centerDeltaX centerDeltaY s1
        | None => s1
        end
      | None => s
      end in
    let m2 := controls s2 in
    setControls s2 (mouseControls (isMouseDown m2) (mouseButton m2) (lastPosition m2)
                                  (mobileMode m2) (Some pinchDistance)
                                  (Some currentCenter))
  | _ => s
  end.

Definition onTouchEnd (touches : list Touch) (s : State) : State :=
  let m := controls s in
  match touches with
  | [] =>
    setControls s (mouseControls false (mouseButton m) (lastPosition m)
                                 (mobileMode m) None None)
  | _ =>
    setControls s (mouseControls false (mouseButton m) (lastPosition m)
                                 (mobileMode m) (lastPinchDistance m)
                                 (lastTwoFingerCenter m))
  end.

(** *** Framing, saving and restoring the view *)

(** The clamped camera distance of [fitModelToView]; [box] is what
    [new THREE.Box3().setFromObject(model)] returns. *)
Definition fitCameraZ (box : Box3) (cameraFov : number) : number :=
  let size := getSize box in
  let maxDim := max3 (vx size) (vy size) (vz size) in
  let fov := cameraFov * (PI / 180) in
  let cameraZ := abs (maxDim / 2 / tan (fov / 2)) in
  let cameraZ1 := cameraZ * 1.5 in
  max2 minDistance (min2 maxDistance cameraZ1).

Definition fitModelToView (box : Box3) (s : State) : State :=
  let center := getCenter box in
  let cameraZ := fitCameraZ box (fov (cam s)) in
  let c1 := setPosition (cam s)
              (vec3 (vx center) (vy center) (vz center + cameraZ)) in
  setCam s (lookAt c1 center).

Definition saveCurrentView (s : State) : State :=
  state (cam s) (controls s)
        (Some (view (position (cam s)) (rotation (cam s)) (zoom (cam s)))).

Definition resetView (s : State) : State :=
  match savedView s with
  | None => s
  | Some v =>
    let c1 := setPosition (cam s) (viewPosition v) in
    let c2 := setRotation c1 (viewRotation v) in
    setCam s (setZoom c2 (viewZoom v))
  end.

(** [render]: the renderer refreshes the matrices of the camera. *)
Definition render (s : State) : State := setCam s (updateWorldMatrix (cam s)).

(** [initCamera] with the values of [AppConfig.scene3D.camera], on a new
    [PerspectiveCamera]. *)
Definition initCamera : Camera :=
  let c0 := camera (vec3 0 0 0) identity 1 75 identity in
  lookAt (setPosition c0 (vec3 0 0 5)) (vec3 0 0 0).

(** [init]: camera, first frame of the render loop, saved view. *)
Definition init : State :=
  let m := mouseControls false 0 (0, 0) None None None in
  saveCurrentView (render (state initCamera m None)).

(** Everything that can happen to the scene after [init]. *)
Inductive Event :=
| MouseDown (button : nat) (x y : number)
| MouseMove (x y : number)
| MouseUp
| Wheel (deltaY : number)
| TouchStart (touches : list Touch) (checkedRadio : option string)
| TouchMove (touches : list Touch)
| TouchEnd (touches : list Touch)
| Frame
| FitModel (box : Box3).

Definition handle (s : State) (e : Event) : State :=
  match e with
  | MouseDown b x y => onMouseDown b x y s
  | MouseMove x y => onMouseMove x y s
  | MouseUp => onMouseUp s
  | Wheel d => onMouseWheel d s
  | TouchStart ts r => onTouchStart ts r s
  | TouchMove ts => onTouchMove ts s
  | TouchEnd ts => onTouchEnd ts s
  | Frame => render s
  | FitModel b => fitModelToView b s
  end.

Definition run (s : State) (es : list Event) : State := fold_left handle es s.


(** The position [zoomCamera] reaches before it clamps. *)
Definition zoomTarget (delta : number) (s : State) : Vector3 :=
  add (position (cam s))
      (multiplyScalar (normalize (negate (zAxis (rotation (cam s))))) delta).

(** A sequence of orbit steps, each a pair of pointer deltas. *)
Definition orbit (s : State) (d : number * number) : State :=
  rotateCamera (fst d) (snd d) s.

Definition orbits (s : State) (ds : list (number * number)) : State :=
  fold_left orbit ds s.

(** A sequence of zoom steps. *)
Definition zooms (s : State) (deltas : list number) : State :=
  fold_left (fun s1 delta => zoomCamera delta s1) deltas s.

(** No step of the sequence aims exactly at the origin. *)
Fixpoint avoidsOrigin (s : State) (deltas : list number) : Prop :=
  match deltas with
  | [] => True
  | delta :: rest =>
    zoomTarget delta s <> origin /\ avoidsOrigin (zoomCamera delta s) rest
  end.

(** *** States of the scenarios *)

(** The scene before [saveCurrentView] has run. *)
Definition unsaved : State :=
  state initCamera (mouseControls false 0 (0, 0) None None None) None.

(** Two fingers put down 100 apart. *)
Definition pinch100 : State :=
  onTouchStart [touch 0 0; touch 100 0] None init.

(** Two fingers put down 100 apart, around the origin of the screen. *)
Definition spread100 : State :=
  onTouchStart [touch (-50) 0; touch 50 0] None init.

End Scene3D.

(** ** Sequences of pointer moves *)

Module Gestures.

Import Js Three.

(** The mouse-move events of a drag through the given points of the single-file
    viewer. *)
Definition viewerDrag (points : list (number * number)) : list Viewer.Event :=
  map (fun p => Viewer.MouseMove (fst p) (snd p)) points.

(** The mouse-move events of a drag through the given points of [Scene3D]. *)
Definition sceneDrag (points : list (number * number)) : list Scene3D.Event :=
  map (fun p => Scene3D.MouseMove (fst p) (snd p)) points.

(** The position [handleMouseWheel] reaches before it clamps. *)
Definition wheelTarget (deltaY : number) (s : Viewer.State) : Vector3 :=
  add (position (Viewer.cam s))
      (multiplyScalar (normalize (negate (zAxis (rotation (Viewer.cam s)))))
                      ((if gtb deltaY 0 then 1 else -1)
                       * Viewer.zoomSpeed (Viewer.ctl s) * 2)).

(** A left-button drag of the single-file viewer about to start at (10, 20). *)
Definition panning : Viewer.State :=
  Viewer.handleMouseDown 0 10 20 Viewer.loaded.

(** A left-button drag of [Scene3D] about to start at (10, 20). *)
Definition scenePanning : Scene3D.State :=
  Scene3D.onMouseDown 0 10 20 Scene3D.init.

End Gestures.

(** ** Device classes of [AppConfig] *)

Module AppConfig.

Import Js.

(** [AppConfig.ui.breakpoints]. *)
Definition breakpoint_mobile : number := 768.
Definition breakpoint_tablet : number := 1024.

(** [isMobile], [isTablet], [isDesktop], as functions of
    [window.innerWidth]. *)
Definition isMobile (innerWidth : number) : bool :=
  negb (gtb innerWidth breakpoint_mobile).

Definition isTablet (innerWidth : number) : bool :=
  gtb innerWidth breakpoint_mobile && negb (gtb innerWidth breakpoint_tablet).

Definition isDesktop (innerWidth : number) : bool :=
  gtb innerWidth breakpoint_tablet.

End AppConfig.

(** ** The models of [Scene3D] *)

Module Models.

Import Js Three.

(** A loaded object: its world bounding box, which is what
    [Box3.setFromObject] and [Box3.expandByObject] read, and its [visible]
    flag.  A box with [isEmpty] stands for the empty box of an object
    without geometry. *)
Record Model := model { bounds : Box3; visible : bool }.

(** [Scene3D] with its list of models.  [currentModel] refers to an element
    of [loadedModels] and is kept as its index. *)
Record State := state {
  scene : Scene3D.State;
  loadedModels : list Model;
  currentModel : option nat
}.

(** [Vector3.min] and [Vector3.max], component by component. *)
Definition vmin (a b : Vector3) : Vector3 :=
  vec3 (min2 (vx a) (vx b)) (min2 (vy a) (vy b)) (min2 (vz a) (vz b)).

Definition vmax (a b : Vector3) : Vector3 :=
  vec3 (max2 (vx a) (vx b)) (max2 (vy a) (vy b)) (max2 (vz a) (vz b)).

(** [box.expandByObject(model)] on an accumulator that starts as the empty
    [new THREE.Box3()], for which [None] stands: an empty box changes
    nothing, the first non-empty box is taken as it is, a later one is
    united corner by corner. *)
Definition expandByObject (acc : option Box3) (m : Model) : option Box3 :=
  if isEmpty (bounds m) then acc
  else match acc with
       | None => Some (bounds m)
       | Some a => Some (box3 (vmin (bmin a) (bmin (bounds m)))
                              (vmax (bmax a) (bmax (bounds m))))
       end.

Definition unionBox (models : list Model) : option Box3 :=
  fold_left expandByObject models None.

(** [getSize] and [getCenter] of the accumulated box. *)
Definition sizeOf (acc : option Box3) : Vector3 :=
  match acc with None => origin | Some a => getSize a end.

Definition centerOf (acc : option Box3) : Vector3 :=
  match acc with None => origin | Some a => getCenter a end.

(** The clamped camera distance of [fitAllModelsToView]. *)
Definition fitAllCameraZ (acc : option Box3) (cameraFov : number) : number :=
  let size := sizeOf acc in
  let maxDim := max3 (vx size) (vy size) (vz size) in
  let fov := cameraFov * (PI / 180) in
  let cameraZ := abs (maxDim / 2 / tan (fov / 2)) in
  let cameraZ1 := cameraZ * 2.0 in
  max2 Scene3D.minDistance (min2 Scene3D.maxDistance cameraZ1).

Definition fitAllModelsToView (s : State) : State :=
  match loadedModels s with
  | [] => s
  | _ =>
    let box := unionBox (loadedModels s) in
    let center := centerOf box in
    let c := Scene3D.cam (scene s) in
    let cameraZ := fitAllCameraZ box (fov c) in
    let c1 := setPosition c (vec3 (vx center) (vy center) (vz center + cameraZ)) in
    state (Scene3D.setCam (scene s) (lookAt c1 center))
          (loadedModels s) (currentModel s)
  end.

Definition fitModelToView (m : Model) (s : State) : State :=
  state (Scene3D.fitModelToView (bounds m) (scene s))
        (loadedModels s) (currentModel s).

(** [addModel(model)]; [None] is a null model. *)
Definition addModel (m : option Model) (s : State) : State :=
  match m with
  | None => s
  | Some added =>
    let models := loadedModels s ++ [added] in
    let s1 := state (scene s) models (Some (List.length (loadedModels s))) in
    if Nat.eqb (List.length models) 1 then fitModelToView added s1
    else fitAllModelsToView s1
  end.

Definition clearAllModels (s : State) : State :=
  state (scene s) [] None.

(** [list[i] = f(list[i])] for an index inside the list. *)
Fixpoint updateAt (i : nat) (f : Model -> Model) (l : list Model) : list Model :=
  match l, i with
  | [], _ => []
  | m :: rest, O => f m :: rest
  | m :: rest, S j => m :: updateAt j f rest
  end.

Definition validIndex (modelIndex : Z) (s : State) : bool :=
  negb (Z.ltb modelIndex 0
        || Z.leb (Z.of_nat (List.length (loadedModels s))) modelIndex).

(** [toggleModelVisibility(modelIndex)]: the new state and the value
    returned, [None] for [undefined]. *)
Definition toggleModelVisibility (modelIndex : Z) (s : State)
  : State * option bool :=
  if validIndex modelIndex s then
    let i := Z.to_nat modelIndex in
    let models := updateAt i (fun m => model (bounds m) (negb (visible m)))
                           (loadedModels s) in
    (state (scene s) models (currentModel s),
     option_map visible (nth_error models i))
  else (s, None).

(** [setModelVisibility(modelIndex, visible)]. *)
Definition setModelVisibility (modelIndex : Z) (v : bool) (s : State)
  : State * option bool :=
  if validIndex modelIndex s then
    let i := Z.to_nat modelIndex in
    let models := updateAt i (fun m => model (bounds m) v) (loadedModels s) in
    (state (scene s) models (currentModel s),
     option_map visible (nth_error models i))
  else (s, None).

(** [outer] encloses [inner], corner by corner. *)
Definition contains (outer inner : Box3) : Prop :=
  vx (bmin outer) <= vx (bmin inner) /\ vy (bmin outer) <= vy (bmin inner)
  /\ vz (bmin outer) <= vz (bmin inner)
  /\ vx (bmax inner) <= vx (bmax outer) /\ vy (bmax inner) <= vy (bmax outer)
  /\ vz (bmax inner) <= vz (bmax outer).

(** *** Scenes of the scenarios *)

Definition smallModel : Model :=
  model (box3 (vec3 0 0 0) (vec3 1 1 1)) true.

Definition farModel : Model :=
  model (box3 (vec3 10 0 0) (vec3 12 1 1)) true.

Definition emptyScene : State := state Scene3D.init [] None.

Definition twoModels : State :=
  addModel (Some farModel) (addModel (Some smallModel) emptyScene).

End Models.

(** ** JavaScript strings

    A string is the list of its code units; the code units modelled are the
    256 of Latin-1, which cover every literal the viewer compares with. *)

Module JsString.

Abbreviation jsstring := (list ascii) (only parsing).

(** A literal. *)
Definition lit (s : string) : jsstring := list_ascii_of_string s.

Fixpoint streq (a b : jsstring) : bool :=
  match a, b with
  | [], [] => true
  | x :: a', y :: b' => Ascii.eqb x y && streq a' b'
  | _, _ => false
  end.

(** White space and line terminators, as [trim] removes them: tab, line
    feed, vertical tab, form feed, carriage return, space, no-break
    space. *)
Definition isWhiteSpace (c : ascii) : bool :=
  let n := nat_of_ascii c in
  Nat.eqb n 9 || Nat.eqb n 10 || Nat.eqb n 11 || Nat.eqb n 12
  || Nat.eqb n 13 || Nat.eqb n 32 || Nat.eqb n 160.

Fixpoint trimStart (s : jsstring) : jsstring :=
  match s with
  | [] => []
  | c :: rest => if isWhiteSpace c then trimStart rest else s
  end.

Definition trimEnd (s : jsstring) : jsstring := rev (trimStart (rev s)).

Definition trim (s : jsstring) : jsstring := trimEnd (trimStart s).

(** [s.split(sep)] for a separator of one code unit: at least one piece. *)
Fixpoint split (sep : ascii) (s : jsstring) : list jsstring :=
  match s with
  | [] => [[]]
  | c :: rest =>
    if Ascii.eqb c sep then [] :: split sep rest
    else match split sep rest with
         | piece :: pieces => (c :: piece) :: pieces
         | [] => [[c]]
         end
  end.

(** [s.split(sep).pop()]. *)
Definition lastPiece (sep : ascii) (s : jsstring) : jsstring :=
  last (split sep s) [].

Fixpoint startsWith (prefix s : jsstring) : bool :=
  match prefix, s with
  | [], _ => true
  | p :: prefix', c :: rest => Ascii.eqb p c && startsWith prefix' rest
  | _ :: _, [] => false
  end.

Definition endsWith (suffix s : jsstring) : bool :=
  startsWith (rev suffix) (rev s).

(** [s.includes(c)] for one code unit. *)
Definition includes (c : ascii) (s : jsstring) : bool :=
  existsb (Ascii.eqb c) s.

(** [s.lastIndexOf(c)]: the last index of the code unit, or -1. *)
Fixpoint lastIndexFrom (c : ascii) (s : jsstring) (i found : Z) : Z :=
  match s with
  | [] => found
  | x :: rest =>
    lastIndexFrom c rest (i + 1) (if Ascii.eqb x c then i else found)
  end.

Definition lastIndexOf (c : ascii) (s : jsstring) : Z :=
  lastIndexFrom c s 0 (-1).

(** [s.substring(a, b)]: both indices are clamped to the string and put in
    order. *)
Definition clampIndex (i : Z) (s : jsstring) : nat :=
  Nat.min (Z.to_nat (Z.max 0 i)) (List.length s).

Definition substring (a b : Z) (s : jsstring) : jsstring :=
  let a' := clampIndex a s in
  let b' := clampIndex b s in
  let lo := Nat.min a' b' in
  let hi := Nat.max a' b' in
  firstn (hi - lo) (skipn lo s).

(** [s.substring(a)]. *)
Definition substringFrom (a : Z) (s : jsstring) : jsstring :=
  substring a (Z.of_nat (List.length s)) s.

(** [s.slice(1, -1)]. *)
Definition sliceInner (s : jsstring) : jsstring := removelast (tl s).

(** [toLowerCase] on Latin-1: A to Z, and the capital letters from
    U+00C0 to U+00DE except the multiplication sign. *)
Definition lowerChar (c : ascii) : ascii :=
  let n := nat_of_ascii c in
  if (Nat.leb 65 n && Nat.leb n 90)
     || (Nat.leb 192 n && Nat.leb n 222 && negb (Nat.eqb n 215))
  then ascii_of_nat (n + 32) else c.

Definition toLowerCase (s : jsstring) : jsstring := map lowerChar s.

(** [list.includes(s)] for a list of strings. *)
Definition listIncludes (l : list jsstring) (s : jsstring) : bool :=
  existsb (streq s) l.

End JsString.

(** ** [ModelLoader] ([js/modelloader.js]): classifying and validating the
    selected files *)

Module ModelLoader.

Import Js JsString.

(** A [File]: the two fields the loader reads. *)
Record File := file { name : jsstring; size : number }.

(** [AppConfig.files.supportedFormats] and [AppConfig.files.maxSizes]. *)
Definition formats_models : list jsstring :=
  [lit ".obj"; lit ".stl"; lit ".gltf"; lit ".glb"].
Definition formats_materials : list jsstring := [lit ".mtl"].
Definition formats_textures : list jsstring :=
  [lit ".jpg"; lit ".jpeg"; lit ".png"; lit ".bmp"; lit ".tga"].
Definition formats_animations : list jsstring := [lit ".txt"; lit ".csv"].

Definition maxSize_model : number := 50.
Definition maxSize_texture : number := 10.

Definition getFileExtension (filename : jsstring) : jsstring :=
  substringFrom (lastIndexOf "."%char filename) filename.

Definition getBaseName (filename : jsstring) : jsstring :=
  substring 0 (lastIndexOf "."%char filename) filename.

Record Groups := groups {
  models : list File;
  materials : list File;
  textures : list File;
  animations : list File
}.

(** One turn of the loop of [organizeFiles]. *)
Definition classify (g : Groups) (f : File) : Groups :=
  let extension := toLowerCase (getFileExtension (name f)) in
  if listIncludes formats_models extension then
    groups (models g ++ [f]) (materials g) (textures g) (animations g)
  else if listIncludes formats_materials extension then
    groups (models g) (materials g ++ [f]) (textures g) (animations g)
  else if listIncludes formats_textures extension then
    groups (models g) (materials g) (textures g ++ [f]) (animations g)
  else if listIncludes formats_animations extension then
    groups (models g) (materials g) (textures g) (animations g ++ [f])
  else g.

Definition organizeFiles (files : list File) : Groups :=
  fold_left classify files (groups [] [] [] []).

(** The result of [validateFiles]; the error text of the code is built from
    the data kept here. *)
Inductive Validation :=
| Valid
| NoModel
| TooLarge (f : File) (sizeMB maxSize : number).

Definition sizeLimit (f : File) : number :=
  let extension := toLowerCase (getFileExtension (name f)) in
  if listIncludes formats_textures extension then maxSize_texture
  else maxSize_model.

Fixpoint checkSizes (allFiles : list File) : Validation :=
  match allFiles with
  | [] => Valid
  | f :: rest =>
    let sizeMB := size f / (1024 * 1024) in
    let maxSize := sizeLimit f in
    if gtb sizeMB maxSize then TooLarge f sizeMB maxSize
    else checkSizes rest
  end.

Definition validateFiles (g : Groups) : Validation :=
  match models g with
  | [] => NoModel
  | _ => checkSizes (models g ++ materials g ++ textures g)
  end.

(** How [loadFiles] starts: with the error it reports, or with the groups
    it hands to [processFileGroups]. *)
Inductive LoadStart :=
| NoFileSelected
| Rejected (v : Validation)
| Started (g : Groups).

Definition loadFiles (files : list File) : LoadStart :=
  match files with
  | [] => NoFileSelected
  | _ =>
    let fileGroups := organizeFiles files in
    match validateFiles fileGroups with
    | Valid => Started fileGroups
    | v => Rejected v
    end
  end.

(** The association of [processFileGroups]: the first material and all the
    textures with the base name of the model. *)
Definition associatedMaterial (g : Groups) (modelFile : File) : option File :=
  find (fun f => streq (getBaseName (name f)) (getBaseName (name modelFile)))
       (materials g).

Definition associatedTextures (g : Groups) (modelFile : File) : list File :=
  filter (fun f => streq (getBaseName (name f)) (getBaseName (name modelFile)))
         (textures g).

(** The classes of [organizeFiles], as tests on one file. *)
Definition lowerExtension (f : File) : jsstring :=
  toLowerCase (getFileExtension (name f)).

Definition isModelFile (f : File) : bool :=
  listIncludes formats_models (lowerExtension f).
Definition isMaterialFile (f : File) : bool :=
  listIncludes formats_materials (lowerExtension f).
Definition isTextureFile (f : File) : bool :=
  listIncludes formats_textures (lowerExtension f).
Definition isAnimationFile (f : File) : bool :=
  listIncludes formats_animations (lowerExtension f).

(** The size test of [validateFiles] passes for the file. *)
Definition withinLimit (f : File) : Prop :=
  size f / (1024 * 1024) <= sizeLimit f.

(** *** Files of the scenarios *)

Definition sampleFiles : list File :=
  [file (lit "house.OBJ") 1000; file (lit "house.mtl") 10;
   file (lit "wall.png") 2000; file (lit "notes.pdf") 5;
   file (lit "path.txt") 99999999999].

(** A selection without a model file, organized. *)
Definition texturesOnly : Groups :=
  groups [] [] [file (lit "wall.png") 2000] [].

End ModelLoader.

(** ** Choice of the loader in [viewer3d_standalone.js] *)

Module FileKind.

Import JsString.

Inductive Loader :=
| GLTFLoader
| OBJLoader
| STLLoader
| Unsupported (fileExtension : jsstring).

(** The [switch] of [loadModel] on the lower-cased text after the last
    dot. *)
Definition loadModel (name : jsstring) : Loader :=
  let fileName := toLowerCase name in
  let fileExtension := lastPiece "."%char fileName in
  if streq fileExtension (lit "gltf") || streq fileExtension (lit "glb")
  then GLTFLoader
  else if streq fileExtension (lit "obj") then OBJLoader
  else if streq fileExtension (lit "stl") then STLLoader
  else Unsupported fileExtension.

End FileKind.

(** ** [UI.parseHomeConfig] and [UI.loadScenarioModels] *)

Module HomeConfig.

Import JsString.

Record FileEntry := fileEntry { label : jsstring; path : jsstring }.

Section Parser.

(** The numbers of JavaScript, as [parseFloat] produces them from a piece
    of text. *)
Variable Number : Type.
Variable parseFloat : jsstring -> Number.

Record Position := position { posX : Number; posY : Number; posZ : Number }.

Record Scenario := scenario {
  name : jsstring;
  description : jsstring;
  image : jsstring;
  files : list FileEntry;
  positions : list Position
}.

(** The two variables of the loop: [scenarios] and [currentScenario]. *)
Record ParseState := parseState {
  scenarios : list Scenario;
  currentScenario : option Scenario
}.

(** [scenarios.push(currentScenario)] when there is a current scenario. *)
Definition pushCurrent (st : ParseState) : list Scenario :=
  match currentScenario st with
  | Some c => scenarios st ++ [c]
  | None => scenarios st
  end.

(** The property branches, on the trimmed line and the current
    scenario. *)
Definition readProperty (line : jsstring) (cur : Scenario) : Scenario :=
  if startsWith (lit "description=") line then
    scenario (name cur) (substringFrom 12 line) (image cur) (files cur)
             (positions cur)
  else if startsWith (lit "image=") line then
    scenario (name cur) (description cur) (substringFrom 6 line) (files cur)
             (positions cur)
  else if startsWith (lit "position=") line then
    let positionStr := substringFrom 9 line in
    let coords := map (fun n => parseFloat (trim n)) (split ","%char positionStr) in
    match coords with
    | [x; y; z] =>
      scenario (name cur) (description cur) (image cur) (files cur)
               (positions cur ++ [position x y z])
    | _ => cur
    end
  else if includes "="%char line then
    match split "="%char line with
    | l :: p :: _ =>
      scenario (name cur) (description cur) (image cur)
               (files cur ++ [fileEntry l p]) (positions cur)
    | _ => cur
    end
  else cur.

(** The body of [lines.forEach]. *)
Definition readLine (st : ParseState) (rawLine : jsstring) : ParseState :=
  let line := trim rawLine in
  match line with
  | [] => st
  | _ =>
    if startsWith (lit "#") line then st
    else if startsWith (lit "[") line && endsWith (lit "]") line then
      parseState (pushCurrent st)
                 (Some (scenario (sliceInner line) [] [] [] []))
    else match currentScenario st with
         | Some cur => parseState (scenarios st) (Some (readProperty line cur))
         | None => st
         end
  end.

(** [parseHomeConfig(content)]: the value stored in [scenariosConfig]. *)
Definition parseHomeConfig (content : jsstring) : list Scenario :=
  pushCurrent (fold_left readLine (split "010"%char content) (parseState [] None)).

(** *** [loadScenarioModels] *)

Record ModelUrl := modelUrl {
  urlName : jsstring;
  urlPath : jsstring;
  urlType : jsstring
}.

Definition modelExtensions : list jsstring :=
  [lit "obj"; lit "mtl"; lit "gltf"; lit "glb"; lit "stl"].

Definition isModelEntry (f : FileEntry) : bool :=
  let extension := lastPiece "."%char (toLowerCase (path f)) in
  listIncludes modelExtensions extension.

(** The list handed to [loadModelsFromUrls]; [None] when the function
    returns before that, for want of files or of model files. *)
Definition loadScenarioModels (s : Scenario) : option (list ModelUrl) :=
  match files s with
  | [] => None
  | _ =>
    match filter isModelEntry (files s) with
    | [] => None
    | modelFiles =>
      Some (map (fun f => modelUrl (lastPiece "/"%char (path f)) (path f)
                                   (lastPiece "."%char (toLowerCase (path f))))
                modelFiles)
    end
  end.

End Parser.

Arguments position {Number}.
Arguments scenario {Number}.
Arguments name {Number}.
Arguments description {Number}.
Arguments image {Number}.
Arguments files {Number}.
Arguments positions {Number}.
Arguments parseState {Number}.
Arguments scenarios {Number}.
Arguments currentScenario {Number}.
Arguments pushCurrent {Number}.
Arguments readProperty {Number}.
Arguments readLine {Number}.
Arguments parseHomeConfig {Number}.
Arguments loadScenarioModels {Number}.

(** A line that starts a scenario. *)
Definition isHeader (rawLine : jsstring) : bool :=
  startsWith (lit "[") (trim rawLine) && endsWith (lit "]") (trim rawLine).

(** A line that is blank or a comment. *)
Definition isSkipped (rawLine : jsstring) : bool :=
  match trim rawLine with
  | [] => true
  | line => startsWith (lit "#") line
  end.

(** A stand-in for [parseFloat] that keeps the text it is given. *)
Definition keepText (s : jsstring) : jsstring := s.

(** A scenario just opened, and one with two file entries. *)
Definition openState : ParseState jsstring :=
  parseState [] (Some (scenario (lit "A") [] [] [] [])).

Definition sampleScenario : Scenario jsstring :=
  scenario (lit "A") [] []
           [fileEntry (lit "model") (lit "models/Ship.OBJ");
            fileEntry (lit "animation") (lit "anim/path.txt")]
           [].

(** The sample of the README. *)
Definition sampleConfig : jsstring :=
  lit "title=Home" ++ "010"%char
  :: lit "# comment" ++ "010"%char
  :: lit "[Scenario A]" ++ "010"%char
  :: lit "description=a=b" ++ "010"%char
  :: lit "model=ship.obj?v=2" ++ "010"%char
  :: lit "  [Scenario B]  ".

End HomeConfig.

(** ** [SimpleSTLLoader.parseBinarySTL] ([viewer3d_standalone.js]) *)

Module Stl.

Section Decoder.

(** The numbers of JavaScript, and the decoding of four bytes in
    little-endian order that [DataView.getFloat32(offset, true)]
    performs. *)
Variable Number : Type.
Variable float32 : byte -> byte -> byte -> byte -> Number.

(** [view.getUint32(offset, true)]; [None] is the [RangeError] of a read
    past the end of the buffer. *)
Definition getUint32 (data : list byte) (offset : nat) : option N :=
  match skipn offset data with
  | b0 :: b1 :: b2 :: b3 :: _ =>
    Some (Byte.to_N b0
          + 256 * (Byte.to_N b1 + 256 * (Byte.to_N b2 + 256 * Byte.to_N b3)))%N
  | _ => None
  end.

(** [view.getFloat32(offset, true)]. *)
Definition getFloat32 (data : list byte) (offset : nat) : option Number :=
  match skipn offset data with
  | b0 :: b1 :: b2 :: b3 :: _ => Some (float32 b0 b1 b2 b3)
  | _ => None
  end.

(** The inner loop: [n] floats from [offset] on, four bytes apart. *)
Fixpoint readFloats (n : nat) (data : list byte) (offset : nat)
  : option (list Number) :=
  match n with
  | O => Some []
  | S k =>
    match getFloat32 data offset with
    | None => None
    | Some x =>
      match readFloats k data (offset + 4) with
      | None => None
      | Some rest => Some (x :: rest)
      end
    end
  end.

(** The outer loop: each triangle skips the 12 bytes of its normal, reads
    9 floats and skips 2 attribute bytes. *)
Fixpoint readTriangles (triangleCount : nat) (data : list byte) (offset : nat)
  : option (list Number) :=
  match triangleCount with
  | O => Some []
  | S k =>
    match readFloats 9 data (offset + 12) with
    | None => None
    | Some vertices =>
      match readTriangles k data (offset + 12 + 36 + 2) with
      | None => None
      | Some rest => Some (vertices ++ rest)
      end
    end
  end.

(** [parseBinarySTL(data)]: the coordinates of the position attribute, or
    [None] for the [null] returned when a read throws. *)
Definition parseBinarySTL (data : list byte) : option (list Number) :=
  match getUint32 data 80 with
  | None => None
  | Some triangleCount => readTriangles (N.to_nat triangleCount) data 84
  end.

(** The geometry [parse] goes on with, for an [ArrayBuffer]. *)
Inductive Geometry :=
| Positions (vertices : list Number)
| FallbackCube.

Definition parse (data : list byte) : Geometry :=
  match parseBinarySTL data with
  | Some vertices => Positions vertices
  | None => FallbackCube
  end.

End Decoder.

Arguments getFloat32 {Number}.
Arguments readFloats {Number}.
Arguments readTriangles {Number}.
Arguments parseBinarySTL {Number}.
Arguments Positions {Number}.
Arguments FallbackCube {Number}.
Arguments parse {Number}.

(** A stand-in for the decoding of a float: the four bytes themselves. *)
Definition rawBytes (b0 b1 b2 b3 : byte) : list byte := [b0; b1; b2; b3].

(** A header of 80 bytes, a count of one triangle, the normal and the nine
    coordinates of the triangle, and no attribute bytes. *)
Definition oneTriangle : list byte :=
  repeat x00 80 ++ [x01; x00; x00; x00] ++ repeat x00 48.

End Stl.

(** ** The text parsers: [SimpleOBJLoader.parse] and
    [SimpleSTLLoader.parseASCIISTL] ([viewer3d_standalone.js]),
    [parseOBJSimple] ([js/modelloader.js]) *)

Module TextLoaders.

Import JsString.

Section Parsers.

(** The numbers of JavaScript with [parseFloat], [parseInt] and the
    subtraction of 1. *)
Variable Number : Type.
Variable parseFloat : jsstring -> Number.
Variable parseInt : jsstring -> Number.
Variable minusOne : Number -> Number.

(** [parts[i]] as the argument of [parseFloat] or [parseInt]: a missing
    element is [undefined], which both convert to the string
    [undefined]. *)
Definition item (parts : list jsstring) (i : nat) : jsstring :=
  nth i parts (lit "undefined").

(** [parseFloat(parts[1]), parseFloat(parts[2]), parseFloat(parts[3])]. *)
Definition coordinates (parts : list jsstring) : list Number :=
  [parseFloat (item parts 1); parseFloat (item parts 2);
   parseFloat (item parts 3)].

Record Buffers := buffers {
  vertices : list Number;
  faces : list Number
}.

(** One turn of the loop of [SimpleOBJLoader.parse]. *)
Definition objLine (b : Buffers) (line0 : jsstring) : Buffers :=
  let line := trim line0 in
  if startsWith (lit "v ") line then
    buffers (vertices b ++ coordinates (split " "%char line)) (faces b)
  else if startsWith (lit "f ") line then
    buffers (vertices b)
            (faces b
             ++ map (fun p => minusOne (parseInt (hd [] (split "/"%char p))))
                    (tl (split " "%char line)))
  else b.

Definition objScan (text : jsstring) : Buffers :=
  fold_left objLine (split "010"%char text) (buffers [] []).

(** What [SimpleOBJLoader.parse] builds: the placeholder cube, or a
    geometry with the position attribute and, if there are faces, the
    index. *)
Inductive ObjResult :=
| PlaceholderCube
| ObjMesh (position : list Number) (index : option (list Number)).

Definition parse (text : jsstring) : ObjResult :=
  let b := objScan text in
  match vertices b with
  | [] => PlaceholderCube
  | _ :: _ =>
    ObjMesh (vertices b)
            (match faces b with [] => None | _ :: _ => Some (faces b) end)
  end.

(** One turn of the loop of [parseOBJSimple]. *)
Definition simpleLine (b : Buffers) (line : jsstring) : Buffers :=
  let parts := split " "%char (trim line) in
  if streq (item parts 0) (lit "v") then
    buffers (vertices b ++ coordinates parts) (faces b)
  else if streq (item parts 0) (lit "f") then
    buffers (vertices b)
            (faces b ++ [minusOne (parseInt (item parts 1));
                         minusOne (parseInt (item parts 2));
                         minusOne (parseInt (item parts 3))])
  else b.

(** [parseOBJSimple(text)]: the position attribute and the index. *)
Definition parseOBJSimple (text : jsstring) : Buffers :=
  fold_left simpleLine (split "010"%char text) (buffers [] []).

(** One turn of the loop of [parseASCIISTL]. *)
Definition stlLine (vs : list Number) (line0 : jsstring) : list Number :=
  let line := trim line0 in
  if startsWith (lit "vertex") line then vs ++ coordinates (split " "%char line)
  else vs.

(** [parseASCIISTL(text)]; [None] is [null]. *)
Definition parseASCIISTL (text : jsstring) : option (list Number) :=
  match fold_left stlLine (split "010"%char text) [] with
  | [] => None
  | v :: vs => Some (v :: vs)
  end.

End Parsers.

Arguments item : simpl never.
Arguments coordinates {Number}.
Arguments objLine {Number}.
Arguments objScan {Number}.
Arguments parse {Number}.
Arguments simpleLine {Number}.
Arguments parseOBJSimple {Number}.
Arguments stlLine {Number}.
Arguments parseASCIISTL {Number}.
Arguments buffers {Number}.
Arguments vertices {Number}.
Arguments faces {Number}.
Arguments PlaceholderCube {Number}.
Arguments ObjMesh {Number}.

(** The trimmed lines of a text. *)
Definition trimmedLines (text : jsstring) : list jsstring :=
  map trim (split "010"%char text).

Definition isVertexLine (line : jsstring) : bool := startsWith (lit "v ") line.

Definition isFaceLine (line : jsstring) : bool := startsWith (lit "f ") line.

Definition isStlVertexLine (line : jsstring) : bool :=
  startsWith (lit "vertex") line.

(** The number of fields after the keyword: one per space of the line. *)
Definition fieldCount (line : jsstring) : nat :=
  List.length (tl (split " "%char line)).

(** A triangle and a quadrilateral. *)
Definition quadText : jsstring :=
  lit "v 0 0 0" ++ ["010"%char] ++ lit "v 1 0 0" ++ ["010"%char]
  ++ lit "v 1 1 0" ++ ["010"%char] ++ lit "v 0 1 0" ++ ["010"%char]
  ++ lit "f 1/1 2/2 3/3 4/4".

Definition facetText : jsstring :=
  lit "facet normal 0 0 1" ++ ["010"%char] ++ lit "  vertex 0 0 0"
  ++ ["010"%char] ++ lit "  vertex 1 0 0" ++ ["010"%char]
  ++ lit "  vertex 0 1 0" ++ ["010"%char] ++ lit "endfacet".

End TextLoaders.

(** * Properties *)

(** ** Arithmetic facts *)

Module JsFacts.

Import Js.

Lemma ltb_true a b : ltb a b = true <-> a < b.
Proof. unfold ltb; destruct (Rlt_dec a b); split; auto; discriminate. Qed.

Lemma ltb_false a b : ltb a b = false <-> b <= a.
Proof.
  unfold ltb; destruct (Rlt_dec a b); split; auto; try discriminate; lra.
Qed.

Lemma gtb_true a b : gtb a b = true <-> b < a.
Proof. apply ltb_true. Qed.

Lemma gtb_false a b : gtb a b = false <-> a <= b.
Proof. apply ltb_false. Qed.

Lemma eqb_true a b : eqb a b = true <-> a = b.
Proof. unfold eqb; destruct (Req_dec_T a b); split; auto; discriminate. Qed.

Lemma eqb_false a b : eqb a b = false <-> a <> b.
Proof.
  unfold eqb; destruct (Req_dec_T a b); split; auto; try discriminate.
  intros H; contradiction.
Qed.

Lemma or_else_nonzero a b : a <> 0 -> or_else a b = a.
Proof. intros H; unfold or_else; destruct (Req_dec_T a 0); tauto. Qed.

Lemma or_else_zero b : or_else 0 b = b.
Proof. unfold or_else; destruct (Req_dec_T 0 0); tauto. Qed.

Lemma max2_l a b : b <= a -> max2 a b = a.
Proof. intros; unfold max2; apply Rmax_left; assumption. Qed.

Lemma max2_r a b : a <= b -> max2 a b = b.
Proof. intros; unfold max2; apply Rmax_right; assumption. Qed.

Lemma sqrt_square a : 0 <= a -> sqrt (a * a) = a.
Proof. intros; apply sqrt_square; assumption. Qed.

(** Square roots of 2 and 3, to five decimals. *)
Lemma sqrt2_bounds : 1.41421 < sqrt 2 < 1.41422.
Proof.
  assert (H : sqrt 2 * sqrt 2 = 2) by (apply sqrt_sqrt; lra).
  assert (P : 0 <= sqrt 2) by apply sqrt_pos.
  split; nra.
Qed.

Lemma sqrt3_bounds : 1.73205 < sqrt 3 < 1.73206.
Proof.
  assert (H : sqrt 3 * sqrt 3 = 3) by (apply sqrt_sqrt; lra).
  assert (P : 0 <= sqrt 3) by apply sqrt_pos.
  split; nra.
Qed.

(** Half of 75 degrees, in radians, lies strictly inside the first
    quadrant. *)
Lemma half75_range : 0 < 75 * (PI / 180) / 2 < PI / 2.
Proof. pose proof PI_RGT_0; split; lra. Qed.

(** The cotangent of 37.5 degrees in closed form. *)
Lemma cot_half75 :
  1 / tan (75 * (PI / 180) / 2) = (2 * sqrt 2 + sqrt 3 - 1) / (sqrt 3 + 1).
Proof.
  set (a := 75 * (PI / 180) / 2).
  pose proof half75_range as [Ha0 Ha1]; fold a in Ha0, Ha1.
  pose proof PI_RGT_0 as Hpi.
  pose proof sqrt2_bounds as [H2a H2b].
  pose proof sqrt3_bounds as [H3a H3b].
  assert (S22 : sqrt 2 * sqrt 2 = 2) by (apply sqrt_sqrt; lra).
  assert (S33 : sqrt 3 * sqrt 3 = 3) by (apply sqrt_sqrt; lra).
  assert (Hs : 0 < sin a) by (apply sin_gt_0; lra).
  assert (Hc : 0 < cos a) by (apply cos_gt_0; lra).
  assert (E : 2 * a = PI / 4 + PI / 6) by (unfold a; field).
  assert (Hsin : 2 * sin a * cos a = (sqrt 3 + 1) / (2 * sqrt 2)).
  { rewrite <- sin_2a, E, sin_plus, sin_PI4, cos_PI4, sin_PI6, cos_PI6.
    field; lra. }
  assert (Hcos : 2 * cos a * cos a - 1 = (sqrt 3 - 1) / (2 * sqrt 2)).
  { rewrite <- cos_2a_cos, E, cos_plus, sin_PI4, cos_PI4, sin_PI6, cos_PI6.
    field; lra. }
  unfold tan.
  assert (Hq : cos a * (sqrt 3 + 1) = sin a * (2 * sqrt 2 + sqrt 3 - 1)).
  { assert (K1 : 2 * sin a * cos a * (2 * sqrt 2) = sqrt 3 + 1)
      by (rewrite Hsin; field; lra).
    assert (K2 : (2 * cos a * cos a - 1) * (2 * sqrt 2) = sqrt 3 - 1)
      by (rewrite Hcos; field; lra).
    apply (Rmult_eq_reg_l (2 * cos a * (2 * sqrt 2))); [ | nra ].
    nra. }
  apply (Rmult_eq_reg_l (sin a * (sqrt 3 + 1))); [ | nra ].
  field_simplify; [ | lra | split; lra ].
  nra.
Qed.

Lemma cot_half75_bounds : 1.303 < 1 / tan (75 * (PI / 180) / 2) < 1.304.
Proof.
  rewrite cot_half75.
  pose proof sqrt2_bounds as [H2a H2b].
  pose proof sqrt3_bounds as [H3a H3b].
  split.
  - apply (Rmult_lt_reg_r (sqrt 3 + 1)); [ lra | ].
    unfold Rdiv; rewrite Rmult_assoc, Rinv_l by lra. lra.
  - apply (Rmult_lt_reg_r (sqrt 3 + 1)); [ lra | ].
    unfold Rdiv; rewrite Rmult_assoc, Rinv_l by lra. lra.
Qed.

End JsFacts.

(** ** Facts about the three.js primitives *)

Module ThreeFacts.

Import Js Three JsFacts.

Lemma vec3_eq a b c a' b' c' :
  a = a' -> b = b' -> c = c' -> vec3 a b c = vec3 a' b' c'.
Proof. intros; subst; reflexivity. Qed.

Lemma lengthSq_nonneg v : 0 <= lengthSq v.
Proof. unfold lengthSq; nra. Qed.

Lemma length_nonneg v : 0 <= length v.
Proof. apply sqrt_pos. Qed.

Lemma length_sq v : length v * length v = lengthSq v.
Proof. apply sqrt_sqrt, lengthSq_nonneg. Qed.

Lemma length_zero_iff v : length v = 0 <-> v = origin.
Proof.
  split.
  - intros H. apply sqrt_eq_0 in H; [ | apply lengthSq_nonneg ].
    destruct v as [a b c]; unfold lengthSq in H; simpl in H.
    unfold origin; apply vec3_eq; nra.
  - intros ->. unfold length, lengthSq, origin; simpl.
    replace (0 * 0 + 0 * 0 + 0 * 0) with 0 by ring. apply sqrt_0.
Qed.

Lemma length_multiplyScalar v k :
  0 <= k -> length (multiplyScalar v k) = length v * k.
Proof.
  intros Hk. unfold length, lengthSq, multiplyScalar; simpl.
  replace (vx v * k * (vx v * k) + vy v * k * (vy v * k) + vz v * k * (vz v * k))
    with ((vx v * vx v + vy v * vy v + vz v * vz v) * (k * k)) by ring.
  rewrite sqrt_mult_alt by (fold (lengthSq v); apply lengthSq_nonneg).
  rewrite sqrt_square by assumption. reflexivity.
Qed.

(** A non-zero vector is normalised to length one, the zero vector is
    left alone. *)
Lemma length_normalize v : v <> origin -> length (normalize v) = 1.
Proof.
  intros Hv.
  assert (Hl : length v <> 0) by (rewrite length_zero_iff; assumption).
  pose proof (length_nonneg v) as Hp.
  unfold normalize, divideScalar. rewrite or_else_nonzero by assumption.
  rewrite length_multiplyScalar.
  - field; assumption.
  - apply Rlt_le, Rdiv_lt_0_compat; lra.
Qed.

Lemma normalize_origin : normalize origin = origin.
Proof.
  unfold normalize, divideScalar, multiplyScalar, origin; simpl.
  apply vec3_eq; ring.
Qed.

Lemma length_z d : 0 <= d -> length (vec3 0 0 d) = d.
Proof.
  intros Hd. unfold length, lengthSq; simpl.
  replace (0 * 0 + 0 * 0 + d * d) with (d * d) by ring.
  apply sqrt_square; assumption.
Qed.

Lemma normalize_z d : 0 < d -> normalize (vec3 0 0 d) = vec3 0 0 1.
Proof.
  intros Hd. unfold normalize, divideScalar, multiplyScalar.
  rewrite length_z by lra. rewrite or_else_nonzero by lra. simpl.
  apply vec3_eq; field; lra.
Qed.

Lemma normalize_unit_x : normalize (vec3 1 0 0) = vec3 1 0 0.
Proof.
  unfold normalize, divideScalar, multiplyScalar, length, lengthSq; simpl.
  replace (1 * 1 + 0 * 0 + 0 * 0) with 1 by ring.
  rewrite sqrt_1, or_else_nonzero by lra.
  apply vec3_eq; field.
Qed.

(** A camera on the positive z axis aimed at a point straight ahead of it
    keeps the identity orientation. *)
Lemma lookAtBasis_along_z cx cy cz d :
  0 < d -> lookAtBasis (vec3 cx cy (cz + d)) (vec3 cx cy cz) = identity.
Proof.
  intros Hd. unfold lookAtBasis, sub; simpl.
  replace (cx - cx) with 0 by ring.
  replace (cy - cy) with 0 by ring.
  replace (cz + d - cz) with d by ring.
  assert (E1 : eqb (lengthSq (vec3 0 0 d)) 0 = false).
  { apply eqb_false. unfold lengthSq; simpl. nra. }
  rewrite E1, normalize_z by assumption.
  assert (X : crossVectors up (vec3 0 0 1) = vec3 1 0 0).
  { unfold crossVectors, up; simpl. apply vec3_eq; ring. }
  rewrite X.
  assert (E2 : eqb (lengthSq (vec3 1 0 0)) 0 = false).
  { apply eqb_false. unfold lengthSq; simpl. lra. }
  rewrite E2, X, normalize_unit_x.
  unfold identity, crossVectors; simpl.
  f_equal; apply vec3_eq; ring.
Qed.

Lemma normalize_minus_z : normalize (negate (vec3 0 0 1)) = vec3 0 0 (-1).
Proof.
  unfold normalize, divideScalar, multiplyScalar, negate, length, lengthSq; simpl.
  replace (- 0 * - 0 + - 0 * - 0 + - (1) * - (1)) with 1 by ring.
  rewrite sqrt_1, or_else_nonzero by lra.
  apply vec3_eq; field.
Qed.

(** The boxes of the scenarios. *)

Lemma cube2_not_empty : isEmpty cube2 = false.
Proof.
  unfold isEmpty, cube2; simpl.
  assert (E : ltb 1 (-1) = false) by (apply ltb_false; lra).
  rewrite E; reflexivity.
Qed.

Lemma cube2_size : getSize cube2 = vec3 2 2 2.
Proof.
  unfold getSize. rewrite cube2_not_empty.
  unfold sub, cube2; simpl. apply vec3_eq; ring.
Qed.

Lemma cube2_center : getCenter cube2 = vec3 0 0 0.
Proof.
  unfold getCenter. rewrite cube2_not_empty.
  unfold multiplyScalar, add, cube2; simpl. apply vec3_eq; field.
Qed.

Lemma pointBox_not_empty : isEmpty pointBox = false.
Proof.
  unfold isEmpty, pointBox; simpl.
  assert (E2 : ltb 2 2 = false) by (apply ltb_false; lra).
  assert (E3 : ltb 3 3 = false) by (apply ltb_false; lra).
  assert (E4 : ltb 4 4 = false) by (apply ltb_false; lra).
  rewrite E2, E3, E4; reflexivity.
Qed.

Lemma unitBoxAround_not_empty : isEmpty unitBoxAround = false.
Proof.
  unfold isEmpty, unitBoxAround; simpl.
  assert (E2 : ltb (5 / 2) (3 / 2) = false) by (apply ltb_false; lra).
  assert (E3 : ltb (7 / 2) (5 / 2) = false) by (apply ltb_false; lra).
  assert (E4 : ltb (9 / 2) (7 / 2) = false) by (apply ltb_false; lra).
  rewrite E2, E3, E4; reflexivity.
Qed.

Lemma cube100_not_empty : isEmpty cube100 = false.
Proof.
  unfold isEmpty, cube100; simpl.
  assert (E : ltb 50 (-50) = false) by (apply ltb_false; lra).
  rewrite E; reflexivity.
Qed.

Lemma cube100_size : getSize cube100 = vec3 100 100 100.
Proof.
  unfold getSize. rewrite cube100_not_empty.
  unfold sub, cube100; simpl. apply vec3_eq; ring.
Qed.

Lemma cube100_center : getCenter cube100 = vec3 0 0 0.
Proof.
  unfold getCenter. rewrite cube100_not_empty.
  unfold multiplyScalar, add, cube100; simpl. apply vec3_eq; field.
Qed.

End ThreeFacts.

(** ** The single-file viewer *)

Module ViewerProps.

Import Js Three JsFacts ThreeFacts Viewer.


Lemma cube2_fitSize : fitSize cube2 = vec3 2 2 2.
Proof.
  unfold fitSize. rewrite cube2_size; simpl.
  assert (E : eqb 2 0 = false) by (apply eqb_false; lra).
  rewrite E; reflexivity.
Qed.

Lemma cube2_maxDimension : fitMaxDimension cube2 = 2.
Proof.
  unfold fitMaxDimension. rewrite cube2_fitSize; simpl.
  unfold max3. rewrite (Rmax_left 2 2) by lra. apply Rmax_left; lra.
Qed.

Lemma cube2_distance :
  fitDistance cube2 75 = 1 / tan (75 * (PI / 180) / 2).
Proof.
  unfold fitDistance. rewrite cube2_maxDimension.
  pose proof cot_half75_bounds as [Hlo Hhi].
  assert (Ht : 0 < tan (75 * (PI / 180) / 2)).
  { pose proof half75_range as [? ?]. apply tan_gt_0; assumption. }
  replace (2 / (2 * tan (75 * (PI / 180) / 2)))
    with (1 / tan (75 * (PI / 180) / 2)) by (field; lra).
  apply max2_l; lra.
Qed.

Lemma cube2_finalDistance : fitFinalDistance cube2 75 = 5.
Proof.
  unfold fitFinalDistance. rewrite cube2_distance.
  pose proof cot_half75_bounds as [Hlo Hhi].
  apply max2_r; lra.
Qed.

(** Where [autoFitModel] leaves the camera, for any box. *)
Lemma autoFitModel_camera measured remeasured c m k :
  cam (autoFitModel measured remeasured (state c (Some m) k))
  = camera (vec3 0 0 (fitFinalDistance (fitBox measured remeasured) (fov c)))
           identity (zoom c) (fov c) (rotation c).
Proof.
  set (d := fitFinalDistance (fitBox measured remeasured) (fov c)).
  unfold autoFitModel; simpl. fold d.
  unfold lookAt, updateWorldMatrix, setRotation, setPosition; simpl.
  assert (Hd : 0 < d).
  { unfold d, fitFinalDistance, max2.
    pose proof (Rmax_r (fitDistance (fitBox measured remeasured) (fov c) * 2) 5).
    lra. }
  pose proof (lookAtBasis_along_z 0 0 0 d Hd) as L.
  replace (0 + d) with d in L by ring.
  rewrite L. reflexivity.
Qed.

(** C1. An object whose computed bounding box is min = (-1,-1,-1),
    max = (1,1,1), framed by [autoFitModel] with a camera of fov 75
    degrees: the largest dimension is 2, the distance before the margin
    is max(2 / (2 tan 37.5 deg), 1), which lies between 1.303 and 1.304
    (so within 0.01 of 1.31), the final distance is exactly 5, and the
    camera stands at (0, 0, 5) looking down the z axis at the origin;
    the object itself is not moved and (0, 0, 5) becomes the reset
    position. *)
Theorem C1_autofit_cube2 :
  forall (measured remeasured : Box3) (c : Camera) (m : Model) (k : Controls),
    fitBox measured remeasured = cube2 ->
    fov c = 75 ->
    let s' := autoFitModel measured remeasured (state c (Some m) k) in
    fitMaxDimension cube2 = 2
    /\ fitDistance cube2 75 = max2 (2 / (2 * tan (37.5 * (PI / 180)))) 1
    /\ 1.303 < fitDistance cube2 75 < 1.304
    /\ Rabs (fitDistance cube2 75 - 1.31) < 0.01
    /\ fitFinalDistance cube2 75 = max2 (fitDistance cube2 75 * 2) 5
    /\ fitFinalDistance cube2 75 = 5
    /\ position (cam s') = vec3 0 0 5
    /\ rotation (cam s') = identity
    /\ snd (getWorldDirection (cam s')) = vec3 0 0 (-1)
    /\ add (position (cam s')) (multiplyScalar (snd (getWorldDirection (cam s'))) 5)
       = vec3 0 0 0
    /\ option_map mposition (currentModel s') = Some (mposition m)
    /\ initialCameraPosition (ctl s') = vec3 0 0 5.
Proof.
  intros measured remeasured c m k Hbox Hfov s'.
  assert (Hcam : cam s' = camera (vec3 0 0 5) identity (zoom c) 75 (rotation c)).
  { unfold s'. rewrite autoFitModel_camera, Hbox, Hfov, cube2_finalDistance.
    reflexivity. }
  assert (Hdir : snd (getWorldDirection (cam s')) = vec3 0 0 (-1)).
  { rewrite Hcam. unfold getWorldDirection, updateWorldMatrix; simpl.
    apply normalize_minus_z. }
  pose proof cot_half75_bounds as [Hlo Hhi].
  split; [ apply cube2_maxDimension | ].
  split.
  { unfold fitDistance. rewrite cube2_maxDimension.
    replace (75 * (PI / 180) / 2) with (37.5 * (PI / 180)) by lra.
    reflexivity. }
  split; [ rewrite cube2_distance; split; assumption | ].
  split.
  { rewrite cube2_distance. unfold Rabs.
    destruct (Rcase_abs (1 / tan (75 * (PI / 180) / 2) - 1.31)); lra. }
  split; [ reflexivity | ].
  split; [ apply cube2_finalDistance | ].
  split; [ rewrite Hcam; reflexivity | ].
  split; [ rewrite Hcam; reflexivity | ].
  split; [ exact Hdir | ].
  split.
  { rewrite Hdir, Hcam. unfold add, multiplyScalar; simpl.
    apply vec3_eq; ring. }
  split.
  { unfold s', autoFitModel; simpl. rewrite Hbox, cube2_center.
    unfold sub; simpl. f_equal. destruct (mposition m) as [a b d]; simpl.
    apply vec3_eq; ring. }
  unfold s', autoFitModel; simpl.
  rewrite Hbox, Hfov, cube2_finalDistance. reflexivity.
Qed.

(** The scenario of C1 on the camera the viewer creates. *)
Lemma C1_autofit_cube2_witness :
  fitBox cube2 cube2 = cube2
  /\ fov camera75 = 75
  /\ fitFinalDistance cube2 75 = 5
  /\ position (cam (autoFitModel cube2 cube2 loaded)) = vec3 0 0 5.
Proof.
  assert (Hbox : fitBox cube2 cube2 = cube2).
  { unfold fitBox. rewrite cube2_not_empty. reflexivity. }
  split; [ exact Hbox | ]. split; [ reflexivity | ].
  pose proof (C1_autofit_cube2 cube2 cube2 camera75 sampleModel
                initializeControls Hbox eq_refl) as H.
  simpl in H.
  destruct H as (_ & _ & _ & _ & _ & H6 & H7 & _).
  split; [ exact H6 | exact H7 ].
Defined.

(** *** Degenerate boxes *)

Lemma fitSize_zero b : getSize b = vec3 0 0 0 -> fitSize b = vec3 1 1 1.
Proof.
  intros H. unfold fitSize. rewrite H; simpl.
  assert (E : eqb 0 0 = true) by (apply eqb_true; reflexivity).
  rewrite E; reflexivity.
Qed.

Lemma fitSize_unit b : getSize b = vec3 1 1 1 -> fitSize b = vec3 1 1 1.
Proof.
  intros H. unfold fitSize. rewrite H; simpl.
  assert (E : eqb 1 0 = false) by (apply eqb_false; lra).
  rewrite E; reflexivity.
Qed.

(** C8. A computed bounding box whose size is (0,0,0) is framed by
    [autoFitModel] exactly like one whose size is (1,1,1), for every
    camera: same largest dimension, same distances, same camera and same
    reset position; and when the two boxes have the same centre the object
    receives the same offset, so the whole resulting state is the same. *)
Theorem C8_zero_size_as_unit_size :
  forall (m0 r0 m1 r1 : Box3) (c : Camera) (m : Model) (k : Controls),
    getSize (fitBox m0 r0) = vec3 0 0 0 ->
    getSize (fitBox m1 r1) = vec3 1 1 1 ->
    let s0 := autoFitModel m0 r0 (state c (Some m) k) in
    let s1 := autoFitModel m1 r1 (state c (Some m) k) in
    fitSize (fitBox m0 r0) = vec3 1 1 1
    /\ fitDistance (fitBox m0 r0) (fov c) = fitDistance (fitBox m1 r1) (fov c)
    /\ fitFinalDistance (fitBox m0 r0) (fov c)
       = fitFinalDistance (fitBox m1 r1) (fov c)
    /\ cam s0 = cam s1
    /\ ctl s0 = ctl s1
    /\ (getCenter (fitBox m0 r0) = getCenter (fitBox m1 r1) -> s0 = s1).
Proof.
  intros m0 r0 m1 r1 c m k H0 H1 s0 s1.
  pose proof (fitSize_zero _ H0) as F0.
  pose proof (fitSize_unit _ H1) as F1.
  assert (D : fitDistance (fitBox m0 r0) (fov c)
              = fitDistance (fitBox m1 r1) (fov c)).
  { unfold fitDistance, fitMaxDimension. rewrite F0, F1. reflexivity. }
  assert (FD : fitFinalDistance (fitBox m0 r0) (fov c)
               = fitFinalDistance (fitBox m1 r1) (fov c)).
  { unfold fitFinalDistance. rewrite D. reflexivity. }
  split; [ exact F0 | ].
  split; [ exact D | ].
  split; [ exact FD | ].
  split; [ unfold s0, s1, autoFitModel; simpl; rewrite FD; reflexivity | ].
  split; [ unfold s0, s1, autoFitModel; simpl; rewrite FD; reflexivity | ].
  intros Hc. unfold s0, s1, autoFitModel; simpl. rewrite FD, Hc. reflexivity.
Qed.


Lemma C8_zero_size_as_unit_size_witness :
  getSize (fitBox pointBox pointBox) = vec3 0 0 0
  /\ getSize (fitBox unitBoxAround unitBoxAround) = vec3 1 1 1
  /\ getCenter (fitBox pointBox pointBox)
     = getCenter (fitBox unitBoxAround unitBoxAround)
  /\ autoFitModel pointBox pointBox loaded
     = autoFitModel unitBoxAround unitBoxAround loaded.
Proof.
  assert (B0 : fitBox pointBox pointBox = pointBox)
    by (unfold fitBox; rewrite pointBox_not_empty; reflexivity).
  assert (B1 : fitBox unitBoxAround unitBoxAround = unitBoxAround)
    by (unfold fitBox; rewrite unitBoxAround_not_empty; reflexivity).
  assert (H0 : getSize (fitBox pointBox pointBox) = vec3 0 0 0).
  { rewrite B0. unfold getSize. rewrite pointBox_not_empty.
    unfold sub, pointBox; simpl. apply vec3_eq; ring. }
  assert (H1 : getSize (fitBox unitBoxAround unitBoxAround) = vec3 1 1 1).
  { rewrite B1. unfold getSize. rewrite unitBoxAround_not_empty.
    unfold sub, unitBoxAround; simpl. apply vec3_eq; field. }
  assert (Hc : getCenter (fitBox pointBox pointBox)
               = getCenter (fitBox unitBoxAround unitBoxAround)).
  { rewrite B0, B1. unfold getCenter.
    rewrite pointBox_not_empty, unitBoxAround_not_empty.
    unfold multiplyScalar, add, pointBox, unitBoxAround; simpl.
    apply vec3_eq; field. }
  split; [ exact H0 | ]. split; [ exact H1 | ]. split; [ exact Hc | ].
  exact (proj2 (proj2 (proj2 (proj2 (proj2
           (C8_zero_size_as_unit_size pointBox pointBox unitBoxAround
              unitBoxAround camera75 sampleModel initializeControls H0 H1)))))
           Hc).
Defined.

(** *** Distances chosen by [autoFitModel] *)

Lemma fitDistance_ge_1 b f : 1 <= fitDistance b f.
Proof. unfold fitDistance, max2. apply Rmax_r. Qed.

Lemma fitFinalDistance_ge_5 b f : 5 <= fitFinalDistance b f.
Proof. unfold fitFinalDistance, max2. apply Rmax_r. Qed.

Lemma fitFinalDistance_ge_margin b f :
  fitDistance b f * 2 <= fitFinalDistance b f.
Proof. unfold fitFinalDistance, max2. apply Rmax_l. Qed.

Lemma autoFitModel_distance measured remeasured c m k :
  length (position (cam (autoFitModel measured remeasured (state c (Some m) k))))
  = fitFinalDistance (fitBox measured remeasured) (fov c).
Proof.
  rewrite autoFitModel_camera; simpl.
  apply length_z. pose proof (fitFinalDistance_ge_5 (fitBox measured remeasured) (fov c)).
  lra.
Qed.


Lemma cube100_distance : 65 < fitDistance cube100 75 < 66.
Proof.
  pose proof cot_half75_bounds as [Hlo Hhi].
  assert (Ht : 0 < tan (75 * (PI / 180) / 2)).
  { pose proof half75_range as [? ?]. apply tan_gt_0; assumption. }
  assert (M : fitMaxDimension cube100 = 100).
  { unfold fitMaxDimension, fitSize. rewrite cube100_size; simpl.
    assert (E : eqb 100 0 = false) by (apply eqb_false; lra).
    rewrite E; simpl. unfold max3.
    rewrite (Rmax_left 100 100) by lra. apply Rmax_left; lra. }
  unfold fitDistance. rewrite M.
  replace (100 / (2 * tan (75 * (PI / 180) / 2)))
    with (50 * (1 / tan (75 * (PI / 180) / 2))) by (field; lra).
  rewrite max2_l by lra. lra.
Qed.

Lemma cube100_finalDistance : 130 < fitFinalDistance cube100 75 < 132.
Proof.
  pose proof cube100_distance as [Hlo Hhi].
  unfold fitFinalDistance. rewrite max2_l by lra. lra.
Qed.

(** *** Reset *)

Lemma handle_initialCameraPosition s e :
  initialCameraPosition (ctl (handle s e)) = initialCameraPosition (ctl s).
Proof.
  destruct e as [b x y | x y | | d]; simpl.
  - unfold handleMouseDown; simpl.
    destruct (Nat.eqb b 0); [ reflexivity | ].
    destruct (Nat.eqb b 2); reflexivity.
  - unfold handleMouseMove.
    destruct (negb (isPanning (ctl s)) && negb (isRotating (ctl s)));
      [ reflexivity | ].
    destruct (isRotating (ctl s)), (currentModel s), (isPanning (ctl s));
      reflexivity.
  - reflexivity.
  - unfold handleMouseWheel.
    destruct (getWorldDirection (cam s)) as [c1 direction]. reflexivity.
Qed.

Lemma run_initialCameraPosition es : forall s,
  initialCameraPosition (ctl (run s es)) = initialCameraPosition (ctl s).
Proof.
  induction es as [ | e es IH]; intros s; [ reflexivity | ].
  change (run s (e :: es)) with (run (handle s e) es).
  rewrite IH. apply handle_initialCameraPosition.
Qed.

Lemma resetView_position s :
  position (cam (resetView s)) = initialCameraPosition (ctl s).
Proof. reflexivity. Qed.

(** After any mouse events, [resetView] puts the camera back where the
    last [autoFitModel] left it, with the orientation it had there. *)
Lemma reset_after_autoFit measured remeasured c m k es :
  let s1 := autoFitModel measured remeasured (state c (Some m) k) in
  let s' := resetView (run s1 es) in
  position (cam s') = position (cam s1)
  /\ rotation (cam s') = rotation (cam s1).
Proof.
  intros s1 s'.
  assert (I : initialCameraPosition (ctl s1) = position (cam s1)) by reflexivity.
  assert (P : position (cam s') = position (cam s1)).
  { unfold s'. rewrite resetView_position, run_initialCameraPosition. exact I. }
  split; [ exact P | ].
  assert (C := autoFitModel_camera measured remeasured c m k). fold s1 in C.
  rewrite C; simpl.
  unfold s', resetView, lookAt, updateWorldMatrix, setRotation, setPosition; simpl.
  rewrite run_initialCameraPosition, I, C; simpl.
  pose proof (fitFinalDistance_ge_5 (fitBox measured remeasured) (fov c)) as G.
  pose proof (lookAtBasis_along_z 0 0 0
                (fitFinalDistance (fitBox measured remeasured) (fov c))) as L.
  replace (0 + fitFinalDistance (fitBox measured remeasured) (fov c))
    with (fitFinalDistance (fitBox measured remeasured) (fov c)) in L by ring.
  apply L; lra.
Qed.

End ViewerProps.

(** ** The [Scene3D] object *)

Module Scene3DProps.

Import Js Three JsFacts ThreeFacts Scene3D.

(** *** The state after [init] *)

Lemma initCamera_eq : initCamera = camera (vec3 0 0 5) identity 1 75 identity.
Proof.
  unfold initCamera, lookAt, updateWorldMatrix, setRotation, setPosition; simpl.
  pose proof (lookAtBasis_along_z 0 0 0 5) as L.
  replace (0 + 5) with 5 in L by ring.
  rewrite L by lra. reflexivity.
Qed.

Lemma init_cam : cam init = camera (vec3 0 0 5) identity 1 75 identity.
Proof.
  unfold init, saveCurrentView, render, setCam.
  rewrite initCamera_eq. reflexivity.
Qed.

Lemma init_savedView :
  savedView init = Some (view (vec3 0 0 5) identity 1).
Proof.
  unfold init, saveCurrentView, render, setCam.
  rewrite initCamera_eq. reflexivity.
Qed.

(** *** Zoom *)


Lemma zoomCamera_position delta s :
  position (cam (zoomCamera delta s))
  = let p1 := zoomTarget delta s in
    if ltb (length p1) minDistance then multiplyScalar (normalize p1) minDistance
    else if gtb (length p1) maxDistance then multiplyScalar (normalize p1) maxDistance
    else p1.
Proof. reflexivity. Qed.

Lemma length_renormalized p k :
  p <> origin -> 0 <= k -> length (multiplyScalar (normalize p) k) = k.
Proof.
  intros Hp Hk. rewrite length_multiplyScalar by assumption.
  rewrite length_normalize by assumption. ring.
Qed.

(** Away from the origin the clamp of [zoomCamera] does its work: the new
    distance is the nearest bound when the target lies outside
    [[minDistance, maxDistance]], and the target distance otherwise. *)
Lemma zoomCamera_clamps delta s :
  zoomTarget delta s <> origin ->
  let d := length (zoomTarget delta s) in
  let d' := length (position (cam (zoomCamera delta s))) in
  minDistance <= d' <= maxDistance
  /\ (d < minDistance -> d' = minDistance)
  /\ (maxDistance < d -> d' = maxDistance)
  /\ (minDistance <= d <= maxDistance ->
      position (cam (zoomCamera delta s)) = zoomTarget delta s).
Proof.
  intros Hp d d'. unfold d'. rewrite zoomCamera_position. cbv zeta. fold d.
  unfold minDistance, maxDistance.
  destruct (ltb d 1) eqn:E1.
  - apply ltb_true in E1. rewrite length_renormalized by (assumption || lra).
    repeat split; intros; lra.
  - apply ltb_false in E1. destruct (gtb d 10) eqn:E2.
    + apply gtb_true in E2. rewrite length_renormalized by (assumption || lra).
      repeat split; intros; lra.
    + apply gtb_false in E2. fold d. repeat split; intros; lra || reflexivity.
Qed.

(** A non-empty sequence of zoom steps that never aims at the origin ends
    with the camera between the two bounds. *)
Lemma zooms_in_range deltas : forall s,
  deltas <> [] -> avoidsOrigin s deltas ->
  minDistance <= length (position (cam (zooms s deltas))) <= maxDistance.
Proof.
  induction deltas as [ | delta rest IH]; intros s Hne Hav; [ contradiction | ].
  destruct Hav as [Ht Hrest].
  change (zooms s (delta :: rest)) with (zooms (zoomCamera delta s) rest).
  destruct rest as [ | delta' rest'].
  - exact (proj1 (zoomCamera_clamps delta s Ht)).
  - apply IH; [ discriminate | exact Hrest ].
Qed.

(** When the target of a zoom step is the origin itself, the camera stays
    there: normalising the zero vector leaves it zero. *)
Lemma zoomCamera_at_origin delta s :
  zoomTarget delta s = origin ->
  position (cam (zoomCamera delta s)) = origin.
Proof.
  intros Hp. rewrite zoomCamera_position. cbv zeta. rewrite Hp.
  assert (L : length origin = 0) by (apply length_zero_iff; reflexivity).
  rewrite L.
  assert (E : ltb 0 minDistance = true) by (apply ltb_true; unfold minDistance; lra).
  rewrite E, normalize_origin.
  unfold multiplyScalar, origin; simpl. apply vec3_eq; ring.
Qed.

(** C2 (the code at the failing input). From the pose [init] gives the
    camera, (0, 0, 5) looking at the origin, one wheel event with
    deltaY = 1000 is a zoom delta of 5: the camera lands on the origin and
    the clamp leaves it there, at distance 0, below [minDistance]. *)
Theorem C2_zoom_lands_on_origin :
  let s' := onMouseWheel 1000 init in
  zoomTarget (1000 * sensitivity_zoom) init = origin
  /\ position (cam s') = origin
  /\ length (position (cam s')) = 0
  /\ ~ (minDistance <= length (position (cam s')) <= maxDistance).
Proof.
  intros s'.
  assert (T : zoomTarget (1000 * sensitivity_zoom) init = origin).
  { unfold zoomTarget. rewrite init_cam; simpl.
    change (vec3 (- 0) (- 0) (- (1))) with (negate (vec3 0 0 1)).
    rewrite normalize_minus_z.
    unfold add, multiplyScalar, sensitivity_zoom, origin; simpl.
    apply vec3_eq; lra. }
  assert (P : position (cam s') = origin).
  { unfold s', onMouseWheel. apply zoomCamera_at_origin. exact T. }
  assert (L : length (position (cam s')) = 0).
  { rewrite P. apply length_zero_iff. reflexivity. }
  split; [ exact T | ]. split; [ exact P | ]. split; [ exact L | ].
  rewrite L. unfold minDistance. lra.
Qed.


(** *** Orbit *)

Lemma PI_gt_3 : 3 < PI.
Proof. pose proof PI2_3_2. lra. Qed.

(** The clamp of the polar angle. *)
Lemma phi_clamp_range a : 0.1 <= max2 0.1 (min2 (PI - 0.1) a) <= PI - 0.1.
Proof.
  pose proof PI_gt_3. unfold max2, min2. split.
  - apply Rmax_l.
  - apply Rmax_lub; [ lra | apply Rmin_l ].
Qed.

Lemma setFromVector3_radius p : radius (setFromVector3 p) = length p.
Proof. unfold setFromVector3. destruct (eqb (length p) 0); reflexivity. Qed.

Lemma rotatedSpherical_radius p dx dy :
  radius (rotatedSpherical p dx dy) = length p.
Proof. unfold rotatedSpherical; simpl. apply setFromVector3_radius. Qed.

Lemma rotatedSpherical_phi p dx dy :
  0.1 <= phi (rotatedSpherical p dx dy) <= PI - 0.1.
Proof. unfold rotatedSpherical; simpl. apply phi_clamp_range. Qed.

Lemma sin_cos_square a : sin a * sin a + cos a * cos a = 1.
Proof. pose proof (sin2_cos2 a) as H. unfold Rsqr in H. exact H. Qed.

(** Converting spherical coordinates to a vector keeps the radius. *)
Lemma length_setFromSpherical sph :
  0 <= radius sph -> length (setFromSpherical sph) = radius sph.
Proof.
  intros Hr. destruct sph as [r p t]; simpl in *.
  unfold length, lengthSq, setFromSpherical; simpl.
  replace (sin p * r * sin t * (sin p * r * sin t) + cos p * r * (cos p * r)
           + sin p * r * cos t * (sin p * r * cos t))
    with (r * r * (sin p * sin p * (sin t * sin t + cos t * cos t)
                   + cos p * cos p)) by ring.
  rewrite (sin_cos_square t), Rmult_1_r, (sin_cos_square p), Rmult_1_r.
  apply sqrt_square; assumption.
Qed.

(** Reading the polar angle back from the vector returns the angle that was
    written, for a positive radius and an angle between the poles. *)
Lemma phi_setFromSpherical sph :
  0 < radius sph -> 0 <= phi sph <= PI ->
  phi (setFromVector3 (setFromSpherical sph)) = phi sph.
Proof.
  intros Hr Hp.
  assert (L : length (setFromSpherical sph) = radius sph)
    by (apply length_setFromSpherical; lra).
  unfold setFromVector3. rewrite L.
  assert (E : eqb (radius sph) 0 = false) by (apply eqb_false; lra).
  rewrite E; simpl.
  replace (cos (phi sph) * radius sph / radius sph) with (cos (phi sph))
    by (field; lra).
  pose proof (COS_bound (phi sph)) as [C1 C2].
  unfold clamp, max2, min2.
  rewrite Rmin_right by assumption. rewrite Rmax_right by assumption.
  apply acos_cos; assumption.
Qed.

Lemma rotateCamera_position dx dy s :
  position (cam (rotateCamera dx dy s))
  = setFromSpherical (rotatedSpherical (position (cam s)) dx dy).
Proof. reflexivity. Qed.

(** One orbit step keeps the distance of the camera from the origin. *)
Lemma rotateCamera_length dx dy s :
  length (position (cam (rotateCamera dx dy s))) = length (position (cam s)).
Proof.
  rewrite rotateCamera_position, length_setFromSpherical;
    rewrite rotatedSpherical_radius; [ reflexivity | apply length_nonneg ].
Qed.

(** After one orbit step of a camera that is not at the origin, the polar
    angle of the new position is the clamped angle. *)
Lemma rotateCamera_phi dx dy s :
  position (cam s) <> origin ->
  phi (setFromVector3 (position (cam (rotateCamera dx dy s))))
  = phi (rotatedSpherical (position (cam s)) dx dy).
Proof.
  intros Hp. rewrite rotateCamera_position.
  pose proof (rotatedSpherical_phi (position (cam s)) dx dy) as [P1 P2].
  apply phi_setFromSpherical.
  - rewrite rotatedSpherical_radius.
    pose proof (length_nonneg (position (cam s))) as H0.
    assert (length (position (cam s)) <> 0)
      by (rewrite length_zero_iff; assumption).
    lra.
  - lra.
Qed.

Lemma orbits_length ds : forall s,
  length (position (cam (orbits s ds))) = length (position (cam s)).
Proof.
  induction ds as [ | d ds IH]; intros s; [ reflexivity | ].
  change (orbits s (d :: ds)) with (orbits (orbit s d) ds).
  rewrite IH. apply rotateCamera_length.
Qed.

Lemma orbits_snoc s ds d : orbits s (ds ++ [d]) = orbit (orbits s ds) d.
Proof. unfold orbits. rewrite fold_left_app. reflexivity. Qed.

Lemma not_origin_of_length p q : length p = length q -> q <> origin -> p <> origin.
Proof.
  intros E Hq Hp. apply Hq. apply length_zero_iff. rewrite <- E.
  apply length_zero_iff. exact Hp.
Qed.

(** Away from the origin the orbit works as intended.  Every orbit step
    writes a polar angle in [0.1, pi - 0.1] and keeps the distance of the
    camera from the origin; so after any non-empty sequence of orbit
    steps, with nothing else in between, of a camera that is not at the
    origin, the polar angle of the camera position lies in
    [0.1, pi - 0.1] and the distance is the one the sequence started
    from. *)
Theorem orbit_phi_and_radius_off_origin :
  (forall s dx dy,
      0.1 <= phi (rotatedSpherical (position (cam s)) dx dy) <= PI - 0.1)
  /\ (forall s dx dy,
         length (position (cam (rotateCamera dx dy s)))
         = length (position (cam s)))
  /\ (forall s ds,
         position (cam s) <> origin -> ds <> [] ->
         0.1 <= phi (setFromVector3 (position (cam (orbits s ds)))) <= PI - 0.1
         /\ radius (setFromVector3 (position (cam (orbits s ds))))
            = radius (setFromVector3 (position (cam s)))).
Proof.
  split; [ intros; apply rotatedSpherical_phi | ].
  split; [ intros; apply rotateCamera_length | ].
  intros s ds Hs Hds. split.
  - destruct (exists_last Hds) as (ds' & d & ->).
    rewrite orbits_snoc. unfold orbit.
    rewrite rotateCamera_phi.
    + apply rotatedSpherical_phi.
    + apply (not_origin_of_length _ (position (cam s))); [ | exact Hs ].
      apply orbits_length.
  - rewrite !setFromVector3_radius. apply orbits_length.
Qed.

Lemma orbit_phi_and_radius_off_origin_witness :
  position (cam init) <> origin
  /\ [(30, -400); (-12, 25)] <> []
  /\ 0.1 <= phi (setFromVector3
                   (position (cam (orbits init [(30, -400); (-12, 25)]))))
     <= PI - 0.1.
Proof.
  assert (H1 : position (cam init) <> origin).
  { rewrite init_cam; simpl. unfold origin. intros E.
    apply (f_equal vz) in E; simpl in E. lra. }
  assert (H2 : [(30, -400); (-12, 25)] <> ([] : list (R * R))) by discriminate.
  split; [ exact H1 | ]. split; [ exact H2 | ].
  exact (proj1 (proj2 (proj2 orbit_phi_and_radius_off_origin) init _ H1 H2)).
Defined.

(** *** Orbit of a camera on the origin *)







(** *** Two-finger gestures *)

Lemma pinchDistance_horizontal a b y :
  a <= b -> pinchDistanceOf (touch a y) (touch b y) = b - a.
Proof.
  intros H. unfold pinchDistanceOf, pow2; simpl.
  replace ((b - a) * (b - a) + (y - y) * (y - y)) with ((b - a) * (b - a)) by ring.
  apply sqrt_square; lra.
Qed.

Lemma centerOf_horizontal a b y :
  centerOf (touch a y) (touch b y) = ((a + b) / 2, y).
Proof. unfold centerOf; simpl. f_equal. field. Qed.

(** The zoom gate: open exactly when the pinch distance changed by more
    than 50. *)
Lemma pinchZoom_none pinchDistance last :
  Rabs (pinchDistance - last) <= 50 -> pinchZoom pinchDistance last = None.
Proof.
  intros H. unfold pinchZoom.
  assert (E : gtb (abs ((pinchDistance - last) * 0.01)) 0.5 = false).
  { apply gtb_false. unfold abs. rewrite Rabs_mult.
    rewrite (Rabs_right 0.01) by lra. lra. }
  rewrite E. reflexivity.
Qed.

Lemma pinchZoom_some pinchDistance last :
  50 < Rabs (pinchDistance - last) ->
  pinchZoom pinchDistance last = Some ((pinchDistance - last) * 0.01).
Proof.
  intros H. unfold pinchZoom.
  assert (E : gtb (abs ((pinchDistance - last) * 0.01)) 0.5 = true).
  { apply gtb_true. unfold abs. rewrite Rabs_mult.
    rewrite (Rabs_right 0.01) by lra. lra. }
  rewrite E. reflexivity.
Qed.

(** The rotate gate. *)
Lemma twoFingerRotate_some currentCenter lastCenter pinchDistance last :
  let dx := fst currentCenter - fst lastCenter in
  let dy := snd currentCenter - snd lastCenter in
  5 < sqrt (dx * dx + dy * dy) ->
  Rabs (pinchDistance - last) * 0.5 < sqrt (dx * dx + dy * dy) ->
  twoFingerRotate currentCenter lastCenter pinchDistance last = Some (dx, dy).
Proof.
  intros dx dy H1 H2. unfold twoFingerRotate. fold dx dy.
  apply gtb_true in H1. apply gtb_true in H2. unfold abs.
  rewrite H1, H2. reflexivity.
Qed.

Lemma twoFingerRotate_none currentCenter lastCenter pinchDistance last :
  let dx := fst currentCenter - fst lastCenter in
  let dy := snd currentCenter - snd lastCenter in
  sqrt (dx * dx + dy * dy) <= 5
  \/ sqrt (dx * dx + dy * dy) <= Rabs (pinchDistance - last) * 0.5 ->
  twoFingerRotate currentCenter lastCenter pinchDistance last = None.
Proof.
  intros dx dy H. unfold twoFingerRotate. fold dx dy. unfold abs.
  destruct H as [H | H]; apply gtb_false in H; rewrite H.
  - reflexivity.
  - rewrite andb_false_r. reflexivity.
Qed.

(** What a two-finger frame does to the camera, given a baseline. *)
Lemma onTouchMove_two_cam s touch1 touch2 last lastCenter :
  baseline (controls s) = Some (last, lastCenter) ->
  cam (onTouchMove [touch1; touch2] s)
  = cam (let s1 := match pinchZoom (pinchDistanceOf touch1 touch2) last with
                   | Some distanceDelta => zoomCamera distanceDelta s
                   | None => s
                   end in
         match twoFingerRotate (centerOf touch1 touch2) lastCenter
                               (pinchDistanceOf touch1 touch2) last with
         | Some (dx, dy) => rotateCamera dx dy s1
         | None => s1
         end).
Proof. intros H. unfold onTouchMove. rewrite H. reflexivity. Qed.

Lemma onTouchMove_two_baseline s touch1 touch2 :
  lastPinchDistance (controls (onTouchMove [touch1; touch2] s))
  = Some (pinchDistanceOf touch1 touch2)
  /\ lastTwoFingerCenter (controls (onTouchMove [touch1; touch2] s))
     = Some (centerOf touch1 touch2).
Proof. unfold onTouchMove; simpl. split; reflexivity. Qed.

Lemma onTouchStart_two_baseline s touch1 touch2 r :
  lastPinchDistance (controls (onTouchStart [touch1; touch2] r s))
  = Some (pinchDistanceOf touch1 touch2)
  /\ lastTwoFingerCenter (controls (onTouchStart [touch1; touch2] r s))
     = Some (centerOf touch1 touch2)
  /\ cam (onTouchStart [touch1; touch2] r s) = cam s.
Proof. repeat split; reflexivity. Qed.

Lemma baseline_after_start s touch1 touch2 r :
  pinchDistanceOf touch1 touch2 <> 0 ->
  baseline (controls (onTouchStart [touch1; touch2] r s))
  = Some (pinchDistanceOf touch1 touch2, centerOf touch1 touch2).
Proof.
  intros H. unfold baseline, onTouchStart; simpl.
  apply eqb_false in H. rewrite H. reflexivity.
Qed.

Lemma sqrt_zero_sum : sqrt (0 * 0 + 0 * 0) = 0.
Proof. replace (0 * 0 + 0 * 0) with 0 by ring. apply sqrt_0. Qed.

(** C4 (as the code has it). With a stored baseline, a frame whose pinch
    distance equals the stored one and whose midpoint has moved by 20
    applies a rotate with the midpoint delta and no zoom.  A frame whose
    midpoint is the stored one and whose pinch distance has changed by 10
    applies nothing: the scaled change 0.1 does not exceed 0.5.  With the
    midpoint unchanged a zoom alone is applied once the pinch distance has
    changed by more than 50. *)
Theorem C4_two_finger_gates :
  (forall s touch1 touch2 last lastCenter,
      baseline (controls s) = Some (last, lastCenter) ->
      pinchDistanceOf touch1 touch2 = last ->
      let dx := fst (centerOf touch1 touch2) - fst lastCenter in
      let dy := snd (centerOf touch1 touch2) - snd lastCenter in
      sqrt (dx * dx + dy * dy) = 20 ->
      pinchZoom (pinchDistanceOf touch1 touch2) last = None
      /\ twoFingerRotate (centerOf touch1 touch2) lastCenter
                         (pinchDistanceOf touch1 touch2) last = Some (dx, dy)
      /\ cam (onTouchMove [touch1; touch2] s) = cam (rotateCamera dx dy s))
  /\ (forall s touch1 touch2 last lastCenter,
         baseline (controls s) = Some (last, lastCenter) ->
         centerOf touch1 touch2 = lastCenter ->
         Rabs (pinchDistanceOf touch1 touch2 - last) = 10 ->
         pinchZoom (pinchDistanceOf touch1 touch2) last = None
         /\ twoFingerRotate (centerOf touch1 touch2) lastCenter
                            (pinchDistanceOf touch1 touch2) last = None
         /\ cam (onTouchMove [touch1; touch2] s) = cam s)
  /\ (forall s touch1 touch2 last lastCenter,
         baseline (controls s) = Some (last, lastCenter) ->
         centerOf touch1 touch2 = lastCenter ->
         50 < Rabs (pinchDistanceOf touch1 touch2 - last) ->
         twoFingerRotate (centerOf touch1 touch2) lastCenter
                         (pinchDistanceOf touch1 touch2) last = None
         /\ cam (onTouchMove [touch1; touch2] s)
            = cam (zoomCamera ((pinchDistanceOf touch1 touch2 - last) * 0.01) s)).
Proof.
  split; [ | split ].
  - intros s touch1 touch2 last lastCenter Hb Hp dx dy Hm.
    assert (Z : pinchZoom (pinchDistanceOf touch1 touch2) last = None).
    { apply pinchZoom_none. rewrite Hp.
      replace (last - last) with 0 by ring. rewrite Rabs_R0. lra. }
    assert (R : twoFingerRotate (centerOf touch1 touch2) lastCenter
                                (pinchDistanceOf touch1 touch2) last = Some (dx, dy)).
    { apply twoFingerRotate_some; fold dx dy; rewrite Hm; [ lra | ].
      rewrite Hp. replace (last - last) with 0 by ring. rewrite Rabs_R0. lra. }
    split; [ exact Z | ]. split; [ exact R | ].
    rewrite (onTouchMove_two_cam _ _ _ _ _ Hb). cbv zeta. rewrite Z, R.
    reflexivity.
  - intros s touch1 touch2 last lastCenter Hb Hc Hd.
    assert (Z : pinchZoom (pinchDistanceOf touch1 touch2) last = None)
      by (apply pinchZoom_none; lra).
    assert (R : twoFingerRotate (centerOf touch1 touch2) lastCenter
                                (pinchDistanceOf touch1 touch2) last = None).
    { apply twoFingerRotate_none. left. rewrite Hc.
      replace (fst lastCenter - fst lastCenter) with 0 by ring.
      replace (snd lastCenter - snd lastCenter) with 0 by ring.
      rewrite sqrt_zero_sum. lra. }
    split; [ exact Z | ]. split; [ exact R | ].
    rewrite (onTouchMove_two_cam _ _ _ _ _ Hb). cbv zeta. rewrite Z, R.
    reflexivity.
  - intros s touch1 touch2 last lastCenter Hb Hc Hd.
    assert (R : twoFingerRotate (centerOf touch1 touch2) lastCenter
                                (pinchDistanceOf touch1 touch2) last = None).
    { apply twoFingerRotate_none. left. rewrite Hc.
      replace (fst lastCenter - fst lastCenter) with 0 by ring.
      replace (snd lastCenter - snd lastCenter) with 0 by ring.
      rewrite sqrt_zero_sum. lra. }
    split; [ exact R | ].
    rewrite (onTouchMove_two_cam _ _ _ _ _ Hb). cbv zeta.
    rewrite (pinchZoom_some _ _ Hd), R. reflexivity.
Qed.

Lemma pinch100_baseline : baseline (controls pinch100) = Some (100, (50, 0)).
Proof.
  assert (P0 : pinchDistanceOf (touch 0 0) (touch 100 0) = 100)
    by (rewrite pinchDistance_horizontal by lra; lra).
  assert (C0 : centerOf (touch 0 0) (touch 100 0) = (50, 0))
    by (rewrite centerOf_horizontal; f_equal; lra).
  unfold pinch100. rewrite baseline_after_start; rewrite P0; [ | lra ].
  rewrite C0. reflexivity.
Qed.

Lemma spread100_baseline : baseline (controls spread100) = Some (100, (0, 0)).
Proof.
  assert (P0 : pinchDistanceOf (touch (-50) 0) (touch 50 0) = 100)
    by (rewrite pinchDistance_horizontal by lra; lra).
  assert (C0 : centerOf (touch (-50) 0) (touch 50 0) = (0, 0))
    by (rewrite centerOf_horizontal; f_equal; lra).
  unfold spread100. rewrite baseline_after_start; rewrite P0; [ | lra ].
  rewrite C0. reflexivity.
Qed.

(** The three cases of C4 on concrete frames: two fingers 100 apart moved
    down together by 20; two fingers 100 apart spread to 110; two fingers
    100 apart spread to 160. *)
Lemma C4_two_finger_gates_witness :
  (baseline (controls pinch100) = Some (100, (50, 0))
   /\ pinchDistanceOf (touch 0 20) (touch 100 20) = 100
   /\ cam (onTouchMove [touch 0 20; touch 100 20] pinch100)
      = cam (rotateCamera (fst (centerOf (touch 0 20) (touch 100 20)) - 50)
                          (snd (centerOf (touch 0 20) (touch 100 20)) - 0)
                          pinch100))
  /\ (baseline (controls spread100) = Some (100, (0, 0))
      /\ centerOf (touch (-55) 0) (touch 55 0) = (0, 0)
      /\ Rabs (pinchDistanceOf (touch (-55) 0) (touch 55 0) - 100) = 10
      /\ cam (onTouchMove [touch (-55) 0; touch 55 0] spread100) = cam spread100)
  /\ (centerOf (touch (-80) 0) (touch 80 0) = (0, 0)
      /\ 50 < Rabs (pinchDistanceOf (touch (-80) 0) (touch 80 0) - 100)
      /\ cam (onTouchMove [touch (-80) 0; touch 80 0] spread100)
         = cam (zoomCamera
                  ((pinchDistanceOf (touch (-80) 0) (touch 80 0) - 100) * 0.01)
                  spread100)).
Proof.
  assert (P1 : pinchDistanceOf (touch 0 20) (touch 100 20) = 100)
    by (rewrite pinchDistance_horizontal by lra; lra).
  assert (Hm : sqrt ((fst (centerOf (touch 0 20) (touch 100 20)) - fst (50, 0))
                     * (fst (centerOf (touch 0 20) (touch 100 20)) - fst (50, 0))
                     + (snd (centerOf (touch 0 20) (touch 100 20)) - snd (50, 0))
                       * (snd (centerOf (touch 0 20) (touch 100 20)) - snd (50, 0)))
               = 20).
  { rewrite centerOf_horizontal; simpl.
    replace (((0 + 100) / 2 - 50) * ((0 + 100) / 2 - 50) + (20 - 0) * (20 - 0))
      with (20 * 20) by field.
    apply sqrt_square; lra. }
  assert (C2 : centerOf (touch (-55) 0) (touch 55 0) = (0, 0))
    by (rewrite centerOf_horizontal; f_equal; lra).
  assert (D2 : Rabs (pinchDistanceOf (touch (-55) 0) (touch 55 0) - 100) = 10).
  { rewrite pinchDistance_horizontal by lra.
    replace (55 - -55 - 100) with 10 by ring. apply Rabs_right; lra. }
  assert (C3 : centerOf (touch (-80) 0) (touch 80 0) = (0, 0))
    by (rewrite centerOf_horizontal; f_equal; lra).
  assert (D3 : 50 < Rabs (pinchDistanceOf (touch (-80) 0) (touch 80 0) - 100)).
  { rewrite pinchDistance_horizontal by lra.
    replace (80 - -80 - 100) with 60 by ring. rewrite Rabs_right; lra. }
  destruct C4_two_finger_gates as (G1 & G2 & G3).
  split; [ | split ].
  - split; [ exact pinch100_baseline | ]. split; [ exact P1 | ].
    exact (proj2 (proj2 (G1 pinch100 (touch 0 20) (touch 100 20) 100 (50, 0)
                            pinch100_baseline P1 Hm))).
  - split; [ exact spread100_baseline | ]. split; [ exact C2 | ].
    split; [ exact D2 | ].
    exact (proj2 (proj2 (G2 spread100 (touch (-55) 0) (touch 55 0) 100 (0, 0)
                            spread100_baseline C2 D2))).
  - split; [ exact C3 | ]. split; [ exact D3 | ].
    exact (proj2 (G3 spread100 (touch (-80) 0) (touch 80 0) 100 (0, 0)
                     spread100_baseline C3 D3)).
Defined.

(** Against C4 as stated: two fingers 100 apart spread to 110 apart around
    the same midpoint, and no zoom is applied; the camera is where it
    was. *)
Lemma C4_pinch_by_10_does_not_zoom :
  pinchDistanceOf (touch (-50) 0) (touch 50 0) = 100
  /\ pinchDistanceOf (touch (-55) 0) (touch 55 0) = 110
  /\ centerOf (touch (-55) 0) (touch 55 0) = centerOf (touch (-50) 0) (touch 50 0)
  /\ ~ (exists delta, pinchZoom 110 100 = Some delta)
  /\ cam (onTouchMove [touch (-55) 0; touch 55 0] spread100) = cam spread100.
Proof.
  assert (P0 : pinchDistanceOf (touch (-50) 0) (touch 50 0) = 100).
  { rewrite pinchDistance_horizontal by lra. lra. }
  assert (P1 : pinchDistanceOf (touch (-55) 0) (touch 55 0) = 110).
  { rewrite pinchDistance_horizontal by lra. lra. }
  assert (C : centerOf (touch (-55) 0) (touch 55 0)
              = centerOf (touch (-50) 0) (touch 50 0)).
  { rewrite !centerOf_horizontal. f_equal. lra. }
  assert (Z : pinchZoom 110 100 = None).
  { apply pinchZoom_none. replace (110 - 100) with 10 by ring.
    rewrite Rabs_right; lra. }
  split; [ exact P0 | ]. split; [ exact P1 | ].
  split; [ exact C | ].
  split; [ intros [delta H]; rewrite Z in H; discriminate | ].
  assert (Hb : baseline (controls spread100)
               = Some (pinchDistanceOf (touch (-50) 0) (touch 50 0),
                       centerOf (touch (-50) 0) (touch 50 0))).
  { unfold spread100. apply baseline_after_start. rewrite P0. lra. }
  rewrite (onTouchMove_two_cam _ _ _ _ _ Hb). cbv zeta.
  rewrite P0, P1, Z, C.
  rewrite twoFingerRotate_none; [ reflexivity | ].
  left.
  replace (fst (centerOf (touch (-50) 0) (touch 50 0))
           - fst (centerOf (touch (-50) 0) (touch 50 0))) with 0 by ring.
  replace (snd (centerOf (touch (-50) 0) (touch 50 0))
           - snd (centerOf (touch (-50) 0) (touch 50 0))) with 0 by ring.
  rewrite sqrt_zero_sum. lra.
Qed.

(** The boundary frame: touch1 stays at (0,0), touch2 goes from (100,0) to
    (150,0). *)

Lemma boundary_frame_values :
  pinchDistanceOf (touch 0 0) (touch 100 0) = 100
  /\ centerOf (touch 0 0) (touch 100 0) = (50, 0)
  /\ pinchDistanceOf (touch 0 0) (touch 150 0) = 150
  /\ centerOf (touch 0 0) (touch 150 0) = (75, 0).
Proof.
  rewrite !pinchDistance_horizontal by lra. rewrite !centerOf_horizontal.
  repeat split; try lra; f_equal; lra.
Qed.

Lemma boundary_frame_gates :
  pinchZoom 150 100 = None /\ twoFingerRotate (75, 0) (50, 0) 150 100 = None.
Proof.
  split.
  - apply pinchZoom_none. replace (150 - 100) with 50 by ring.
    rewrite Rabs_right; lra.
  - apply twoFingerRotate_none. right; simpl.
    replace ((75 - 50) * (75 - 50) + (0 - 0) * (0 - 0)) with (25 * 25) by ring.
    rewrite sqrt_square by lra.
    replace (150 - 100) with 50 by ring. rewrite Rabs_right; lra.
Qed.

(** C5 (as the code has it). In the frame touch1 = (0,0) to (0,0),
    touch2 = (100,0) to (150,0) the pinch distance goes from 100 to 150 and
    the midpoint from (50,0) to (75,0).  The scaled distance change is
    exactly 0.5, which is not above the threshold 0.5, so no zoom is
    applied; the midpoint movement 25 is not above 50 * 0.5 = 25, so no
    rotate is applied either.  The camera is left as it was and the frame
    becomes the new baseline. *)
Theorem C5_boundary_frame_applies_nothing :
  forall (s : State) (checkedRadio : option string),
    let s1 := onTouchStart [touch 0 0; touch 100 0] checkedRadio s in
    let s2 := onTouchMove [touch 0 0; touch 150 0] s1 in
    lastPinchDistance (controls s1) = Some 100
    /\ lastTwoFingerCenter (controls s1) = Some (50, 0)
    /\ (150 - 100) * 0.01 = 0.5
    /\ pinchZoom 150 100 = None
    /\ sqrt ((75 - 50) * (75 - 50) + (0 - 0) * (0 - 0)) = 25
    /\ Rabs (150 - 100) * 0.5 = 25
    /\ twoFingerRotate (75, 0) (50, 0) 150 100 = None
    /\ cam s2 = cam s
    /\ lastPinchDistance (controls s2) = Some 150
    /\ lastTwoFingerCenter (controls s2) = Some (75, 0).
Proof.
  intros s checkedRadio s1 s2.
  destruct boundary_frame_values as (P0 & C0 & P1 & C1).
  destruct boundary_frame_gates as (Z & R).
  assert (Hb : baseline (controls s1) = Some (100, (50, 0))).
  { unfold s1. rewrite baseline_after_start; rewrite P0; [ | lra ].
    rewrite C0. reflexivity. }
  split; [ unfold s1; simpl; rewrite P0; reflexivity | ].
  split; [ unfold s1; simpl; rewrite C0; reflexivity | ].
  split; [ lra | ].
  split; [ exact Z | ].
  split.
  { replace ((75 - 50) * (75 - 50) + (0 - 0) * (0 - 0)) with (25 * 25) by ring.
    apply sqrt_square; lra. }
  split.
  { replace (150 - 100) with 50 by ring. rewrite Rabs_right; lra. }
  split; [ exact R | ].
  split.
  { unfold s2. rewrite (onTouchMove_two_cam _ _ _ _ _ Hb). cbv zeta.
    rewrite P1, C1, Z, R. reflexivity. }
  unfold s2.
  destruct (onTouchMove_two_baseline s1 (touch 0 0) (touch 150 0)) as [L1 L2].
  rewrite L1, L2, P1, C1. split; reflexivity.
Qed.

(** Against C5 as stated: in the boundary frame no zoom delta is emitted,
    and the camera does not move. *)
Lemma C5_boundary_frame_no_zoom :
  ~ (exists delta,
        pinchZoom (pinchDistanceOf (touch 0 0) (touch 150 0))
                  (pinchDistanceOf (touch 0 0) (touch 100 0)) = Some delta)
  /\ cam (onTouchMove [touch 0 0; touch 150 0] pinch100) = cam pinch100.
Proof.
  destruct boundary_frame_values as (P0 & C0 & P1 & C1).
  destruct boundary_frame_gates as (Z & R).
  split.
  - rewrite P0, P1, Z. intros [delta H]. discriminate.
  - assert (Hb : baseline (controls pinch100) = Some (100, (50, 0))).
    { unfold pinch100. rewrite baseline_after_start; rewrite P0; [ | lra ].
      rewrite C0. reflexivity. }
    rewrite (onTouchMove_two_cam _ _ _ _ _ Hb). cbv zeta.
    rewrite P1, C1, Z, R. reflexivity.
Qed.

(** *** The stored baseline *)

Lemma panCamera_controls dx dy s : controls (panCamera dx dy s) = controls s.
Proof. reflexivity. Qed.

Lemma rotateCamera_controls dx dy s : controls (rotateCamera dx dy s) = controls s.
Proof. reflexivity. Qed.

Lemma zoomCamera_controls delta s : controls (zoomCamera delta s) = controls s.
Proof. reflexivity. Qed.

Lemma onTouchMove_one_baseline s t :
  lastPinchDistance (controls (onTouchMove [t] s)) = lastPinchDistance (controls s)
  /\ lastTwoFingerCenter (controls (onTouchMove [t] s))
     = lastTwoFingerCenter (controls s).
Proof.
  unfold onTouchMove. destruct (isMouseDown (controls s)); [ | split; reflexivity ].
  destruct (String.eqb (modeOrPan (mobileMode (controls s))) "pan");
    [ split; reflexivity | ].
  destruct (String.eqb (modeOrPan (mobileMode (controls s))) "rotate");
    [ split; reflexivity | ].
  destruct (String.eqb (modeOrPan (mobileMode (controls s))) "zoom");
    split; reflexivity.
Qed.

(** C9 (as the code has it). [onTouchEnd] discards the stored pinch
    distance and midpoint only when no touch remains; while at least one
    touch remains, and during the single-finger start and moves that may
    follow, both are kept.  The start of a two-finger gesture overwrites
    both with values computed from its own two touches, so the first move
    of that gesture is measured against a baseline captured at its start. *)
Theorem C9_baseline_lifecycle :
  (forall s,
      lastPinchDistance (controls (onTouchEnd [] s)) = None
      /\ lastTwoFingerCenter (controls (onTouchEnd [] s)) = None)
  /\ (forall s t ts,
         lastPinchDistance (controls (onTouchEnd (t :: ts) s))
         = lastPinchDistance (controls s)
         /\ lastTwoFingerCenter (controls (onTouchEnd (t :: ts) s))
            = lastTwoFingerCenter (controls s))
  /\ (forall s t r,
         lastPinchDistance (controls (onTouchStart [t] r s))
         = lastPinchDistance (controls s)
         /\ lastTwoFingerCenter (controls (onTouchStart [t] r s))
            = lastTwoFingerCenter (controls s))
  /\ (forall s t,
         lastPinchDistance (controls (onTouchMove [t] s))
         = lastPinchDistance (controls s)
         /\ lastTwoFingerCenter (controls (onTouchMove [t] s))
            = lastTwoFingerCenter (controls s))
  /\ (forall s touch1 touch2 r,
         lastPinchDistance (controls (onTouchStart [touch1; touch2] r s))
         = Some (pinchDistanceOf touch1 touch2)
         /\ lastTwoFingerCenter (controls (onTouchStart [touch1; touch2] r s))
            = Some (centerOf touch1 touch2)).
Proof.
  split; [ intros; split; reflexivity | ].
  split; [ intros; split; reflexivity | ].
  split; [ intros; split; reflexivity | ].
  split; [ intros; apply onTouchMove_one_baseline | ].
  intros; split; reflexivity.
Qed.

(** Against C9 as stated: lifting one of two fingers keeps the stored pinch
    distance and midpoint. *)
Lemma C9_one_finger_lifted_keeps_baseline :
  lastPinchDistance (controls (onTouchEnd [touch 0 0] pinch100))
  = Some (pinchDistanceOf (touch 0 0) (touch 100 0))
  /\ lastPinchDistance (controls (onTouchEnd [touch 0 0] pinch100)) <> None
  /\ lastTwoFingerCenter (controls (onTouchEnd [touch 0 0] pinch100)) <> None.
Proof. repeat split; simpl; discriminate. Qed.

(** *** Saved view *)

Lemma handle_savedView s e : savedView (handle s e) = savedView s.
Proof.
  destruct e as [b x y | x y | | d | ts r | ts | ts | | box]; simpl;
    try reflexivity.
  - unfold onMouseMove. destruct (negb (isMouseDown (controls s)));
      [ reflexivity | ].
    destruct (Nat.eqb (mouseButton (controls s)) 0); [ reflexivity | ].
    destruct (Nat.eqb (mouseButton (controls s)) 2); reflexivity.
  - unfold onTouchStart. destruct ts as [ | t1 [ | t2 [ | t3 ts]]]; reflexivity.
  - unfold onTouchMove. destruct ts as [ | t1 [ | t2 [ | t3 ts]]];
      try reflexivity.
    + destruct (isMouseDown (controls s)); [ | reflexivity ].
      destruct (String.eqb (modeOrPan (mobileMode (controls s))) "pan");
        [ reflexivity | ].
      destruct (String.eqb (modeOrPan (mobileMode (controls s))) "rotate");
        [ reflexivity | ].
      destruct (String.eqb (modeOrPan (mobileMode (controls s))) "zoom");
        reflexivity.
    + destruct (baseline (controls s)) as [[last lastCenter] | ];
        [ | reflexivity ].
      destruct (pinchZoom (pinchDistanceOf t1 t2) last);
        destruct (twoFingerRotate (centerOf t1 t2) lastCenter
                                  (pinchDistanceOf t1 t2) last) as [[dx dy] | ];
        reflexivity.
  - unfold onTouchEnd. destruct ts; reflexivity.
Qed.

Lemma run_savedView es : forall s, savedView (run s es) = savedView s.
Proof.
  induction es as [ | e es IH]; intros s; [ reflexivity | ].
  change (run s (e :: es)) with (run (handle s e) es).
  rewrite IH. apply handle_savedView.
Qed.

Lemma resetView_restores s v :
  savedView s = Some v ->
  position (cam (resetView s)) = viewPosition v
  /\ rotation (cam (resetView s)) = viewRotation v
  /\ zoom (cam (resetView s)) = viewZoom v.
Proof. intros H. unfold resetView. rewrite H. repeat split; reflexivity. Qed.

(** After [saveCurrentView] and any events, framings included, [resetView]
    gives the camera the position, rotation and zoom it had at the save. *)
Lemma reset_after_save s0 es :
  position (cam (resetView (run (saveCurrentView s0) es))) = position (cam s0)
  /\ rotation (cam (resetView (run (saveCurrentView s0) es))) = rotation (cam s0)
  /\ zoom (cam (resetView (run (saveCurrentView s0) es))) = zoom (cam s0).
Proof.
  apply (resetView_restores _ (view (position (cam s0)) (rotation (cam s0))
                                    (zoom (cam s0)))).
  rewrite run_savedView. reflexivity.
Qed.

(** The only save of the scene is the one of [init]: whatever happens
    afterwards, [resetView] returns to the pose of [init]. *)
Lemma reset_after_init es :
  position (cam (resetView (run init es))) = vec3 0 0 5
  /\ rotation (cam (resetView (run init es))) = identity
  /\ zoom (cam (resetView (run init es))) = 1.
Proof.
  apply (resetView_restores _ (view (vec3 0 0 5) identity 1)).
  rewrite run_savedView. apply init_savedView.
Qed.

(** C10. With no saved view, [resetView] returns the scene as it is:
    camera position, rotation and zoom, and everything else, unchanged. *)
Theorem C10_resetView_without_saved_view :
  forall s, savedView s = None -> resetView s = s.
Proof. intros s H. unfold resetView. rewrite H. reflexivity. Qed.

Lemma C10_resetView_without_saved_view_witness :
  savedView unsaved = None /\ resetView unsaved = unsaved.
Proof.
  split; [ reflexivity | ].
  apply C10_resetView_without_saved_view. reflexivity.
Defined.

(** *** Framing *)

Lemma fitCameraZ_range box f :
  minDistance <= fitCameraZ box f <= maxDistance.
Proof.
  unfold fitCameraZ, max2, min2, minDistance, maxDistance. split.
  - apply Rmax_l.
  - apply Rmax_lub; [ lra | apply Rmin_l ].
Qed.

Lemma fitModelToView_position box s :
  position (cam (fitModelToView box s))
  = vec3 (vx (getCenter box)) (vy (getCenter box))
         (vz (getCenter box) + fitCameraZ box (fov (cam s))).
Proof. reflexivity. Qed.

(** [fitModelToView] puts the camera at the clamped distance from the
    centre of the box. *)
Lemma fitModelToView_distance box s :
  length (sub (position (cam (fitModelToView box s))) (getCenter box))
  = fitCameraZ box (fov (cam s)).
Proof.
  rewrite fitModelToView_position. unfold sub; simpl.
  pose proof (fitCameraZ_range box (fov (cam s))) as [H _].
  unfold minDistance in H.
  replace (vx (getCenter box) - vx (getCenter box)) with 0 by ring.
  replace (vy (getCenter box) - vy (getCenter box)) with 0 by ring.
  replace (vz (getCenter box) + fitCameraZ box (fov (cam s)) - vz (getCenter box))
    with (fitCameraZ box (fov (cam s))) by ring.
  apply length_z. lra.
Qed.

Lemma fitModelToView_centered box s :
  getCenter box = origin ->
  length (position (cam (fitModelToView box s))) = fitCameraZ box (fov (cam s)).
Proof.
  intros H. rewrite <- (fitModelToView_distance box s). f_equal.
  rewrite H. destruct (position (cam (fitModelToView box s))) as [a b c].
  unfold sub, origin; simpl. apply vec3_eq; ring.
Qed.

Lemma cube100_fitCameraZ : fitCameraZ cube100 75 = 10.
Proof.
  pose proof cot_half75_bounds as [Hlo Hhi].
  assert (Ht : 0 < tan (75 * (PI / 180) / 2)).
  { pose proof half75_range as [? ?]. apply tan_gt_0; assumption. }
  unfold fitCameraZ. rewrite cube100_size; simpl.
  unfold max3. rewrite (Rmax_left 100 100) by lra.
  rewrite (Rmax_left 100 100) by lra.
  replace (100 / 2 / tan (75 * (PI / 180) / 2))
    with (50 * (1 / tan (75 * (PI / 180) / 2))) by (field; lra).
  unfold abs. rewrite Rabs_right by lra.
  unfold max2, min2, minDistance, maxDistance.
  rewrite Rmin_left by lra. apply Rmax_right; lra.
Qed.

End Scene3DProps.

(** ** Framing and reset across the two variants *)

Module FramingProps.

Import Js Three JsFacts ThreeFacts.

(** C6 (as the code has it). In [Scene3D] the distance [fitModelToView]
    chooses, which is the distance of the camera from the centre of the box,
    always lies in the range [1, 10] of the clamp of [zoomCamera]; when the
    box is centred on the origin this is also the distance that clamp
    measures.  In the single-file viewer the final distance of
    [autoFitModel] is the distance of the camera from the origin, it is at
    least 5 and so above [minZoom] = 0.1, and it is not clamped from above:
    it stays within [maxZoom] exactly when twice the distance before the
    margin does. *)
Theorem C6_framed_distance_against_zoom_range :
  (forall box f,
      Scene3D.minDistance <= Scene3D.fitCameraZ box f <= Scene3D.maxDistance)
  /\ (forall box s,
         length (sub (position (Scene3D.cam (Scene3D.fitModelToView box s)))
                     (getCenter box))
         = Scene3D.fitCameraZ box (fov (Scene3D.cam s)))
  /\ (forall box s,
         getCenter box = origin ->
         Scene3D.minDistance
         <= length (position (Scene3D.cam (Scene3D.fitModelToView box s)))
         <= Scene3D.maxDistance)
  /\ (forall measured remeasured c m,
         let k := Viewer.initializeControls in
         let s' := Viewer.autoFitModel measured remeasured
                     (Viewer.state c (Some m) k) in
         let box := Viewer.fitBox measured remeasured in
         length (position (Viewer.cam s')) = Viewer.fitFinalDistance box (fov c)
         /\ 5 <= length (position (Viewer.cam s'))
         /\ Viewer.minZoom k <= length (position (Viewer.cam s'))
         /\ (Viewer.fitDistance box (fov c) * 2 <= Viewer.maxZoom k ->
             length (position (Viewer.cam s')) <= Viewer.maxZoom k)
         /\ (Viewer.maxZoom k < Viewer.fitDistance box (fov c) * 2 ->
             Viewer.maxZoom k < length (position (Viewer.cam s')))).
Proof.
  split; [ apply Scene3DProps.fitCameraZ_range | ].
  split; [ apply Scene3DProps.fitModelToView_distance | ].
  split.
  { intros box s H. rewrite Scene3DProps.fitModelToView_centered by assumption.
    apply Scene3DProps.fitCameraZ_range. }
  intros measured remeasured c m k s' box.
  assert (L : length (position (Viewer.cam s')) = Viewer.fitFinalDistance box (fov c))
    by apply ViewerProps.autoFitModel_distance.
  pose proof (ViewerProps.fitFinalDistance_ge_5 box (fov c)) as G5.
  pose proof (ViewerProps.fitFinalDistance_ge_margin box (fov c)) as GM.
  rewrite L. simpl.
  split; [ reflexivity | ]. split; [ exact G5 | ]. split; [ lra | ].
  split.
  - intros H. unfold Viewer.fitFinalDistance, max2. apply Rmax_lub; lra.
  - intros H. lra.
Qed.

(** A cube of side 100 centred on the origin framed by [Scene3D]; the cube
    of side 2 and the cube of side 100 framed by the single-file viewer. *)
Lemma C6_framed_distance_against_zoom_range_witness :
  (getCenter cube100 = origin
   /\ Scene3D.minDistance
      <= length (position (Scene3D.cam (Scene3D.fitModelToView cube100 Scene3D.init)))
      <= Scene3D.maxDistance)
  /\ (Viewer.fitDistance (Viewer.fitBox cube2 cube2) 75 * 2 <= 50
      /\ length (position (Viewer.cam (Viewer.autoFitModel cube2 cube2 Viewer.loaded)))
         <= 50)
  /\ (50 < Viewer.fitDistance (Viewer.fitBox cube100 cube100) 75 * 2
      /\ 50 < length (position (Viewer.cam
                                  (Viewer.autoFitModel cube100 cube100 Viewer.loaded)))).
Proof.
  destruct C6_framed_distance_against_zoom_range as (_ & _ & G3 & G4).
  assert (B2 : Viewer.fitBox cube2 cube2 = cube2)
    by (unfold Viewer.fitBox; rewrite cube2_not_empty; reflexivity).
  assert (B100 : Viewer.fitBox cube100 cube100 = cube100)
    by (unfold Viewer.fitBox; rewrite cube100_not_empty; reflexivity).
  assert (D2 : Viewer.fitDistance (Viewer.fitBox cube2 cube2) 75 * 2 <= 50).
  { rewrite B2, ViewerProps.cube2_distance.
    pose proof cot_half75_bounds as [_ H]. lra. }
  assert (D100 : 50 < Viewer.fitDistance (Viewer.fitBox cube100 cube100) 75 * 2).
  { rewrite B100. pose proof ViewerProps.cube100_distance as [H _]. lra. }
  split; [ | split ].
  - split; [ apply cube100_center | ].
    exact (G3 cube100 Scene3D.init cube100_center).
  - split; [ exact D2 | ].
    exact (proj1 (proj2 (proj2 (proj2
             (G4 cube2 cube2 Viewer.camera75 Viewer.sampleModel)))) D2).
  - split; [ exact D100 | ].
    exact (proj2 (proj2 (proj2 (proj2
             (G4 cube100 cube100 Viewer.camera75 Viewer.sampleModel)))) D100).
Defined.

(** Against C6 as stated: the single-file viewer frames a cube of side 100
    with its fov of 75 degrees at a distance above 130, beyond [maxZoom] =
    50. *)
Lemma C6_large_model_framed_beyond_maxZoom :
  ~ (Viewer.minZoom Viewer.initializeControls
     <= length (position (Viewer.cam (Viewer.autoFitModel cube100 cube100 Viewer.loaded)))
     <= Viewer.maxZoom Viewer.initializeControls).
Proof.
  unfold Viewer.loaded. rewrite ViewerProps.autoFitModel_distance.
  assert (B : Viewer.fitBox cube100 cube100 = cube100).
  { unfold Viewer.fitBox. rewrite cube100_not_empty. reflexivity. }
  rewrite B. simpl.
  pose proof ViewerProps.cube100_finalDistance as [H _].
  lra.
Qed.

(** C7 (as the code has it). In [Scene3D], [resetView] after any events
    gives the camera the position, rotation and zoom that the last
    [saveCurrentView] recorded; the scene saves once, in [init], and
    [fitModelToView] does not save, so the pose restored is the one of
    [init].  In the single-file viewer, [resetView] after any mouse events
    puts the camera at the position the last [autoFitModel] recorded, with
    the orientation it had there. *)
Theorem C7_reset_restores_recorded_view :
  (forall s0 es,
      let s' := Scene3D.resetView (Scene3D.run (Scene3D.saveCurrentView s0) es) in
      position (Scene3D.cam s') = position (Scene3D.cam s0)
      /\ rotation (Scene3D.cam s') = rotation (Scene3D.cam s0)
      /\ zoom (Scene3D.cam s') = zoom (Scene3D.cam s0))
  /\ (forall es,
         let s' := Scene3D.resetView (Scene3D.run Scene3D.init es) in
         position (Scene3D.cam s') = position (Scene3D.cam Scene3D.init)
         /\ rotation (Scene3D.cam s') = rotation (Scene3D.cam Scene3D.init)
         /\ zoom (Scene3D.cam s') = zoom (Scene3D.cam Scene3D.init))
  /\ (forall measured remeasured c m k es,
         let s1 := Viewer.autoFitModel measured remeasured
                     (Viewer.state c (Some m) k) in
         let s' := Viewer.resetView (Viewer.run s1 es) in
         position (Viewer.cam s') = position (Viewer.cam s1)
         /\ rotation (Viewer.cam s') = rotation (Viewer.cam s1)
         /\ position (Viewer.cam s1)
            = vec3 0 0 (Viewer.fitFinalDistance
                          (Viewer.fitBox measured remeasured) (fov c))).
Proof.
  split; [ intros; apply Scene3DProps.reset_after_save | ].
  split.
  { intros es s'. rewrite Scene3DProps.init_cam; simpl.
    apply Scene3DProps.reset_after_init. }
  intros measured remeasured c m k es s1 s'.
  destruct (ViewerProps.reset_after_autoFit measured remeasured c m k es) as [P R].
  split; [ exact P | ]. split; [ exact R | ].
  unfold s1. rewrite ViewerProps.autoFitModel_camera. reflexivity.
Qed.

(** Against C7 as stated: [Scene3D] frames a cube of side 100, the camera
    goes to (0, 0, 10); after a wheel event [resetView] puts it at
    (0, 0, 5), the pose of [init], not the pose of the framing. *)
Lemma C7_reset_ignores_last_framing :
  position (Scene3D.cam (Scene3D.run Scene3D.init [Scene3D.FitModel cube100]))
  = vec3 0 0 (0 + 10)
  /\ position (Scene3D.cam (Scene3D.resetView
                 (Scene3D.run Scene3D.init
                    [Scene3D.FitModel cube100; Scene3D.Wheel 100])))
     = vec3 0 0 5
  /\ position (Scene3D.cam (Scene3D.resetView
                 (Scene3D.run Scene3D.init
                    [Scene3D.FitModel cube100; Scene3D.Wheel 100])))
     <> position (Scene3D.cam (Scene3D.run Scene3D.init [Scene3D.FitModel cube100])).
Proof.
  assert (F : position (Scene3D.cam (Scene3D.run Scene3D.init [Scene3D.FitModel cube100]))
              = vec3 0 0 (0 + 10)).
  { change (Scene3D.run Scene3D.init [Scene3D.FitModel cube100])
      with (Scene3D.fitModelToView cube100 Scene3D.init).
    rewrite Scene3DProps.fitModelToView_position, Scene3DProps.init_cam.
    simpl. rewrite cube100_center, Scene3DProps.cube100_fitCameraZ. reflexivity. }
  destruct (Scene3DProps.reset_after_init
              [Scene3D.FitModel cube100; Scene3D.Wheel 100]) as [P _].
  split; [ exact F | ]. split; [ exact P | ].
  rewrite P, F. intros E. apply (f_equal vz) in E. simpl in E. lra.
Qed.

End FramingProps.

(** Equality of records of reals, field by field. *)
Ltac record_eq := first [ reflexivity | ring | (f_equal; record_eq) ].

(** ** Further properties of the single-file viewer *)

Module ViewerMore.

Import Js Three JsFacts ThreeFacts Viewer Gestures.

(** *** Framing distances *)

Lemma half_fov_range f :
  0 < f < 180 -> 0 < f * (PI / 180) / 2 < PI / 2.
Proof. intros [H0 H1]. pose proof PI_RGT_0. split; nra. Qed.

(** For a field of view strictly between 0 and 180 degrees, the distance
    before the margin is at least 1 and far enough for the largest
    dimension of the box to fit the field of view; the final distance is at
    least 5 and at least twice the distance before the margin. *)
Theorem autoFit_distance_fits_view :
  forall (b : Box3) (f : number),
    0 < f < 180 ->
    1 <= fitDistance b f
    /\ fitMaxDimension b / 2 <= fitDistance b f * tan (f * (PI / 180) / 2)
    /\ 5 <= fitFinalDistance b f
    /\ fitDistance b f * 2 <= fitFinalDistance b f
    /\ fitDistance b f <= fitFinalDistance b f.
Proof.
  intros b f Hf.
  pose proof (half_fov_range f Hf) as [A0 A1].
  assert (Ht : 0 < tan (f * (PI / 180) / 2)) by (apply tan_gt_0; assumption).
  assert (D1 : 1 <= fitDistance b f) by (unfold fitDistance, max2; apply Rmax_r).
  assert (DM : fitMaxDimension b / (2 * tan (f * (PI / 180) / 2)) <= fitDistance b f)
    by (unfold fitDistance, max2; apply Rmax_l).
  assert (F5 : 5 <= fitFinalDistance b f)
    by (unfold fitFinalDistance, max2; apply Rmax_r).
  assert (F2 : fitDistance b f * 2 <= fitFinalDistance b f)
    by (unfold fitFinalDistance, max2; apply Rmax_l).
  split; [ exact D1 | ].
  split.
  { apply (Rmult_le_compat_r (tan (f * (PI / 180) / 2))) in DM; [ | lra ].
    replace (fitMaxDimension b / (2 * tan (f * (PI / 180) / 2))
             * tan (f * (PI / 180) / 2))
      with (fitMaxDimension b / 2) in DM by (field; lra).
    exact DM. }
  split; [ exact F5 | ]. split; [ exact F2 | ]. lra.
Qed.

Lemma autoFit_distance_fits_view_witness :
  0 < 75 < 180
  /\ fitMaxDimension cube100 / 2
     <= fitDistance cube100 75 * tan (75 * (PI / 180) / 2).
Proof.
  assert (H : 0 < 75 < 180) by lra.
  split; [ exact H | ].
  exact (proj1 (proj2 (autoFit_distance_fits_view cube100 75 H))).
Defined.

(** A box with a larger largest dimension is never framed closer. *)
Theorem autoFit_distance_monotone :
  forall (b1 b2 : Box3) (f : number),
    0 < f < 180 ->
    fitMaxDimension b1 <= fitMaxDimension b2 ->
    fitDistance b1 f <= fitDistance b2 f
    /\ fitFinalDistance b1 f <= fitFinalDistance b2 f.
Proof.
  intros b1 b2 f Hf Hm.
  pose proof (half_fov_range f Hf) as [A0 A1].
  assert (Ht : 0 < tan (f * (PI / 180) / 2)) by (apply tan_gt_0; assumption).
  assert (D : fitDistance b1 f <= fitDistance b2 f).
  { unfold fitDistance, max2. apply Rle_max_compat_r.
    unfold Rdiv. apply Rmult_le_compat_r; [ | exact Hm ].
    apply Rlt_le, Rinv_0_lt_compat. lra. }
  split; [ exact D | ].
  unfold fitFinalDistance, max2. apply Rle_max_compat_r. lra.
Qed.

Lemma autoFit_distance_monotone_witness :
  0 < 75 < 180
  /\ fitMaxDimension cube2 <= fitMaxDimension cube100
  /\ fitFinalDistance cube2 75 <= fitFinalDistance cube100 75.
Proof.
  assert (H : 0 < 75 < 180) by lra.
  assert (M2 : fitMaxDimension cube2 = 2) by apply ViewerProps.cube2_maxDimension.
  assert (M100 : 2 <= fitMaxDimension cube100).
  { unfold fitMaxDimension, fitSize. rewrite cube100_size; simpl.
    assert (E : eqb 100 0 = false) by (apply eqb_false; lra).
    rewrite E; simpl. unfold max3.
    rewrite (Rmax_left 100 100) by lra. rewrite Rmax_left; lra. }
  assert (M : fitMaxDimension cube2 <= fitMaxDimension cube100)
    by (rewrite M2; exact M100).
  split; [ exact H | ]. split; [ exact M | ].
  exact (proj2 (autoFit_distance_monotone cube2 cube100 75 H M)).
Defined.

(** Whatever the box and the previous pose, [autoFitModel] leaves the
    camera on the positive z axis with the identity orientation, records
    that position for the reset, moves the object by minus the centre of
    its box and keeps its rotation, the zoom factor and the field of
    view. *)
Theorem autoFitModel_pose :
  forall (measured remeasured : Box3) (c : Camera) (m : Model) (k : Controls),
    let box := fitBox measured remeasured in
    let s' := autoFitModel measured remeasured (state c (Some m) k) in
    position (cam s') = vec3 0 0 (fitFinalDistance box (fov c))
    /\ rotation (cam s') = identity
    /\ snd (getWorldDirection (cam s')) = vec3 0 0 (-1)
    /\ zoom (cam s') = zoom c /\ fov (cam s') = fov c
    /\ initialCameraPosition (ctl s') = position (cam s')
    /\ currentModel s'
       = Some (model (sub (mposition m) (getCenter box)) (mrotation m)).
Proof.
  intros measured remeasured c m k box s'.
  assert (C := ViewerProps.autoFitModel_camera measured remeasured c m k).
  fold s' box in C.
  split; [ rewrite C; reflexivity | ].
  split; [ rewrite C; reflexivity | ].
  split.
  { rewrite C. unfold getWorldDirection, updateWorldMatrix; simpl.
    apply normalize_minus_z. }
  split; [ rewrite C; reflexivity | ].
  split; [ rewrite C; reflexivity | ].
  split; reflexivity.
Qed.

(** *** Dragging *)

(** Two consecutive mouse moves have the effect of the second one alone:
    what a drag does to the camera or to the object depends on where the
    pointer ends, not on the path. *)
Lemma handleMouseMove_twice xa ya x1 y1 s :
  handleMouseMove x1 y1 (handleMouseMove xa ya s) = handleMouseMove x1 y1 s.
Proof.
  destruct s as [c m k]. destruct k as [rot pan prev rs ps zs mn mx ini].
  destruct prev as [x0 y0].
  destruct c as [[px py pz] r z f mt].
  destruct rot, pan, m as [[mp [rx ry rz]] | ];
    unfold handleMouseMove, setPosition; simpl; record_eq.
Qed.

Lemma viewerDrag_last :
  forall (points : list (number * number)) (x1 y1 : number) (s : State),
    run s (viewerDrag (points ++ [(x1, y1)])) = handleMouseMove x1 y1 s.
Proof.
  induction points as [ | [xa ya] points IH]; intros x1 y1 s.
  - reflexivity.
  - change (run s (viewerDrag (((xa, ya) :: points) ++ [(x1, y1)])))
      with (run (handleMouseMove xa ya s) (viewerDrag (points ++ [(x1, y1)]))).
    rewrite IH. apply handleMouseMove_twice.
Qed.

(** A left-button drag moves the camera by the pointer displacement scaled
    by [panSpeed], to the left and upwards inverted, and touches nothing
    else but the stored pointer position. *)
Theorem pan_drag_result :
  forall (points : list (number * number)) (x1 y1 : number) (s : State),
    isPanning (ctl s) = true ->
    isRotating (ctl s) = false ->
    let s' := run s (viewerDrag (points ++ [(x1, y1)])) in
    position (cam s')
    = vec3 (vx (position (cam s)) - (x1 - fst (previousMouse (ctl s))) * panSpeed (ctl s))
           (vy (position (cam s)) + (y1 - snd (previousMouse (ctl s))) * panSpeed (ctl s))
           (vz (position (cam s)))
    /\ rotation (cam s') = rotation (cam s)
    /\ currentModel s' = currentModel s
    /\ previousMouse (ctl s') = (x1, y1).
Proof.
  intros points x1 y1 s Hp Hr s'. unfold s'.
  rewrite viewerDrag_last. unfold handleMouseMove.
  rewrite Hp, Hr; simpl. repeat split; reflexivity.
Qed.

Lemma pan_drag_result_witness :
  isPanning (ctl panning) = true
  /\ isRotating (ctl panning) = false
  /\ position (cam (run panning (viewerDrag ([(15, 40); (0, 0)] ++ [(110, 120)]))))
     = vec3 (vx (position (cam panning)) - (110 - 10) * 0.003)
            (vy (position (cam panning)) + (120 - 20) * 0.003)
            (vz (position (cam panning))).
Proof.
  split; [ reflexivity | ]. split; [ reflexivity | ].
  exact (proj1 (pan_drag_result [(15, 40); (0, 0)] 110 120 panning
                  eq_refl eq_refl)).
Defined.

(** A right-button drag with an object loaded turns the object by the
    pointer displacement scaled by [rotationSpeed] and leaves the camera
    alone, also when the left button is held as well. *)
Theorem rotate_drag_result :
  forall (points : list (number * number)) (x1 y1 : number) (s : State) (m : Model),
    isRotating (ctl s) = true ->
    currentModel s = Some m ->
    let s' := run s (viewerDrag (points ++ [(x1, y1)])) in
    cam s' = cam s
    /\ currentModel s'
       = Some (model (mposition m)
                 (euler (ex (mrotation m)
                         + (y1 - snd (previousMouse (ctl s))) * rotationSpeed (ctl s))
                        (ey (mrotation m)
                         + (x1 - fst (previousMouse (ctl s))) * rotationSpeed (ctl s))
                        (ez (mrotation m)))).
Proof.
  intros points x1 y1 s m Hr Hm s'. unfold s'.
  rewrite viewerDrag_last. unfold handleMouseMove.
  rewrite Hr, Hm, andb_false_r; simpl. split; reflexivity.
Qed.

Lemma rotate_drag_result_witness :
  isRotating (ctl (handleMouseDown 2 0 0 panning)) = true
  /\ currentModel (handleMouseDown 2 0 0 panning) = Some sampleModel
  /\ cam (run (handleMouseDown 2 0 0 panning) (viewerDrag ([] ++ [(30, 40)])))
     = cam (handleMouseDown 2 0 0 panning).
Proof.
  split; [ reflexivity | ]. split; [ reflexivity | ].
  exact (proj1 (rotate_drag_result [] 30 40 (handleMouseDown 2 0 0 panning)
                  sampleModel eq_refl eq_refl)).
Defined.

(** *** Reset and wheel *)

Lemma handle_model_position s e :
  option_map mposition (currentModel (handle s e))
  = option_map mposition (currentModel s).
Proof.
  destruct e as [b x y | x y | | d]; simpl; try reflexivity.
  unfold handleMouseMove.
  destruct (negb (isPanning (ctl s)) && negb (isRotating (ctl s)));
    [ reflexivity | ].
  destruct (isRotating (ctl s)), (currentModel s), (isPanning (ctl s));
    reflexivity.
Qed.

Lemma run_model_position es : forall s,
  option_map mposition (currentModel (run s es))
  = option_map mposition (currentModel s).
Proof.
  induction es as [ | e es IH]; intros s; [ reflexivity | ].
  change (run s (e :: es)) with (run (handle s e) es).
  rewrite IH. apply handle_model_position.
Qed.

(** After any mouse events, [resetView] leaves the object where it is and
    sets its rotation to zero; resetting twice is the same as resetting
    once. *)
Theorem resetView_object_and_idempotence :
  forall (s : State) (es : list Event),
    let s' := resetView (run s es) in
    option_map mposition (currentModel s') = option_map mposition (currentModel s)
    /\ option_map mrotation (currentModel s')
       = option_map (fun _ => euler 0 0 0) (currentModel s)
    /\ resetView s' = s'.
Proof.
  intros s es s'.
  assert (P := run_model_position es s).
  split; [ | split ].
  - rewrite <- P. unfold s', resetView; simpl.
    destruct (currentModel (run s es)); reflexivity.
  - unfold s', resetView; simpl.
    destruct (currentModel (run s es)), (currentModel s);
      try reflexivity; discriminate.
  - unfold s', resetView; simpl.
    destruct (currentModel (run s es)); reflexivity.
Qed.

Lemma handleMouseWheel_position deltaY s :
  position (cam (handleMouseWheel deltaY s))
  = clampDistance (wheelTarget deltaY s) (minZoom (ctl s)) (maxZoom (ctl s)).
Proof. reflexivity. Qed.

(** A wheel event whose target is not the origin leaves the camera at a
    distance within [minZoom, maxZoom], for any limits with
    0 <= minZoom <= maxZoom; it never changes the orientation of the camera
    or the object. *)
Theorem wheel_keeps_distance_in_range :
  forall (deltaY : number) (s : State),
    0 <= minZoom (ctl s) <= maxZoom (ctl s) ->
    wheelTarget deltaY s <> origin ->
    minZoom (ctl s) <= length (position (cam (handleMouseWheel deltaY s)))
                    <= maxZoom (ctl s)
    /\ rotation (cam (handleMouseWheel deltaY s)) = rotation (cam s)
    /\ currentModel (handleMouseWheel deltaY s) = currentModel s.
Proof.
  intros deltaY s [H0 H1] Ht.
  split; [ | split; reflexivity ].
  rewrite handleMouseWheel_position. unfold clampDistance.
  destruct (ltb (length (wheelTarget deltaY s)) (minZoom (ctl s))) eqn:E1.
  - rewrite length_multiplyScalar, length_normalize by assumption. lra.
  - apply ltb_false in E1.
    destruct (gtb (length (wheelTarget deltaY s)) (maxZoom (ctl s))) eqn:E2.
    + rewrite length_multiplyScalar, length_normalize by (assumption || lra). lra.
    + apply gtb_false in E2. lra.
Qed.

Lemma wheel_keeps_distance_in_range_witness :
  0 <= minZoom (ctl loaded) <= maxZoom (ctl loaded)
  /\ wheelTarget 120 loaded <> origin
  /\ minZoom (ctl loaded) <= length (position (cam (handleMouseWheel 120 loaded)))
                          <= maxZoom (ctl loaded).
Proof.
  assert (H : 0 <= minZoom (ctl loaded) <= maxZoom (ctl loaded))
    by (simpl; lra).
  assert (T : wheelTarget 120 loaded <> origin).
  { unfold wheelTarget; simpl.
    change (vec3 (- 0) (- 0) (- (1))) with (negate (vec3 0 0 1)).
    rewrite normalize_minus_z.
    assert (E : gtb 120 0 = true) by (apply gtb_true; lra).
    rewrite E. unfold add, multiplyScalar, origin; simpl.
    intros K. apply (f_equal vz) in K; simpl in K. lra. }
  split; [ exact H | ]. split; [ exact T | ].
  exact (proj1 (wheel_keeps_distance_in_range 120 loaded H T)).
Defined.

(** Only the sign of [deltaY] matters to the wheel handler, and a
    [deltaY] of zero counts as negative. *)
Theorem wheel_uses_sign_only :
  forall (deltaY : number) (s : State),
    (0 < deltaY -> handleMouseWheel deltaY s = handleMouseWheel 1 s)
    /\ (deltaY <= 0 -> handleMouseWheel deltaY s = handleMouseWheel (-1) s).
Proof.
  intros deltaY s. split; intros H; unfold handleMouseWheel.
  - assert (E : gtb deltaY 0 = true) by (apply gtb_true; exact H).
    assert (E1 : gtb 1 0 = true) by (apply gtb_true; lra).
    rewrite E, E1. reflexivity.
  - assert (E : gtb deltaY 0 = false) by (apply gtb_false; exact H).
    assert (E1 : gtb (-1) 0 = false) by (apply gtb_false; lra).
    rewrite E, E1. reflexivity.
Qed.

Lemma wheel_uses_sign_only_witness :
  0 <= 0 /\ handleMouseWheel 0 loaded = handleMouseWheel (-1) loaded.
Proof.
  assert (H : 0 <= 0) by lra.
  split; [ exact H | ].
  exact (proj2 (wheel_uses_sign_only 0 loaded) H).
Defined.

End ViewerMore.

(** ** Further properties of [Scene3D] *)

Module Scene3DMore.

Import Js Three JsFacts ThreeFacts Scene3D Gestures.

(** *** Framing *)

Lemma fitModelToView_identity box s :
  rotation (cam (fitModelToView box s)) = identity.
Proof.
  pose proof (Scene3DProps.fitCameraZ_range box (fov (cam s))) as [Z1 _].
  unfold minDistance in Z1.
  unfold fitModelToView, lookAt, updateWorldMatrix, setRotation,
    setPosition, setCam; simpl.
  destruct (getCenter box) as [cx cy cz]; simpl.
  apply lookAtBasis_along_z. lra.
Qed.

Lemma fitModelToView_in_front box s :
  position (cam (fitModelToView box s))
  = add (getCenter box) (vec3 0 0 (fitCameraZ box (fov (cam s)))).
Proof.
  rewrite Scene3DProps.fitModelToView_position.
  unfold add; simpl. apply vec3_eq; ring.
Qed.

(** Whatever the box and the previous pose, [fitModelToView] puts the
    camera at the clamped distance in front of the centre of the box, on
    the line parallel to the z axis, with the identity orientation, looking
    along -z at the centre; zoom factor and field of view are kept. *)
Theorem fitModelToView_pose :
  forall (box : Box3) (s : State),
    let c' := cam (fitModelToView box s) in
    position c' = add (getCenter box) (vec3 0 0 (fitCameraZ box (fov (cam s))))
    /\ rotation c' = identity
    /\ snd (getWorldDirection c') = vec3 0 0 (-1)
    /\ add (position c')
           (multiplyScalar (snd (getWorldDirection c')) (fitCameraZ box (fov (cam s))))
       = getCenter box
    /\ zoom c' = zoom (cam s) /\ fov c' = fov (cam s).
Proof.
  intros box s c'.
  assert (R : rotation c' = identity) by apply fitModelToView_identity.
  assert (D : snd (getWorldDirection c') = vec3 0 0 (-1)).
  { change (snd (getWorldDirection c'))
      with (normalize (negate (zAxis (rotation c')))).
    rewrite R. apply normalize_minus_z. }
  assert (P : position c'
              = add (getCenter box) (vec3 0 0 (fitCameraZ box (fov (cam s))))).
  { apply fitModelToView_in_front. }
  split; [ exact P | ]. split; [ exact R | ]. split; [ exact D | ].
  split; [ | split; reflexivity ].
  rewrite D, P. destruct (getCenter box) as [cx cy cz].
  unfold add, multiplyScalar; simpl. apply vec3_eq; ring.
Qed.

(** *** Pan *)

Lemma panCamera_panCamera dx1 dy1 dx2 dy2 s :
  panCamera dx2 dy2 (panCamera dx1 dy1 s) = panCamera (dx1 + dx2) (dy1 + dy2) s.
Proof.
  destruct s as [[[px py pz] r z f [[ax ay az] [bx b_y bz] cz]] k v].
  unfold panCamera, setCam, setPosition, matrixColumn0, matrixColumn1,
    add, multiplyScalar; simpl.
  record_eq.
Qed.

Lemma onMouseMove_pan_twice xa ya x1 y1 s :
  mouseButton (controls s) = 0%nat ->
  onMouseMove x1 y1 (onMouseMove xa ya s) = onMouseMove x1 y1 s.
Proof.
  intros Hb.
  destruct s as [[[px py pz] r z f [[ax ay az] [bx b_y bz] cz]] k v].
  destruct k as [down button [x0 y0] mode lp lc]. simpl in Hb. subst button.
  destruct down; unfold onMouseMove; simpl; [ | reflexivity ].
  unfold panCamera, setCam, setControls, setLastPosition, setPosition,
    matrixColumn0, matrixColumn1, add, multiplyScalar; simpl.
  record_eq.
Qed.

Lemma onMouseMove_button x y s :
  mouseButton (controls (onMouseMove x y s)) = mouseButton (controls s).
Proof.
  unfold onMouseMove. destruct (negb (isMouseDown (controls s))); [ reflexivity | ].
  destruct (Nat.eqb (mouseButton (controls s)) 0); [ reflexivity | ].
  destruct (Nat.eqb (mouseButton (controls s)) 2); reflexivity.
Qed.

(** A left-button drag pans the camera along the right and up columns of
    its cached matrix by the pointer displacement scaled by the pan
    sensitivity 0.002; the result depends on where the pointer ends, not
    on the path, and the orientation and zoom are kept. *)
Theorem scene_pan_drag_result :
  forall (points : list (number * number)) (x1 y1 : number) (s : State),
    isMouseDown (controls s) = true ->
    mouseButton (controls s) = 0%nat ->
    let s' := run s (sceneDrag (points ++ [(x1, y1)])) in
    let dx := x1 - fst (lastPosition (controls s)) in
    let dy := y1 - snd (lastPosition (controls s)) in
    s' = onMouseMove x1 y1 s
    /\ position (cam s')
       = add (position (cam s))
             (add (multiplyScalar (xAxis (matrix (cam s))) (- dx * 0.002))
                  (multiplyScalar (yAxis (matrix (cam s))) (dy * 0.002)))
    /\ rotation (cam s') = rotation (cam s)
    /\ zoom (cam s') = zoom (cam s)
    /\ lastPosition (controls s') = (x1, y1).
Proof.
  intros points x1 y1 s Hd Hb s' dx dy.
  assert (E : s' = onMouseMove x1 y1 s).
  { unfold s'. clear s' dx dy Hd. revert s Hb.
    induction points as [ | [xa ya] points IH]; intros s Hb; [ reflexivity | ].
    change (run s (sceneDrag (((xa, ya) :: points) ++ [(x1, y1)])))
      with (run (onMouseMove xa ya s) (sceneDrag (points ++ [(x1, y1)]))).
    rewrite IH by (rewrite onMouseMove_button; exact Hb).
    apply onMouseMove_pan_twice. exact Hb. }
  split; [ exact E | ].
  rewrite E. unfold onMouseMove. rewrite Hd, Hb; simpl.
  repeat split; reflexivity.
Qed.

Lemma scene_pan_drag_result_witness :
  isMouseDown (controls scenePanning) = true
  /\ mouseButton (controls scenePanning) = 0%nat
  /\ run scenePanning (sceneDrag ([(0, 0); (300, 5)] ++ [(110, 120)]))
     = onMouseMove 110 120 scenePanning.
Proof.
  split; [ reflexivity | ]. split; [ reflexivity | ].
  exact (proj1 (scene_pan_drag_result [(0, 0); (300, 5)] 110 120 scenePanning
                  eq_refl eq_refl)).
Defined.

(** *** Zoom sequences *)

Lemma zoomCamera_rotation delta s :
  rotation (cam (zoomCamera delta s)) = rotation (cam s).
Proof. reflexivity. Qed.

(** Two zoom steps from the pose of [init], neither aimed at the origin. *)
Lemma zooms_in_range_witness :
  [1; 2] <> []
  /\ avoidsOrigin init [1; 2]
  /\ minDistance <= length (position (cam (zooms init [1; 2]))) <= maxDistance.
Proof.
  assert (N : [1; 2] <> ([] : list R)) by discriminate.
  assert (D : normalize (negate (zAxis (rotation (cam init)))) = vec3 0 0 (-1)).
  { rewrite Scene3DProps.init_cam; simpl. apply normalize_minus_z. }
  assert (T1 : zoomTarget 1 init = vec3 0 0 4).
  { unfold zoomTarget. rewrite D, Scene3DProps.init_cam; simpl.
    unfold add, multiplyScalar; simpl. apply vec3_eq; ring. }
  assert (N1 : zoomTarget 1 init <> origin).
  { rewrite T1. intros K. apply (f_equal vz) in K; simpl in K. lra. }
  assert (L1 : length (zoomTarget 1 init) = 4)
    by (rewrite T1; apply length_z; lra).
  assert (P1 : position (cam (zoomCamera 1 init)) = vec3 0 0 4).
  { rewrite <- T1.
    apply (proj2 (proj2 (proj2 (Scene3DProps.zoomCamera_clamps 1 init N1)))).
    rewrite L1. unfold minDistance, maxDistance. lra. }
  assert (N2 : zoomTarget 2 (zoomCamera 1 init) <> origin).
  { unfold zoomTarget. rewrite zoomCamera_rotation, D, P1.
    unfold add, multiplyScalar, origin; simpl.
    intros K. apply (f_equal vz) in K; simpl in K. lra. }
  assert (A : avoidsOrigin init [1; 2]).
  { simpl. split; [ exact N1 | ]. split; [ exact N2 | exact I ]. }
  split; [ exact N | ]. split; [ exact A | ].
  exact (Scene3DProps.zooms_in_range [1; 2] init N A).
Defined.

(** *** Orbit and view direction *)

Lemma sub_zero v : sub v (vec3 0 0 0) = v.
Proof. destruct v as [a b c]. unfold sub; simpl. apply vec3_eq; ring. Qed.

Lemma length_negate v : length (negate v) = length v.
Proof.
  unfold length, lengthSq, negate; simpl. f_equal. ring.
Qed.

Lemma normalize_unit v : length v = 1 -> normalize v = v.
Proof.
  intros H. unfold normalize, divideScalar. rewrite H, or_else_nonzero by lra.
  destruct v as [a b c]. unfold multiplyScalar; simpl. apply vec3_eq; field.
Qed.

Lemma length_multiplyScalar_abs v k :
  length (multiplyScalar v k) = length v * Rabs k.
Proof.
  unfold length, lengthSq, multiplyScalar; simpl.
  replace (vx v * k * (vx v * k) + vy v * k * (vy v * k) + vz v * k * (vz v * k))
    with ((vx v * vx v + vy v * vy v + vz v * vz v) * (k * k)) by ring.
  rewrite sqrt_mult_alt by (fold (lengthSq v); apply lengthSq_nonneg).
  f_equal. replace (k * k) with (Rsqr k) by reflexivity. apply sqrt_Rsqr_abs.
Qed.

(** [Matrix4.lookAt] from an eye that is neither at the target nor straight
    above or below it: the z column is the unit vector from the target to
    the eye. *)
Lemma lookAtBasis_zAxis eye target :
  eye <> target ->
  vx (sub eye target) <> 0 \/ vz (sub eye target) <> 0 ->
  zAxis (lookAtBasis eye target) = normalize (sub eye target).
Proof.
  intros Hne Hxz. set (d := sub eye target) in *.
  assert (Hd : d <> origin).
  { intros K. apply Hne. destruct eye as [a b c], target as [a' b' c'].
    unfold d, sub, origin in K; simpl in K. inversion K.
    apply vec3_eq; lra. }
  assert (Hl : length d <> 0) by (rewrite length_zero_iff; exact Hd).
  pose proof (length_nonneg d) as Hp.
  assert (E1 : eqb (lengthSq d) 0 = false).
  { apply eqb_false. rewrite <- length_sq. nra. }
  unfold lookAtBasis. fold d. rewrite E1.
  assert (E2 : eqb (lengthSq (crossVectors up (normalize d))) 0 = false).
  { apply eqb_false.
    unfold normalize, divideScalar. rewrite or_else_nonzero by exact Hl.
    unfold lengthSq, crossVectors, up, multiplyScalar; simpl.
    assert (Hi : 0 < 1 / length d) by (apply Rdiv_lt_0_compat; lra).
    set (u := vx d * (1 / length d)).
    set (y := vy d * (1 / length d)).
    set (w := vz d * (1 / length d)).
    intros K.
    assert (K2 : u * u + w * w = 0).
    { etransitivity; [ | exact K ]. unfold u, w, d, sub; simpl. ring. }
    pose proof (Rle_0_sqr u) as Su. pose proof (Rle_0_sqr w) as Sw.
    unfold Rsqr in Su, Sw.
    assert (Kx : u = 0).
    { assert (Q : u * u = 0) by lra.
      destruct (Rmult_integral _ _ Q); assumption. }
    assert (Kz : w = 0).
    { assert (Q : w * w = 0) by lra.
      destruct (Rmult_integral _ _ Q); assumption. }
    destruct Hxz as [H | H]; apply H.
    - apply (Rmult_eq_reg_r (1 / length d)); [ fold u; lra | lra ].
    - apply (Rmult_eq_reg_r (1 / length d)); [ fold w; lra | lra ]. }
  rewrite E2. reflexivity.
Qed.

Lemma setFromSpherical_off_axis sph :
  0 < radius sph -> 0 < sin (phi sph) ->
  vx (setFromSpherical sph) <> 0 \/ vz (setFromSpherical sph) <> 0.
Proof.
  intros Hr Hs. unfold setFromSpherical; simpl.
  pose proof (Scene3DProps.sin_cos_square (theta sph)) as H.
  destruct (Req_dec (sin (theta sph)) 0) as [E | E].
  - right. rewrite E in H.
    assert (cos (theta sph) <> 0) by nra.
    apply Rmult_integral_contrapositive_currified; [ | assumption ].
    apply Rmult_integral_contrapositive_currified; lra.
  - left. apply Rmult_integral_contrapositive_currified; [ | assumption ].
    apply Rmult_integral_contrapositive_currified; lra.
Qed.

Lemma rotateCamera_direction dx dy s :
  position (cam s) <> origin ->
  position (cam (rotateCamera dx dy s)) <> origin
  /\ snd (getWorldDirection (cam (rotateCamera dx dy s)))
     = negate (normalize (position (cam (rotateCamera dx dy s)))).
Proof.
  intros Hs. set (c' := cam (rotateCamera dx dy s)).
  set (sph := rotatedSpherical (position (cam s)) dx dy).
  assert (Hr : 0 < radius sph).
  { unfold sph. rewrite Scene3DProps.rotatedSpherical_radius.
    pose proof (length_nonneg (position (cam s))).
    assert (length (position (cam s)) <> 0) by (rewrite length_zero_iff; exact Hs).
    lra. }
  pose proof (Scene3DProps.rotatedSpherical_phi (position (cam s)) dx dy) as [F1 F2].
  fold sph in F1, F2.
  assert (Hsin : 0 < sin (phi sph)) by (apply sin_gt_0; lra).
  assert (P : position c' = setFromSpherical sph) by reflexivity.
  assert (L : length (position c') = radius sph).
  { rewrite P. apply Scene3DProps.length_setFromSpherical. lra. }
  assert (N0 : position c' <> origin).
  { intros K. apply length_zero_iff in K. lra. }
  assert (Z : zAxis (rotation c') = normalize (position c')).
  { change (rotation c') with (lookAtBasis (position c') (vec3 0 0 0)).
    rewrite lookAtBasis_zAxis.
    - rewrite sub_zero. reflexivity.
    - exact N0.
    - rewrite sub_zero, P. apply setFromSpherical_off_axis; assumption. }
  split; [ exact N0 | ].
  change (snd (getWorldDirection c'))
    with (normalize (negate (zAxis (rotation c')))).
  rewrite Z. apply normalize_unit.
  rewrite length_negate. apply length_normalize. exact N0.
Qed.

(** After an orbit step of a camera that is not at the origin the camera
    looks at the origin: its view direction is the unit vector from its
    position towards the origin, and the origin lies straight ahead at the
    camera's distance. *)
Theorem rotateCamera_looks_at_origin :
  forall (dx dy : number) (s : State),
    position (cam s) <> origin ->
    let c' := cam (rotateCamera dx dy s) in
    snd (getWorldDirection c') = negate (normalize (position c'))
    /\ length (snd (getWorldDirection c')) = 1
    /\ add (position c')
           (multiplyScalar (snd (getWorldDirection c')) (length (position c')))
       = origin.
Proof.
  intros dx dy s Hs c'.
  destruct (rotateCamera_direction dx dy s Hs) as [N0 D]. fold c' in N0, D.
  assert (L : length (position c') <> 0) by (rewrite length_zero_iff; exact N0).
  split; [ exact D | ].
  split.
  { rewrite D, length_negate. apply length_normalize. exact N0. }
  rewrite D. unfold normalize, divideScalar.
  rewrite or_else_nonzero by exact L.
  destruct (position c') as [a b c] eqn:Epos.
  unfold add, multiplyScalar, negate, origin; simpl.
  apply vec3_eq; field; exact L.
Qed.

Lemma rotateCamera_looks_at_origin_witness :
  position (cam init) <> origin
  /\ length (snd (getWorldDirection (cam (rotateCamera 40 (-25) init)))) = 1.
Proof.
  assert (H : position (cam init) <> origin).
  { rewrite Scene3DProps.init_cam; simpl. unfold origin. intros E.
    apply (f_equal vz) in E; simpl in E. lra. }
  split; [ exact H | ].
  exact (proj1 (proj2 (rotateCamera_looks_at_origin 40 (-25) init H))).
Defined.

(** A zoom step right after an orbit step moves the camera along the line
    through the origin: from distance r a delta other than r brings the
    camera to the distance |r - delta| clamped to [1, 10]. *)
Theorem zoom_after_orbit_distance :
  forall (dx dy delta : number) (s : State),
    position (cam s) <> origin ->
    delta <> length (position (cam s)) ->
    let r := length (position (cam s)) in
    let s1 := rotateCamera dx dy s in
    zoomTarget delta s1 = multiplyScalar (position (cam s1)) (1 - delta / r)
    /\ length (position (cam (zoomCamera delta s1)))
       = max2 minDistance (min2 maxDistance (Rabs (r - delta))).
Proof.
  intros dx dy delta s Hs Hd r s1.
  destruct (rotateCamera_direction dx dy s Hs) as [_ D].
  fold s1 in D.
  assert (Lr : length (position (cam s1)) = r) by apply Scene3DProps.rotateCamera_length.
  assert (Hr : 0 < r).
  { pose proof (length_nonneg (position (cam s))).
    assert (length (position (cam s)) <> 0) by (rewrite length_zero_iff; exact Hs).
    unfold r. lra. }
  assert (T : zoomTarget delta s1
              = multiplyScalar (position (cam s1)) (1 - delta / r)).
  { unfold zoomTarget.
    change (normalize (negate (zAxis (rotation (cam s1)))))
      with (snd (getWorldDirection (cam s1))).
    rewrite D. unfold normalize, divideScalar.
    rewrite Lr, or_else_nonzero by lra.
    destruct (position (cam s1)) as [a b c].
    unfold add, multiplyScalar, negate; simpl. apply vec3_eq; field; lra. }
  assert (LT : length (zoomTarget delta s1) = Rabs (r - delta)).
  { rewrite T, length_multiplyScalar_abs, Lr.
    rewrite <- (Rabs_right r) at 1 by lra. rewrite <- Rabs_mult.
    f_equal. field. lra. }
  assert (NT : zoomTarget delta s1 <> origin).
  { intros K. apply length_zero_iff in K. rewrite LT in K.
    apply Hd. fold r. unfold Rabs in K.
    destruct (Rcase_abs (r - delta)); lra. }
  split; [ exact T | ].
  destruct (Scene3DProps.zoomCamera_clamps delta s1 NT) as (_ & C1 & C2 & C3).
  rewrite LT in C1, C2, C3.
  unfold max2, min2, minDistance, maxDistance in *.
  destruct (Rlt_dec (Rabs (r - delta)) 1) as [H1 | H1].
  - rewrite (C1 H1), Rmin_right by lra. rewrite Rmax_left; lra.
  - destruct (Rlt_dec 10 (Rabs (r - delta))) as [H2 | H2].
    + rewrite (C2 H2), Rmin_left by lra. rewrite Rmax_right; lra.
    + rewrite C3 by lra. rewrite LT, Rmin_right by lra. rewrite Rmax_right; lra.
Qed.

Lemma zoom_after_orbit_distance_witness :
  position (cam init) <> origin
  /\ 2 <> length (position (cam init))
  /\ length (position (cam (zoomCamera 2 (rotateCamera 40 (-25) init))))
     = max2 minDistance
            (min2 maxDistance (Rabs (length (position (cam init)) - 2))).
Proof.
  assert (H : position (cam init) <> origin).
  { rewrite Scene3DProps.init_cam; simpl. unfold origin. intros E.
    apply (f_equal vz) in E; simpl in E. lra. }
  assert (L : 2 <> length (position (cam init))).
  { rewrite Scene3DProps.init_cam; simpl. rewrite length_z by lra. lra. }
  split; [ exact H | ]. split; [ exact L | ].
  exact (proj2 (zoom_after_orbit_distance 40 (-25) 2 init H L)).
Defined.

(** *** Touch *)

(** A two-finger frame that finds no usable baseline, because nothing is
    stored or because the stored pinch distance is zero, moves nothing and
    becomes the baseline.  This is what happens to the first frame after
    two fingers were put down on the same point, and to a two-finger frame
    that follows the release of all fingers without a new two-finger
    start. *)
Theorem two_finger_frame_without_baseline :
  (forall s touch1 touch2,
      baseline (controls s) = None ->
      cam (onTouchMove [touch1; touch2] s) = cam s
      /\ lastPinchDistance (controls (onTouchMove [touch1; touch2] s))
         = Some (pinchDistanceOf touch1 touch2)
      /\ lastTwoFingerCenter (controls (onTouchMove [touch1; touch2] s))
         = Some (centerOf touch1 touch2))
  /\ (forall s t r touch1 touch2,
         cam (onTouchMove [touch1; touch2] (onTouchStart [t; t] r s)) = cam s)
  /\ (forall s touch1 touch2,
         cam (onTouchMove [touch1; touch2] (onTouchEnd [] s)) = cam s).
Proof.
  assert (G : forall s touch1 touch2,
             baseline (controls s) = None ->
             cam (onTouchMove [touch1; touch2] s) = cam s).
  { intros s touch1 touch2 H. unfold onTouchMove. rewrite H. reflexivity. }
  split; [ | split ].
  - intros s touch1 touch2 H. split; [ apply G; exact H | ].
    apply Scene3DProps.onTouchMove_two_baseline.
  - intros s t r touch1 touch2. rewrite G; [ reflexivity | ].
    unfold baseline, onTouchStart; simpl.
    assert (Z : pinchDistanceOf t t = 0).
    { unfold pinchDistanceOf, pow2.
      replace ((clientX t - clientX t) * (clientX t - clientX t)
               + (clientY t - clientY t) * (clientY t - clientY t))
        with 0 by ring.
      apply sqrt_0. }
    rewrite Z. assert (E : eqb 0 0 = true) by (apply eqb_true; reflexivity).
    rewrite E. reflexivity.
  - intros s touch1 touch2. rewrite G; reflexivity.
Qed.

Lemma two_finger_frame_without_baseline_witness :
  baseline (controls init) = None
  /\ cam (onTouchMove [touch 0 0; touch 300 0] init) = cam init.
Proof.
  split; [ reflexivity | ].
  exact (proj1 (proj1 two_finger_frame_without_baseline init (touch 0 0)
                  (touch 300 0) eq_refl)).
Defined.

(** When the pinch distance has changed by more than 50 and the midpoint
    has moved by more than 5 and by more than half that change, one frame
    applies both: first the zoom, then the rotate. *)
Theorem two_finger_zoom_then_rotate :
  forall s touch1 touch2 last lastCenter,
    baseline (controls s) = Some (last, lastCenter) ->
    let pinch := pinchDistanceOf touch1 touch2 in
    let dx := fst (centerOf touch1 touch2) - fst lastCenter in
    let dy := snd (centerOf touch1 touch2) - snd lastCenter in
    50 < Rabs (pinch - last) ->
    5 < sqrt (dx * dx + dy * dy) ->
    Rabs (pinch - last) * 0.5 < sqrt (dx * dx + dy * dy) ->
    cam (onTouchMove [touch1; touch2] s)
    = cam (rotateCamera dx dy (zoomCamera ((pinch - last) * 0.01) s)).
Proof.
  intros s touch1 touch2 last lastCenter Hb pinch dx dy Hz H5 Hh.
  rewrite (Scene3DProps.onTouchMove_two_cam _ _ _ _ _ Hb). cbv zeta.
  fold pinch. rewrite (Scene3DProps.pinchZoom_some _ _ Hz).
  rewrite (Scene3DProps.twoFingerRotate_some _ _ _ _ H5 Hh).
  reflexivity.
Qed.

(** Two fingers 100 apart around (50, 0) go to 160 apart around (180, 0). *)
Lemma two_finger_zoom_then_rotate_witness :
  baseline (controls pinch100) = Some (100, (50, 0))
  /\ 50 < Rabs (pinchDistanceOf (touch 100 0) (touch 260 0) - 100)
  /\ cam (onTouchMove [touch 100 0; touch 260 0] pinch100)
     = cam (rotateCamera
              (fst (centerOf (touch 100 0) (touch 260 0)) - 50)
              (snd (centerOf (touch 100 0) (touch 260 0)) - 0)
              (zoomCamera ((pinchDistanceOf (touch 100 0) (touch 260 0) - 100) * 0.01)
                          pinch100)).
Proof.
  assert (P : pinchDistanceOf (touch 100 0) (touch 260 0) = 160)
    by (rewrite Scene3DProps.pinchDistance_horizontal by lra; lra).
  assert (Hz : 50 < Rabs (pinchDistanceOf (touch 100 0) (touch 260 0) - 100)).
  { rewrite P. replace (160 - 100) with 60 by ring. rewrite Rabs_right; lra. }
  assert (M : sqrt ((fst (centerOf (touch 100 0) (touch 260 0)) - fst (50, 0))
                    * (fst (centerOf (touch 100 0) (touch 260 0)) - fst (50, 0))
                    + (snd (centerOf (touch 100 0) (touch 260 0)) - snd (50, 0))
                      * (snd (centerOf (touch 100 0) (touch 260 0)) - snd (50, 0)))
              = 130).
  { rewrite Scene3DProps.centerOf_horizontal; simpl.
    replace (((100 + 260) / 2 - 50) * ((100 + 260) / 2 - 50) + (0 - 0) * (0 - 0))
      with (130 * 130) by field.
    apply sqrt_square; lra. }
  split; [ exact Scene3DProps.pinch100_baseline | ]. split; [ exact Hz | ].
  apply (two_finger_zoom_then_rotate pinch100 (touch 100 0) (touch 260 0)
           100 (50, 0) Scene3DProps.pinch100_baseline Hz).
  - rewrite M. lra.
  - rewrite M, P. replace (160 - 100) with 60 by ring. rewrite Rabs_right; lra.
Defined.

(** The single-finger mode is the value read at touch start: with no radio
    button checked, with an empty value or with 'pan' a move pans; 'rotate'
    orbits; 'zoom' zooms by minus the vertical movement times 0.01; any
    other value leaves the camera alone.  In every case the touch becomes
    the new last position. *)
Theorem single_finger_modes :
  forall (s : State) (t0 t : Touch) (checkedRadio : option string),
    let s0 := onTouchStart [t0] checkedRadio s in
    let dx := clientX t - clientX t0 in
    let dy := clientY t - clientY t0 in
    ((checkedRadio = None \/ checkedRadio = Some EmptyString
      \/ checkedRadio = Some "pan"%string) ->
     cam (onTouchMove [t] s0) = cam (panCamera dx dy s))
    /\ (checkedRadio = Some "rotate"%string ->
        cam (onTouchMove [t] s0) = cam (rotateCamera dx dy s))
    /\ (checkedRadio = Some "zoom"%string ->
        cam (onTouchMove [t] s0) = cam (zoomCamera (- dy * 0.01) s))
    /\ (forall v, checkedRadio = Some v ->
                  v <> EmptyString -> v <> "pan"%string ->
                  v <> "rotate"%string -> v <> "zoom"%string ->
                  cam (onTouchMove [t] s0) = cam s)
    /\ lastPosition (controls (onTouchMove [t] s0)) = (clientX t, clientY t).
Proof.
  intros s t0 t checkedRadio s0 dx dy.
  split; [ | split; [ | split; [ | split ] ] ].
  - intros [H | [H | H]]; subst checkedRadio; reflexivity.
  - intros H; subst checkedRadio; reflexivity.
  - intros H; subst checkedRadio; reflexivity.
  - intros v H Ne Np Nr Nz; subst checkedRadio.
    unfold s0, onTouchStart, onTouchMove, getMobileMode.
    cbn -[modeOrPan String.eqb panCamera rotateCamera zoomCamera].
    assert (M : modeOrPan (Some v) = v) by (destruct v; [ contradiction | reflexivity ]).
    rewrite M.
    apply String.eqb_neq in Np, Nr, Nz. rewrite Np, Nr, Nz. reflexivity.
  - unfold s0, onTouchStart, onTouchMove; simpl.
    destruct (String.eqb (modeOrPan (Some (getMobileMode checkedRadio))) "pan");
      [ reflexivity | ].
    destruct (String.eqb (modeOrPan (Some (getMobileMode checkedRadio))) "rotate");
      [ reflexivity | ].
    destruct (String.eqb (modeOrPan (Some (getMobileMode checkedRadio))) "zoom");
      reflexivity.
Qed.

Lemma single_finger_modes_witness :
  Some "orbit"%string = Some "orbit"%string
  /\ cam (onTouchMove [touch 5 9] (onTouchStart [touch 1 2] (Some "orbit"%string) init))
     = cam init.
Proof.
  split; [ reflexivity | ].
  apply (proj1 (proj2 (proj2 (proj2
           (single_finger_modes init (touch 1 2) (touch 5 9) (Some "orbit"%string)))))
           "orbit"%string eq_refl); discriminate.
Defined.

End Scene3DMore.

(** ** Device classes *)

Module AppConfigProps.

Import Js JsFacts AppConfig.

(** Every window width falls in exactly one of the three device classes:
    mobile up to 768, tablet above 768 and up to 1024, desktop above
    1024. *)
Theorem device_classes_partition :
  forall (w : number),
    (isMobile w = true <-> w <= 768)
    /\ (isTablet w = true <-> 768 < w <= 1024)
    /\ (isDesktop w = true <-> 1024 < w)
    /\ ((isMobile w = true /\ isTablet w = false /\ isDesktop w = false)
        \/ (isMobile w = false /\ isTablet w = true /\ isDesktop w = false)
        \/ (isMobile w = false /\ isTablet w = false /\ isDesktop w = true)).
Proof.
  intros w. unfold isMobile, isTablet, isDesktop, breakpoint_mobile,
              breakpoint_tablet.
  destruct (gtb w 768) eqn:E1; destruct (gtb w 1024) eqn:E2; simpl;
    try apply gtb_true in E1; try apply gtb_false in E1;
    try apply gtb_true in E2; try apply gtb_false in E2;
    repeat split; intros; try discriminate; try lra; auto.
Qed.

Lemma device_classes_partition_witness :
  768 < 800 <= 1024 /\ isTablet 800 = true.
Proof.
  assert (H : 768 < 800 <= 1024) by lra.
  split; [ exact H | ].
  exact (proj2 (proj1 (proj2 (device_classes_partition 800))) H).
Defined.

End AppConfigProps.

(** ** The models of [Scene3D] *)

Module ModelsProps.

Import Js Three JsFacts ThreeFacts Models.

(** *** Visibility *)

Lemma updateAt_length i f l : List.length (updateAt i f l) = List.length l.
Proof.
  revert i; induction l as [ | m l IH]; intros [ | j]; simpl; auto.
Qed.

Lemma updateAt_nth_same i f l m :
  nth_error l i = Some m -> nth_error (updateAt i f l) i = Some (f m).
Proof.
  revert i; induction l as [ | a l IH]; intros [ | j] H; simpl in *;
    try discriminate.
  - injection H as ->. reflexivity.
  - apply IH; exact H.
Qed.

Lemma updateAt_nth_other i j f l :
  i <> j -> nth_error (updateAt i f l) j = nth_error l j.
Proof.
  revert i j; induction l as [ | a l IH]; intros [ | i] [ | j] H; simpl;
    try reflexivity; try contradiction.
  apply IH. intros E. apply H. f_equal. exact E.
Qed.

Lemma updateAt_twice i f g l :
  updateAt i g (updateAt i f l) = updateAt i (fun m => g (f m)) l.
Proof.
  revert i; induction l as [ | a l IH]; intros [ | j]; simpl;
    try reflexivity.
  f_equal. apply IH.
Qed.

Lemma updateAt_id i f l :
  (forall m, f m = m) -> updateAt i f l = l.
Proof.
  intros H. revert i; induction l as [ | a l IH]; intros [ | j]; simpl;
    try reflexivity.
  - f_equal. apply H.
  - f_equal. apply IH.
Qed.

Lemma validIndex_true i s :
  validIndex i s = true <-> (0 <= i < Z.of_nat (List.length (loadedModels s)))%Z.
Proof.
  unfold validIndex. rewrite negb_true_iff, orb_false_iff,
    Z.ltb_ge, Z.leb_gt. tauto.
Qed.

Lemma validIndex_nth i s :
  validIndex i s = true ->
  exists m, nth_error (loadedModels s) (Z.to_nat i) = Some m.
Proof.
  intros H. apply validIndex_true in H.
  destruct (nth_error (loadedModels s) (Z.to_nat i)) as [m | ] eqn:E.
  - exists m. reflexivity.
  - apply nth_error_None in E. lia.
Qed.

(** [toggleModelVisibility]: an index below zero or not below the number of
    models changes nothing and returns [undefined]; a valid index flips
    the flag of that model only, returns the new flag, and leaves the
    number of models, the camera and the current model alone; toggling
    the same index twice restores the state. *)
Theorem toggleModelVisibility_spec :
  forall (i : Z) (s : State),
    ((i < 0 \/ Z.of_nat (List.length (loadedModels s)) <= i)%Z ->
     toggleModelVisibility i s = (s, None))
    /\ (forall m,
           (0 <= i)%Z ->
           nth_error (loadedModels s) (Z.to_nat i) = Some m ->
           let s' := fst (toggleModelVisibility i s) in
           snd (toggleModelVisibility i s) = Some (negb (visible m))
           /\ nth_error (loadedModels s') (Z.to_nat i)
              = Some (model (bounds m) (negb (visible m)))
           /\ (forall j, j <> Z.to_nat i ->
                         nth_error (loadedModels s') j = nth_error (loadedModels s) j)
           /\ List.length (loadedModels s') = List.length (loadedModels s)
           /\ scene s' = scene s /\ currentModel s' = currentModel s)
    /\ fst (toggleModelVisibility i (fst (toggleModelVisibility i s))) = s.
Proof.
  intros i s. split; [ | split ].
  - intros H. unfold toggleModelVisibility.
    assert (V : validIndex i s = false).
    { destruct (validIndex i s) eqn:E; [ | reflexivity ].
      apply validIndex_true in E. lia. }
    rewrite V. reflexivity.
  - intros m Hi Hm s'.
    assert (V : validIndex i s = true).
    { apply validIndex_true. split; [ exact Hi | ].
      assert (Z.to_nat i < List.length (loadedModels s))%nat
        by (apply nth_error_Some; rewrite Hm; discriminate).
      lia. }
    unfold s', toggleModelVisibility. rewrite V; simpl.
    rewrite (updateAt_nth_same _ _ _ _ Hm); simpl.
    split; [ reflexivity | ]. split; [ reflexivity | ].
    split; [ intros j Hj; apply updateAt_nth_other; auto | ].
    split; [ apply updateAt_length | ]. split; reflexivity.
  - unfold toggleModelVisibility.
    destruct (validIndex i s) eqn:V; simpl; [ | rewrite V; reflexivity ].
    assert (V' : validIndex i (state (scene s)
                   (updateAt (Z.to_nat i)
                      (fun m => model (bounds m) (negb (visible m)))
                      (loadedModels s)) (currentModel s)) = true).
    { apply validIndex_true; simpl. rewrite updateAt_length.
      apply validIndex_true. exact V. }
    rewrite V'; simpl. rewrite updateAt_twice, updateAt_id.
    + destruct s; reflexivity.
    + intros [b v]; simpl. rewrite negb_involutive. reflexivity.
Qed.

Lemma toggleModelVisibility_spec_witness :
  (0 <= 1)%Z
  /\ nth_error (loadedModels twoModels) (Z.to_nat 1) = Some farModel
  /\ snd (toggleModelVisibility 1 twoModels) = Some false
  /\ ((-1 < 0 \/ Z.of_nat (List.length (loadedModels twoModels)) <= -1)%Z
      /\ toggleModelVisibility (-1) twoModels = (twoModels, None)).
Proof.
  assert (H0 : (0 <= 1)%Z) by lia.
  assert (L : loadedModels twoModels = [smallModel; farModel]).
  { unfold twoModels, addModel, fitModelToView, fitAllModelsToView; simpl.
    reflexivity. }
  assert (H1 : nth_error (loadedModels twoModels) (Z.to_nat 1) = Some farModel)
    by (rewrite L; reflexivity).
  assert (H2 : (-1 < 0 \/ Z.of_nat (List.length (loadedModels twoModels)) <= -1)%Z)
    by (left; lia).
  split; [ exact H0 | ]. split; [ exact H1 | ].
  split.
  - exact (proj1 (proj1 (proj2 (toggleModelVisibility_spec 1 twoModels))
                        farModel H0 H1)).
  - split; [ exact H2 | ].
    exact (proj1 (toggleModelVisibility_spec (-1) twoModels) H2).
Defined.

(** [setModelVisibility] with a valid index gives that model the requested
    flag and returns it; doing it twice is the same as doing it once, and a
    toggle afterwards returns the opposite flag. *)
Theorem setModelVisibility_spec :
  forall (i : Z) (v : bool) (s : State),
    validIndex i s = true ->
    let s' := fst (setModelVisibility i v s) in
    snd (setModelVisibility i v s) = Some v
    /\ option_map visible (nth_error (loadedModels s') (Z.to_nat i)) = Some v
    /\ setModelVisibility i v s' = (s', Some v)
    /\ snd (toggleModelVisibility i s') = Some (negb v).
Proof.
  intros i v s V s'.
  destruct (validIndex_nth i s V) as [m Hm].
  assert (V' : validIndex i s' = true).
  { unfold s', setModelVisibility. rewrite V; simpl.
    apply validIndex_true; simpl. rewrite updateAt_length.
    apply validIndex_true. exact V. }
  assert (N : nth_error (loadedModels s') (Z.to_nat i) = Some (model (bounds m) v)).
  { unfold s', setModelVisibility. rewrite V; simpl.
    apply (updateAt_nth_same _ (fun m0 => model (bounds m0) v) _ _ Hm). }
  split.
  { unfold setModelVisibility. rewrite V; simpl.
    rewrite (updateAt_nth_same _ _ _ _ Hm). reflexivity. }
  split; [ rewrite N; reflexivity | ].
  split.
  { unfold setModelVisibility at 1. rewrite V'; simpl.
    rewrite (updateAt_nth_same _ _ _ _ N); simpl.
    f_equal. unfold s', setModelVisibility. rewrite V; simpl.
    rewrite updateAt_twice. reflexivity. }
  unfold toggleModelVisibility. rewrite V'; simpl.
  rewrite (updateAt_nth_same _ _ _ _ N). reflexivity.
Qed.

Lemma setModelVisibility_spec_witness :
  validIndex 0 twoModels = true
  /\ snd (setModelVisibility 0 false twoModels) = Some false.
Proof.
  assert (V : validIndex 0 twoModels = true) by reflexivity.
  split; [ exact V | ].
  exact (proj1 (setModelVisibility_spec 0 false twoModels V)).
Defined.

(** *** Framing several models *)

Lemma contains_refl b : contains b b.
Proof. unfold contains. repeat split; apply Rle_refl. Qed.

Lemma contains_trans a b c : contains a b -> contains b c -> contains a c.
Proof. unfold contains. intros H1 H2. repeat split; lra. Qed.

Lemma union_contains_both a b :
  contains (box3 (vmin (bmin a) (bmin b)) (vmax (bmax a) (bmax b))) a
  /\ contains (box3 (vmin (bmin a) (bmin b)) (vmax (bmax a) (bmax b))) b.
Proof.
  unfold contains, vmin, vmax, min2, max2; simpl.
  repeat split; auto using Rmin_l, Rmin_r, Rmax_l, Rmax_r.
Qed.

Lemma expand_keeps a m :
  exists a', expandByObject (Some a) m = Some a' /\ contains a' a.
Proof.
  unfold expandByObject. destruct (isEmpty (bounds m)).
  - exists a. split; [ reflexivity | apply contains_refl ].
  - eexists. split; [ reflexivity | apply union_contains_both ].
Qed.

Lemma expand_takes acc m :
  isEmpty (bounds m) = false ->
  exists a', expandByObject acc m = Some a' /\ contains a' (bounds m).
Proof.
  intros H. unfold expandByObject. rewrite H. destruct acc as [a | ].
  - eexists. split; [ reflexivity | apply union_contains_both ].
  - eexists. split; [ reflexivity | apply contains_refl ].
Qed.

Lemma fold_expand_keeps ms : forall a,
  exists u, fold_left expandByObject ms (Some a) = Some u /\ contains u a.
Proof.
  induction ms as [ | m ms IH]; intros a; simpl.
  - exists a. split; [ reflexivity | apply contains_refl ].
  - destruct (expand_keeps a m) as (a' & E & C). rewrite E.
    destruct (IH a') as (u & F & C'). exists u.
    split; [ exact F | eapply contains_trans; eassumption ].
Qed.

Lemma fold_expand_contains ms : forall acc m,
  In m ms -> isEmpty (bounds m) = false ->
  exists u, fold_left expandByObject ms acc = Some u /\ contains u (bounds m).
Proof.
  induction ms as [ | x ms IH]; intros acc m Hin Hne; [ contradiction | ].
  simpl. destruct Hin as [-> | Hin].
  - destruct (expand_takes acc m Hne) as (a' & E & C). rewrite E.
    destruct (fold_expand_keeps ms a') as (u & F & C'). exists u.
    split; [ exact F | eapply contains_trans; eassumption ].
  - apply IH; assumption.
Qed.

Lemma fitAllCameraZ_range acc f :
  Scene3D.minDistance <= fitAllCameraZ acc f <= Scene3D.maxDistance.
Proof.
  unfold fitAllCameraZ, max2, min2, Scene3D.minDistance, Scene3D.maxDistance.
  split.
  - apply Rmax_l.
  - apply Rmax_lub; [ lra | apply Rmin_l ].
Qed.

Lemma fitAllModelsToView_pose s :
  loadedModels s <> [] ->
  position (Scene3D.cam (scene (fitAllModelsToView s)))
  = add (centerOf (unionBox (loadedModels s)))
        (vec3 0 0 (fitAllCameraZ (unionBox (loadedModels s))
                                 (fov (Scene3D.cam (scene s)))))
  /\ rotation (Scene3D.cam (scene (fitAllModelsToView s))) = identity
  /\ loadedModels (fitAllModelsToView s) = loadedModels s
  /\ currentModel (fitAllModelsToView s) = currentModel s.
Proof.
  intros H.
  set (u := unionBox (loadedModels s)).
  set (z := fitAllCameraZ u (fov (Scene3D.cam (scene s)))).
  pose proof (fitAllCameraZ_range u (fov (Scene3D.cam (scene s)))) as Z.
  fold z in Z.
  unfold fitAllModelsToView.
  destruct (loadedModels s) as [ | m0 ms] eqn:E; [ contradiction | ].
  fold u z. simpl.
  split.
  { destruct (centerOf u) as [cx cy cz]. unfold add; simpl.
    apply vec3_eq; ring. }
  split.
  { unfold lookAt, updateWorldMatrix, setRotation, setPosition; simpl.
    destruct (centerOf u) as [cx cy cz]; simpl.
    apply lookAtBasis_along_z. unfold Scene3D.minDistance in Z. lra. }
  split; reflexivity.
Qed.

(** [fitAllModelsToView] does nothing without models.  With models, the
    box it frames encloses the box of every model that has geometry; the
    camera is put at the clamped distance, between 1 and 10, in front of
    the centre of that box with the identity orientation, and the list of
    models is not touched. *)
Theorem fitAllModelsToView_frames_union :
  forall (s : State),
    (loadedModels s = [] -> fitAllModelsToView s = s)
    /\ (loadedModels s <> [] ->
        let u := unionBox (loadedModels s) in
        let z := fitAllCameraZ u (fov (Scene3D.cam (scene s))) in
        let s' := fitAllModelsToView s in
        (forall m, In m (loadedModels s) -> isEmpty (bounds m) = false ->
                   exists b, u = Some b /\ contains b (bounds m))
        /\ Scene3D.minDistance <= z <= Scene3D.maxDistance
        /\ position (Scene3D.cam (scene s')) = add (centerOf u) (vec3 0 0 z)
        /\ rotation (Scene3D.cam (scene s')) = identity
        /\ loadedModels s' = loadedModels s
        /\ currentModel s' = currentModel s).
Proof.
  intros s. split.
  - intros H. unfold fitAllModelsToView. rewrite H. reflexivity.
  - intros H u z s'.
    pose proof (fitAllCameraZ_range u (fov (Scene3D.cam (scene s)))) as Z.
    fold z in Z.
    split; [ intros m Hin Hne; apply fold_expand_contains; assumption | ].
    split; [ exact Z | ].
    exact (fitAllModelsToView_pose s H).
Qed.

Lemma fitAllModelsToView_frames_union_witness :
  loadedModels twoModels <> []
  /\ In farModel (loadedModels twoModels)
  /\ isEmpty (bounds farModel) = false
  /\ (exists b, unionBox (loadedModels twoModels) = Some b
                /\ contains b (bounds farModel))
  /\ (loadedModels emptyScene = [] /\ fitAllModelsToView emptyScene = emptyScene).
Proof.
  assert (L : loadedModels twoModels = [smallModel; farModel]) by reflexivity.
  assert (N : loadedModels twoModels <> []) by (rewrite L; discriminate).
  assert (I : In farModel (loadedModels twoModels))
    by (rewrite L; right; left; reflexivity).
  assert (E : isEmpty (bounds farModel) = false).
  { unfold isEmpty, farModel; simpl.
    assert (E1 : ltb 12 10 = false) by (apply ltb_false; lra).
    assert (E2 : ltb 1 0 = false) by (apply ltb_false; lra).
    rewrite E1, E2. reflexivity. }
  split; [ exact N | ]. split; [ exact I | ]. split; [ exact E | ].
  split.
  - exact (proj1 (proj2 (fitAllModelsToView_frames_union twoModels) N)
                 farModel I E).
  - split; [ reflexivity | ].
    exact (proj1 (fitAllModelsToView_frames_union emptyScene) eq_refl).
Defined.

(** [addModel]: a null model changes nothing.  Otherwise the model is
    appended and becomes the current one, and the camera ends with the
    identity orientation.  The first model of the scene is framed alone:
    the camera is put in front of the centre of its box, at the distance
    [fitCameraZ] gives with margin 1.5.  Every later model triggers a
    framing of all models: the camera is put in front of the centre of the
    box around all of them, the new one included, at the distance
    [fitAllCameraZ] gives with margin 2.  Both distances lie between 1
    and 10. *)
Theorem addModel_spec :
  forall (m : Model) (s : State),
    let s' := addModel (Some m) s in
    let f := fov (Scene3D.cam (scene s)) in
    let u := unionBox (loadedModels s ++ [m]) in
    addModel None s = s
    /\ loadedModels s' = loadedModels s ++ [m]
    /\ currentModel s' = Some (List.length (loadedModels s))
    /\ nth_error (loadedModels s') (List.length (loadedModels s)) = Some m
    /\ rotation (Scene3D.cam (scene s')) = identity
    /\ (loadedModels s = [] ->
        scene s' = Scene3D.fitModelToView (bounds m) (scene s)
        /\ position (Scene3D.cam (scene s'))
           = add (getCenter (bounds m))
                 (vec3 0 0 (Scene3D.fitCameraZ (bounds m) f))
        /\ Scene3D.minDistance <= Scene3D.fitCameraZ (bounds m) f
           <= Scene3D.maxDistance)
    /\ (loadedModels s <> [] ->
        s' = fitAllModelsToView
               (state (scene s) (loadedModels s ++ [m])
                      (Some (List.length (loadedModels s))))
        /\ position (Scene3D.cam (scene s'))
           = add (centerOf u) (vec3 0 0 (fitAllCameraZ u f))
        /\ Scene3D.minDistance <= fitAllCameraZ u f <= Scene3D.maxDistance).
Proof.
  intros m s s' f u.
  split; [ reflexivity | ].
  destruct (loadedModels s) as [ | m0 ms] eqn:E.
  - (* first model *)
    assert (S' : s' = fitModelToView m (state (scene s) [m] (Some 0%nat))).
    { unfold s', addModel. rewrite E. reflexivity. }
    pose proof (Scene3DMore.fitModelToView_in_front (bounds m) (scene s)) as P.
    pose proof (Scene3DMore.fitModelToView_identity (bounds m) (scene s)) as R.
    rewrite S'. cbn [List.length].
    split; [ reflexivity | ].
    split; [ reflexivity | ].
    split; [ reflexivity | ].
    split; [ exact R | ].
    split; [ | intros K; contradiction ].
    intros _. split; [ reflexivity | ].
    split; [ exact P | apply Scene3DProps.fitCameraZ_range ].
  - (* a later model *)
    set (q := state (scene s) ((m0 :: ms) ++ [m])
                    (Some (List.length (m0 :: ms)))).
    assert (S' : s' = fitAllModelsToView q).
    { unfold s', addModel. rewrite E.
      replace (Nat.eqb (List.length ((m0 :: ms) ++ [m])) 1) with false.
      - reflexivity.
      - symmetry. apply Nat.eqb_neq. rewrite length_app; simpl. lia. }
    assert (Nq : loadedModels q <> []) by (simpl; discriminate).
    destruct (fitAllModelsToView_pose q Nq) as (P & R & L & C).
    change (loadedModels q) with ((m0 :: ms) ++ [m]) in P.
    change (scene q) with (scene s) in P.
    fold u f in P.
    pose proof (fitAllCameraZ_range u f) as Z.
    rewrite S'.
    split; [ rewrite L; reflexivity | ].
    split; [ rewrite C; reflexivity | ].
    split.
    { rewrite L. unfold q; cbn [loadedModels].
      rewrite nth_error_app2 by lia. rewrite Nat.sub_diag. reflexivity. }
    split; [ exact R | ].
    split; [ intros K; discriminate | ].
    intros _. split; [ reflexivity | ].
    split; [ exact P | exact Z ].
Qed.

Lemma addModel_spec_witness :
  loadedModels emptyScene = []
  /\ scene (addModel (Some smallModel) emptyScene)
     = Scene3D.fitModelToView (bounds smallModel) (scene emptyScene)
  /\ loadedModels (addModel (Some smallModel) emptyScene) <> []
  /\ position (Scene3D.cam (scene twoModels))
     = add (centerOf (unionBox
                        (loadedModels (addModel (Some smallModel) emptyScene)
                         ++ [farModel])))
           (vec3 0 0
              (fitAllCameraZ
                 (unionBox (loadedModels (addModel (Some smallModel) emptyScene)
                            ++ [farModel]))
                 (fov (Scene3D.cam
                         (scene (addModel (Some smallModel) emptyScene)))))).
Proof.
  assert (E : loadedModels emptyScene = []) by reflexivity.
  assert (N : loadedModels (addModel (Some smallModel) emptyScene) <> [])
    by discriminate.
  split; [ exact E | ].
  split.
  { exact (proj1 (proj1 (proj2 (proj2 (proj2 (proj2 (proj2
             (addModel_spec smallModel emptyScene)))))) E)). }
  split; [ exact N | ].
  exact (proj1 (proj2 (proj2 (proj2 (proj2 (proj2 (proj2 (proj2
           (addModel_spec farModel (addModel (Some smallModel) emptyScene)))))))
           N))).
Defined.

(** Framing one box through [fitAllModelsToView] never brings the camera
    closer than framing it through [fitModelToView]: the margin is 2
    instead of 1.5. *)
Theorem fitAll_margin_not_closer :
  forall (box : Box3) (f : number),
    Scene3D.fitCameraZ box f <= fitAllCameraZ (Some box) f.
Proof.
  intros box f. unfold Scene3D.fitCameraZ, fitAllCameraZ, sizeOf, max2, min2.
  set (a := abs (max3 (vx (getSize box)) (vy (getSize box)) (vz (getSize box))
                 / 2 / tan (f * (PI / 180) / 2))).
  assert (A : 0 <= a) by (unfold a, abs; apply Rabs_pos).
  apply Rle_max_compat_l. apply Rle_min_compat_l. lra.
Qed.

End ModelsProps.

(** ** Facts about JavaScript strings *)

Module JsStringFacts.

Import JsString.

Lemma streq_refl a : streq a a = true.
Proof.
  induction a as [ | x a IH]; simpl; [ reflexivity | ].
  rewrite Ascii.eqb_refl. exact IH.
Qed.

Lemma streq_true_iff a b : streq a b = true <-> a = b.
Proof.
  split.
  - revert b; induction a as [ | x a IH]; intros [ | y b] H; simpl in H;
      try discriminate; [ reflexivity | ].
    apply andb_true_iff in H. destruct H as [H1 H2].
    apply Ascii.eqb_eq in H1. apply IH in H2. subst. reflexivity.
  - intros ->. apply streq_refl.
Qed.

Lemma streq_false_iff a b : streq a b = false <-> a <> b.
Proof.
  split.
  - intros H E. apply streq_true_iff in E. congruence.
  - intros H. destruct (streq a b) eqn:E; [ | reflexivity ].
    apply streq_true_iff in E. contradiction.
Qed.

(** *** [split] *)

Lemma split_not_nil sep s : split sep s <> [].
Proof.
  destruct s as [ | c rest]; simpl; [ discriminate | ].
  destruct (Ascii.eqb c sep); [ discriminate | ].
  destruct (split sep rest); discriminate.
Qed.

Lemma split_cons_other sep c rest :
  c <> sep ->
  exists piece pieces,
    split sep rest = piece :: pieces
    /\ split sep (c :: rest) = (c :: piece) :: pieces.
Proof.
  intros H. simpl. apply Ascii.eqb_neq in H. rewrite H.
  destruct (split sep rest) as [ | piece pieces] eqn:E.
  - exfalso. exact (split_not_nil sep rest E).
  - exists piece, pieces. split; reflexivity.
Qed.

Lemma split_without_sep (sep : ascii) (s : jsstring) : ~ In sep s -> split sep s = [s].
Proof.
  induction s as [ | c rest IH]; intros H; [ reflexivity | ].
  assert (Hc : c <> sep) by (intros E; apply H; left; exact E).
  assert (Hr : ~ In sep rest) by (intros E; apply H; right; exact E).
  simpl. apply Ascii.eqb_neq in Hc. rewrite Hc, (IH Hr). reflexivity.
Qed.

Lemma split_app sep a b :
  split sep (a ++ sep :: b) = split sep a ++ split sep b.
Proof.
  induction a as [ | c a IH]; simpl.
  - rewrite Ascii.eqb_refl. reflexivity.
  - destruct (Ascii.eqb c sep); [ rewrite IH; reflexivity | ].
    rewrite IH.
    destruct (split sep a) as [ | piece pieces] eqn:E; [ | reflexivity ].
    exfalso. exact (split_not_nil sep a E).
Qed.

Lemma last_app_not_nil (l1 l2 : list (list ascii)) d :
  l2 <> [] -> last (l1 ++ l2) d = last l2 d.
Proof.
  intros H. induction l1 as [ | x l1 IH]; [ reflexivity | ].
  simpl. destruct (l1 ++ l2) eqn:E; [ | exact IH ].
  apply app_eq_nil in E. destruct E as [_ E]. contradiction.
Qed.

Lemma lastPiece_without_sep (sep : ascii) (s : jsstring) : ~ In sep s -> lastPiece sep s = s.
Proof. intros H. unfold lastPiece. rewrite split_without_sep by exact H. reflexivity. Qed.

Lemma lastPiece_app (sep : ascii) (a e : jsstring) :
  ~ In sep e -> lastPiece sep (a ++ sep :: e) = e.
Proof.
  intros H. unfold lastPiece. rewrite split_app.
  rewrite last_app_not_nil by apply split_not_nil.
  rewrite split_without_sep by exact H. reflexivity.
Qed.

(** Every string either lacks the code unit or can be cut at its last
    occurrence. *)
Lemma last_occurrence (c : ascii) (s : jsstring) :
  ~ In c s \/ exists a e, s = a ++ c :: e /\ ~ In c e.
Proof.
  induction s as [ | x s IH]; [ left; intros [] | ].
  destruct IH as [H | (a & e & -> & He)].
  - destruct (ascii_dec x c) as [-> | Hx].
    + right. exists [], s. split; [ reflexivity | exact H ].
    + left. intros [E | E]; [ exact (Hx E) | exact (H E) ].
  - right. exists (x :: a), e. split; [ reflexivity | exact He ].
Qed.

(** *** [lastIndexOf] and [substring] *)

Lemma lastIndexFrom_without (c : ascii) (s : jsstring) : forall i found,
  ~ In c s -> lastIndexFrom c s i found = found.
Proof.
  induction s as [ | x s IH]; intros i found H; [ reflexivity | ].
  simpl.
  assert (Hx : x <> c) by (intros E; apply H; left; exact E).
  apply Ascii.eqb_neq in Hx. rewrite Hx.
  apply IH. intros E; apply H; right; exact E.
Qed.

Lemma lastIndexFrom_app (c : ascii) (a e : jsstring) : forall i found,
  ~ In c e ->
  lastIndexFrom c (a ++ c :: e) i found = (i + Z.of_nat (List.length a))%Z.
Proof.
  induction a as [ | x a IH]; intros i found H; simpl.
  - rewrite Ascii.eqb_refl, lastIndexFrom_without by exact H. lia.
  - rewrite IH by exact H. lia.
Qed.

Lemma lastIndexOf_without (c : ascii) (s : jsstring) : ~ In c s -> lastIndexOf c s = (-1)%Z.
Proof. apply lastIndexFrom_without. Qed.

Lemma lastIndexOf_app (c : ascii) (a e : jsstring) :
  ~ In c e -> lastIndexOf c (a ++ c :: e) = Z.of_nat (List.length a).
Proof. intros H. unfold lastIndexOf. rewrite lastIndexFrom_app by exact H. lia. Qed.

Lemma clampIndex_zero (s : jsstring) : clampIndex 0 s = 0%nat.
Proof. reflexivity. Qed.

Lemma clampIndex_negative (s : jsstring) : clampIndex (-1) s = 0%nat.
Proof. reflexivity. Qed.

Lemma clampIndex_inside (a rest : jsstring) :
  clampIndex (Z.of_nat (List.length a)) (a ++ rest) = List.length a.
Proof. unfold clampIndex. rewrite length_app. lia. Qed.

Lemma clampIndex_end (s : jsstring) :
  clampIndex (Z.of_nat (List.length s)) s = List.length s.
Proof. unfold clampIndex. lia. Qed.

Lemma substring_head (a rest : jsstring) :
  substring 0 (Z.of_nat (List.length a)) (a ++ rest) = a.
Proof.
  unfold substring. rewrite clampIndex_zero, clampIndex_inside.
  rewrite Nat.min_0_l, Nat.max_0_l, Nat.sub_0_r. simpl skipn.
  rewrite firstn_app, firstn_all, Nat.sub_diag. simpl. apply app_nil_r.
Qed.

Lemma substringFrom_tail (a rest : jsstring) :
  substringFrom (Z.of_nat (List.length a)) (a ++ rest) = rest.
Proof.
  unfold substringFrom, substring.
  rewrite clampIndex_end, clampIndex_inside, length_app.
  rewrite Nat.min_l, Nat.max_r by lia.
  replace (List.length a + List.length rest - List.length a)%nat
    with (List.length rest) by lia.
  rewrite skipn_app, skipn_all, Nat.sub_diag. simpl.
  apply firstn_all.
Qed.

Lemma substring_to_minus_one (s : jsstring) : substring 0 (-1) s = [].
Proof. reflexivity. Qed.

Lemma substringFrom_minus_one (s : jsstring) : substringFrom (-1) s = s.
Proof.
  unfold substringFrom, substring.
  rewrite clampIndex_negative, clampIndex_end.
  rewrite Nat.min_0_l, Nat.max_0_l, Nat.sub_0_r. simpl.
  apply firstn_all.
Qed.

(** *** Lower case *)

Lemma lowerChar_idempotent c : lowerChar (lowerChar c) = lowerChar c.
Proof. destruct c as [[] [] [] [] [] [] [] []]; reflexivity. Qed.

Lemma lowerChar_dot c : lowerChar c = "."%char <-> c = "."%char.
Proof.
  split.
  - destruct c as [[] [] [] [] [] [] [] []]; intros H; try reflexivity;
      discriminate H.
  - intros ->. reflexivity.
Qed.

Lemma toLowerCase_idempotent s : toLowerCase (toLowerCase s) = toLowerCase s.
Proof.
  unfold toLowerCase. rewrite map_map. apply map_ext.
  intros c. apply lowerChar_idempotent.
Qed.

Lemma toLowerCase_app a b : toLowerCase (a ++ b) = toLowerCase a ++ toLowerCase b.
Proof. apply map_app. Qed.

Lemma toLowerCase_no_dot (s : jsstring) : ~ In "."%char s -> ~ In "."%char (toLowerCase s).
Proof.
  intros H K. unfold toLowerCase in K. apply in_map_iff in K.
  destruct K as (c & E & I). apply (proj1 (lowerChar_dot c)) in E. subst. exact (H I).
Qed.

End JsStringFacts.

(** ** [ModelLoader] *)

Module ModelLoaderProps.

Import Js JsFacts JsString JsStringFacts ModelLoader.

(** *** File names *)

(** [getBaseName] and [getFileExtension] cut a file name at its last dot:
    put together they give the name back.  A name without a dot has an
    empty base name and is its own extension; otherwise the extension
    starts with the last dot and is that dot followed by the last piece of
    the name split at dots. *)
Theorem file_name_cut_at_last_dot :
  forall (filename : jsstring),
    getBaseName filename ++ getFileExtension filename = filename
    /\ (~ In "."%char filename ->
        getBaseName filename = [] /\ getFileExtension filename = filename)
    /\ (forall a e, filename = a ++ "."%char :: e -> ~ In "."%char e ->
                    getBaseName filename = a
                    /\ getFileExtension filename = "."%char :: e
                    /\ getFileExtension filename
                       = "."%char :: lastPiece "."%char filename).
Proof.
  intros filename.
  assert (N : ~ In "."%char filename ->
              getBaseName filename = [] /\ getFileExtension filename = filename).
  { intros H. unfold getBaseName, getFileExtension.
    rewrite lastIndexOf_without by exact H.
    split; [ apply substring_to_minus_one | apply substringFrom_minus_one ]. }
  assert (D : forall a e, filename = a ++ "."%char :: e -> ~ In "."%char e ->
                          getBaseName filename = a
                          /\ getFileExtension filename = "."%char :: e).
  { intros a e -> H. unfold getBaseName, getFileExtension.
    rewrite lastIndexOf_app by exact H.
    split; [ apply substring_head | apply substringFrom_tail ]. }
  split; [ | split ].
  - destruct (last_occurrence "."%char filename) as [H | (a & e & E & H)].
    + destruct (N H) as [-> ->]. reflexivity.
    + destruct (D a e E H) as [-> ->]. symmetry. exact E.
  - exact N.
  - intros a e E H. destruct (D a e E H) as [B X].
    split; [ exact B | ]. split; [ exact X | ].
    rewrite X, E, lastPiece_app by exact H. reflexivity.
Qed.

Lemma file_name_cut_at_last_dot_witness :
  ~ In "."%char (lit "README")
  /\ getFileExtension (lit "README") = lit "README"
  /\ (lit "a.tar.gz" = lit "a.tar" ++ "."%char :: lit "gz"
      /\ ~ In "."%char (lit "gz")
      /\ getBaseName (lit "a.tar.gz") = lit "a.tar").
Proof.
  assert (H : ~ In "."%char (lit "README")).
  { simpl. intros K. repeat (destruct K as [K | K]; [ discriminate K | ]).
    exact K. }
  assert (E : lit "a.tar.gz" = lit "a.tar" ++ "."%char :: lit "gz") by reflexivity.
  assert (G : ~ In "."%char (lit "gz")).
  { simpl. intros K. repeat (destruct K as [K | K]; [ discriminate K | ]).
    exact K. }
  split; [ exact H | ].
  split.
  - exact (proj2 (proj1 (proj2 (file_name_cut_at_last_dot (lit "README"))) H)).
  - split; [ exact E | ]. split; [ exact G | ].
    exact (proj1 (proj2 (proj2 (file_name_cut_at_last_dot (lit "a.tar.gz")))
                        (lit "a.tar") (lit "gz") E G)).
Defined.

(** *** Classes *)

Lemma listIncludes_In l e : listIncludes l e = true <-> In e l.
Proof.
  unfold listIncludes. rewrite existsb_exists. split.
  - intros (x & I & H). apply streq_true_iff in H. subst. exact I.
  - intros I. exists e. split; [ exact I | apply streq_refl ].
Qed.

(** No extension belongs to two of the format lists. *)
Lemma formats_exclusive e :
  (listIncludes formats_models e = true ->
   listIncludes formats_materials e = false
   /\ listIncludes formats_textures e = false
   /\ listIncludes formats_animations e = false)
  /\ (listIncludes formats_materials e = true ->
      listIncludes formats_textures e = false
      /\ listIncludes formats_animations e = false)
  /\ (listIncludes formats_textures e = true ->
      listIncludes formats_animations e = false).
Proof.
  split; [ | split ]; intros H; apply listIncludes_In in H; simpl in H;
    repeat (destruct H as [H | H]; [ subst e; repeat split; reflexivity | ]);
    contradiction.
Qed.

Lemma classify_groups g f :
  classify g f
  = groups (models g ++ filter isModelFile [f])
           (materials g ++ filter isMaterialFile [f])
           (textures g ++ filter isTextureFile [f])
           (animations g ++ filter isAnimationFile [f]).
Proof.
  unfold classify. cbn [filter].
  unfold isModelFile, isMaterialFile, isTextureFile, isAnimationFile,
    lowerExtension.
  destruct (formats_exclusive (toLowerCase (getFileExtension (name f))))
    as (X1 & X2 & X3).
  destruct (listIncludes formats_models _) eqn:M.
  - destruct (X1 eq_refl) as (-> & -> & ->). rewrite !app_nil_r. reflexivity.
  - destruct (listIncludes formats_materials _) eqn:A.
    + destruct (X2 eq_refl) as (-> & ->). rewrite !app_nil_r. reflexivity.
    + destruct (listIncludes formats_textures _) eqn:T.
      * rewrite (X3 eq_refl), !app_nil_r. reflexivity.
      * destruct (listIncludes formats_animations _);
          rewrite !app_nil_r; destruct g; reflexivity.
Qed.

Lemma fold_classify fs : forall g,
  fold_left classify fs g
  = groups (models g ++ filter isModelFile fs)
           (materials g ++ filter isMaterialFile fs)
           (textures g ++ filter isTextureFile fs)
           (animations g ++ filter isAnimationFile fs).
Proof.
  induction fs as [ | f fs IH]; intros g.
  - simpl. rewrite !app_nil_r. destruct g; reflexivity.
  - simpl fold_left. rewrite IH, classify_groups. cbn [filter models materials
      textures animations].
    rewrite <- !app_assoc.
    destruct (isModelFile f), (isMaterialFile f), (isTextureFile f),
      (isAnimationFile f); reflexivity.
Qed.

Lemma organizeFiles_filters files :
  organizeFiles files
  = groups (filter isModelFile files) (filter isMaterialFile files)
           (filter isTextureFile files) (filter isAnimationFile files).
Proof. unfold organizeFiles. rewrite fold_classify. reflexivity. Qed.

(** [organizeFiles] sorts the files into four groups by the lower-cased
    extension, keeps their order inside each group, and drops every file
    whose extension is in none of the lists; no file lands in two
    groups. *)
Theorem organizeFiles_groups :
  forall (files : list File),
    organizeFiles files
    = groups (filter isModelFile files) (filter isMaterialFile files)
             (filter isTextureFile files) (filter isAnimationFile files)
    /\ (forall f, In f files ->
                  (if isModelFile f then 1 else 0)
                  + (if isMaterialFile f then 1 else 0)
                  + (if isTextureFile f then 1 else 0)
                  + (if isAnimationFile f then 1 else 0) <= 1)%nat.
Proof.
  intros files. split.
  - apply organizeFiles_filters.
  - intros f _. unfold isModelFile, isMaterialFile, isTextureFile, isAnimationFile.
    destruct (formats_exclusive (lowerExtension f)) as (X1 & X2 & X3).
    destruct (listIncludes formats_models _) eqn:M.
    + destruct (X1 eq_refl) as (-> & -> & ->). simpl. lia.
    + destruct (listIncludes formats_materials _) eqn:A.
      * destruct (X2 eq_refl) as (-> & ->). simpl. lia.
      * destruct (listIncludes formats_textures _) eqn:T.
        -- rewrite (X3 eq_refl). simpl. lia.
        -- destruct (listIncludes formats_animations _); simpl; lia.
Qed.

Lemma organizeFiles_groups_witness :
  In (file (lit "house.OBJ") 1000) sampleFiles
  /\ ((if isModelFile (file (lit "house.OBJ") 1000) then 1 else 0)
      + (if isMaterialFile (file (lit "house.OBJ") 1000) then 1 else 0)
      + (if isTextureFile (file (lit "house.OBJ") 1000) then 1 else 0)
      + (if isAnimationFile (file (lit "house.OBJ") 1000) then 1 else 0)
      <= 1)%nat.
Proof.
  assert (I : In (file (lit "house.OBJ") 1000) sampleFiles)
    by (left; reflexivity).
  split; [ exact I | ].
  exact (proj2 (organizeFiles_groups sampleFiles) _ I).
Defined.

(** *** Validation *)

Lemma checkSizes_valid l : checkSizes l = Valid <-> Forall withinLimit l.
Proof.
  induction l as [ | f l IH]; simpl.
  - split; [ constructor | reflexivity ].
  - destruct (gtb (size f / (1024 * 1024)) (sizeLimit f)) eqn:E.
    + apply gtb_true in E. split; [ discriminate | ].
      intros H. inversion H as [ | ? ? W _]; subst.
      unfold withinLimit in W. lra.
    + apply gtb_false in E. rewrite IH. split.
      * intros H. constructor; assumption.
      * intros H. inversion H; assumption.
Qed.

Lemma checkSizes_tooLarge l f a b :
  checkSizes l = TooLarge f a b ->
  exists pre post,
    l = pre ++ f :: post /\ Forall withinLimit pre /\ ~ withinLimit f
    /\ a = size f / (1024 * 1024) /\ b = sizeLimit f.
Proof.
  induction l as [ | x l IH]; simpl; [ discriminate | ].
  destruct (gtb (size x / (1024 * 1024)) (sizeLimit x)) eqn:E.
  - intros H. injection H as -> <- <-. exists [], l.
    apply gtb_true in E. repeat split; auto.
    unfold withinLimit. lra.
  - intros H. destruct (IH H) as (pre & post & -> & F & N & A & B).
    exists (x :: pre), post. apply gtb_false in E.
    repeat split; auto.
Qed.

Lemma checkSizes_not_noModel l : checkSizes l <> NoModel.
Proof.
  induction l as [ | f l IH]; simpl; [ discriminate | ].
  destruct (gtb _ _); [ discriminate | exact IH ].
Qed.

Lemma validateFiles_valid g :
  validateFiles g = Valid <->
  models g <> [] /\ Forall withinLimit (models g ++ materials g ++ textures g).
Proof.
  unfold validateFiles. destruct (models g) as [ | m ms] eqn:E.
  - split; [ discriminate | intros [H _]; contradiction ].
  - rewrite checkSizes_valid. split.
    + intros H. split; [ discriminate | exact H ].
    + intros [_ H]. exact H.
Qed.

(** [validateFiles]: without a model file the answer is the missing-model
    error, whatever the sizes.  Otherwise the files are checked in the
    order models, materials, textures; the answer is valid exactly when all
    of them are within their limit, and an error names the first file that
    is not.  Animation files are not checked. *)
Theorem validateFiles_spec :
  forall (g : Groups),
    (models g = [] <-> validateFiles g = NoModel)
    /\ (validateFiles g = Valid <->
        models g <> []
        /\ Forall withinLimit (models g ++ materials g ++ textures g))
    /\ (forall f a b,
           validateFiles g = TooLarge f a b ->
           exists pre post,
             models g ++ materials g ++ textures g = pre ++ f :: post
             /\ Forall withinLimit pre /\ ~ withinLimit f
             /\ a = size f / (1024 * 1024) /\ b = sizeLimit f)
    /\ (forall extra,
           validateFiles (groups (models g) (materials g) (textures g) extra)
           = validateFiles g).
Proof.
  intros g. unfold validateFiles.
  destruct (models g) as [ | m ms] eqn:E.
  - split; [ split; reflexivity | ].
    split; [ split; [ discriminate | intros [H _]; contradiction ] | ].
    split; [ discriminate | ]. intros extra; reflexivity.
  - split.
    { split; [ discriminate | ]. intros H. exfalso.
      exact (checkSizes_not_noModel _ H). }
    split.
    { rewrite checkSizes_valid. split.
      - intros H. split; [ discriminate | exact H ].
      - intros [_ H]. exact H. }
    split; [ intros f a b H; apply checkSizes_tooLarge; exact H | ].
    intros extra; reflexivity.
Qed.

Lemma validateFiles_spec_witness :
  models texturesOnly = [] /\ validateFiles texturesOnly = NoModel.
Proof.
  assert (E : models texturesOnly = []) by reflexivity.
  split; [ exact E | ].
  exact (proj1 (proj1 (validateFiles_spec texturesOnly)) E).
Defined.

Lemma filter_nothing (P : File -> bool) l :
  (forall f, In f l -> P f = false) -> filter P l = [].
Proof.
  induction l as [ | x l IH]; intros H; [ reflexivity | ].
  simpl. rewrite (H x (or_introl eq_refl)). apply IH.
  intros f I. apply H. right. exact I.
Qed.

(** The limit that applies to a file of each class. *)
Lemma sizeLimit_by_class f :
  (isTextureFile f = true -> sizeLimit f = 10)
  /\ (isTextureFile f = false -> sizeLimit f = 50).
Proof.
  unfold sizeLimit, isTextureFile, lowerExtension, maxSize_texture,
    maxSize_model.
  split; intros H; rewrite H; reflexivity.
Qed.

(** [loadFiles] reports that no file is selected exactly for an empty
    list.  It goes on to load exactly when the selection has a model file,
    every model and material file is at most 50 MB and every texture file
    at most 10 MB; files of other kinds, animations included, do not
    matter. *)
Theorem loadFiles_accepts :
  forall (files : list File),
    (loadFiles files = NoFileSelected <-> files = [])
    /\ (loadFiles files = Started (organizeFiles files) <->
        (exists f, In f files /\ isModelFile f = true)
        /\ (forall f, In f files ->
                      isModelFile f = true \/ isMaterialFile f = true ->
                      size f / (1024 * 1024) <= 50)
        /\ (forall f, In f files -> isTextureFile f = true ->
                      size f / (1024 * 1024) <= 10))
    /\ ((forall f, In f files -> isModelFile f = false) -> files <> [] ->
        loadFiles files = Rejected NoModel).
Proof.
  intros files.
  pose proof (organizeFiles_filters files) as O.
  assert (TM : forall f, isModelFile f = true \/ isMaterialFile f = true ->
                         isTextureFile f = false).
  { intros f. unfold isModelFile, isMaterialFile, isTextureFile.
    destruct (formats_exclusive (lowerExtension f)) as (X1 & X2 & _).
    intros [H | H]; [ apply X1 in H | apply X2 in H ]; tauto. }
  split; [ | split ].
  - unfold loadFiles. destruct files as [ | f fs]; [ tauto | ].
    split; [ | discriminate ].
    destruct (validateFiles (organizeFiles (f :: fs))); discriminate.
  - destruct files as [ | f0 fs] eqn:EF.
    { split; [ discriminate | intros ((f & [] & _) & _) ]. }
    rewrite <- EF in *.
    assert (L : loadFiles files = Started (organizeFiles files)
                <-> validateFiles (organizeFiles files) = Valid).
    { unfold loadFiles. rewrite EF. rewrite <- EF.
      destruct (validateFiles (organizeFiles files)); split;
        try reflexivity; discriminate. }
    rewrite L.
    pose proof (validateFiles_valid (organizeFiles files)) as V.
    rewrite V, O; simpl. clear L V O.
    rewrite !Forall_app, !Forall_forall.
    split.
    + intros (Hm & F1 & F2 & F3). split; [ | split ].
      * destruct (filter isModelFile files) as [ | f l] eqn:E;
          [ contradiction | ].
        exists f. apply filter_In. rewrite E. left. reflexivity.
      * intros f I [H | H].
        -- assert (W : withinLimit f) by (apply F1, filter_In; auto).
           unfold withinLimit in W.
           rewrite (proj2 (sizeLimit_by_class f) (TM f (or_introl H))) in W.
           exact W.
        -- assert (W : withinLimit f) by (apply F2, filter_In; auto).
           unfold withinLimit in W.
           rewrite (proj2 (sizeLimit_by_class f) (TM f (or_intror H))) in W.
           exact W.
      * intros f I H.
        assert (W : withinLimit f) by (apply F3, filter_In; auto).
        unfold withinLimit in W.
        rewrite (proj1 (sizeLimit_by_class f) H) in W. exact W.
    + intros ((f & I & H) & G1 & G2). split; [ | split; [ | split ] ].
      * intros E. assert (K : In f (filter isModelFile files))
          by (apply filter_In; auto).
        rewrite E in K. exact K.
      * intros x Hx. apply filter_In in Hx. destruct Hx as [I' H'].
        unfold withinLimit.
        rewrite (proj2 (sizeLimit_by_class x) (TM x (or_introl H'))).
        apply G1; auto.
      * intros x Hx. apply filter_In in Hx. destruct Hx as [I' H'].
        unfold withinLimit.
        rewrite (proj2 (sizeLimit_by_class x) (TM x (or_intror H'))).
        apply G1; auto.
      * intros x Hx. apply filter_In in Hx. destruct Hx as [I' H'].
        unfold withinLimit.
        rewrite (proj1 (sizeLimit_by_class x) H'). apply G2; auto.
  - intros H N.
    assert (M : models (organizeFiles files) = []).
    { rewrite O; simpl. apply filter_nothing. exact H. }
    unfold loadFiles. destruct files as [ | f0 fs]; [ contradiction | ].
    unfold validateFiles. rewrite M. reflexivity.
Qed.

Lemma loadFiles_accepts_witness :
  ((forall f, In f [file (lit "notes.pdf") 5] -> isModelFile f = false)
   /\ [file (lit "notes.pdf") 5] <> []
   /\ loadFiles [file (lit "notes.pdf") 5] = Rejected NoModel)
  /\ loadFiles sampleFiles = Started (organizeFiles sampleFiles).
Proof.
  assert (H : forall f, In f [file (lit "notes.pdf") 5] -> isModelFile f = false).
  { intros f [<- | []]. reflexivity. }
  assert (N : [file (lit "notes.pdf") 5] <> []) by discriminate.
  split.
  - split; [ exact H | ]. split; [ exact N | ].
    exact (proj2 (proj2 (loadFiles_accepts [file (lit "notes.pdf") 5])) H N).
  - apply (proj2 (proj1 (proj2 (loadFiles_accepts sampleFiles)))).
    split; [ | split ].
    + exists (file (lit "house.OBJ") 1000). split; [ left; reflexivity | reflexivity ].
    + intros f I C. unfold sampleFiles in I; simpl in I.
      repeat (destruct I as [I | I];
              [ subst f; simpl; try lra;
                destruct C as [C | C]; discriminate C | ]).
      contradiction.
    + intros f I C. unfold sampleFiles in I; simpl in I.
      repeat (destruct I as [I | I];
              [ subst f; simpl; try lra; discriminate C | ]).
      contradiction.
Defined.

End ModelLoaderProps.

(** ** Choice of the loader *)

Module FileKindProps.

Import JsString JsStringFacts FileKind.

(** [loadModel] chooses the loader from the text after the last dot of the
    name, whatever precedes it and whatever the case of the letters; a name
    without a dot is taken as an extension on its own. *)
Theorem loadModel_by_extension :
  (forall (base e : jsstring),
      ~ In "."%char e -> loadModel (base ++ "."%char :: e) = loadModel e)
  /\ (forall (name : jsstring), loadModel (toLowerCase name) = loadModel name).
Proof.
  split.
  - intros base e H. unfold loadModel.
    rewrite toLowerCase_app. cbn [toLowerCase map].
    change (lowerChar "."%char) with "."%char.
    change (map lowerChar e) with (toLowerCase e).
    rewrite lastPiece_app by (apply toLowerCase_no_dot; exact H).
    rewrite lastPiece_without_sep by (apply toLowerCase_no_dot; exact H).
    reflexivity.
  - intros name. unfold loadModel. rewrite toLowerCase_idempotent. reflexivity.
Qed.

Lemma loadModel_by_extension_witness :
  ~ In "."%char (lit "GLB")
  /\ loadModel (lit "models/v1.2/ship" ++ "."%char :: lit "GLB") = loadModel (lit "GLB")
  /\ loadModel (lit "GLB") = GLTFLoader.
Proof.
  assert (H : ~ In "."%char (lit "GLB")).
  { simpl. intros K. repeat (destruct K as [K | K]; [ discriminate K | ]).
    exact K. }
  split; [ exact H | ]. split; [ | reflexivity ].
  exact (proj1 loadModel_by_extension (lit "models/v1.2/ship") (lit "GLB") H).
Defined.

End FileKindProps.

(** ** The home configuration *)

Module HomeConfigProps.

Import JsString JsStringFacts HomeConfig.

Section Parser.

Variable Number : Type.
Variable parseFloat : jsstring -> Number.

Lemma readProperty_name line (cur : Scenario Number) :
  name (readProperty parseFloat line cur) = name cur.
Proof.
  unfold readProperty.
  destruct (startsWith (lit "description=") line); [ reflexivity | ].
  destruct (startsWith (lit "image=") line); [ reflexivity | ].
  destruct (startsWith (lit "position=") line).
  - destruct (map _ _) as [ | x [ | y [ | z [ | w l]]]]; reflexivity.
  - destruct (includes "="%char line); [ | reflexivity ].
    destruct (split "="%char line) as [ | l [ | p r]]; reflexivity.
Qed.

Lemma readLine_header st raw :
  isHeader raw = true ->
  readLine parseFloat st raw
  = parseState (pushCurrent st)
               (Some (scenario (sliceInner (trim raw)) [] [] [] [])).
Proof.
  unfold isHeader, readLine. intros H.
  destruct (trim raw) as [ | c rest] eqn:E; [ discriminate H | ].
  rewrite H.
  assert (S : startsWith (lit "#") (c :: rest) = false).
  { apply andb_true_iff in H. destruct H as [H _].
    change (lit "[") with ["["%char] in H. cbn [startsWith] in H.
    rewrite andb_true_r in H. apply Ascii.eqb_eq in H. subst c. reflexivity. }
  rewrite S. reflexivity.
Qed.

Lemma readLine_other_names st raw :
  isHeader raw = false ->
  map name (pushCurrent (readLine parseFloat st raw)) = map name (pushCurrent st).
Proof.
  unfold isHeader, readLine. intros H.
  destruct (trim raw) as [ | c rest] eqn:E; [ reflexivity | ].
  destruct (startsWith (lit "#") (c :: rest)); [ reflexivity | ].
  rewrite H. destruct st as [ss [cur | ]]; [ | reflexivity ].
  unfold pushCurrent; simpl. rewrite !map_app; simpl.
  rewrite readProperty_name. reflexivity.
Qed.

Lemma fold_readLine_names ls : forall st,
  map name (pushCurrent (fold_left (readLine parseFloat) ls st))
  = map name (pushCurrent st)
    ++ map (fun l => sliceInner (trim l)) (filter isHeader ls).
Proof.
  induction ls as [ | l ls IH]; intros st; simpl.
  - rewrite app_nil_r. reflexivity.
  - rewrite IH. destruct (isHeader l) eqn:H.
    + rewrite readLine_header by exact H.
      unfold pushCurrent at 1; simpl. rewrite map_app; simpl.
      rewrite <- app_assoc. reflexivity.
    + rewrite readLine_other_names by exact H. reflexivity.
Qed.

(** The scenarios of a configuration are its header lines: one scenario,
    in order, for every line that starts with '[' and ends with ']' once
    trimmed, named by the text between the two. *)
Theorem parseHomeConfig_names :
  forall (content : jsstring),
    map name (parseHomeConfig parseFloat content)
    = map (fun l => sliceInner (trim l))
          (filter isHeader (split "010"%char content)).
Proof.
  intros content. unfold parseHomeConfig.
  rewrite fold_readLine_names. reflexivity.
Qed.

Lemma readLine_skipped st raw :
  isSkipped raw = true -> readLine parseFloat st raw = st.
Proof.
  unfold isSkipped, readLine. intros H.
  destruct (trim raw) as [ | c rest]; [ reflexivity | ].
  rewrite H. reflexivity.
Qed.

Lemma readLine_closed raw :
  isHeader raw = false ->
  readLine parseFloat (parseState [] None) raw = parseState [] None.
Proof.
  unfold isHeader, readLine. intros H.
  destruct (trim raw) as [ | c rest]; [ reflexivity | ].
  destruct (startsWith (lit "#") (c :: rest)); [ reflexivity | ].
  rewrite H. reflexivity.
Qed.

Lemma fold_readLine_closed ls :
  (forall l, In l ls -> isHeader l = false) ->
  fold_left (readLine parseFloat) ls (parseState [] None) = parseState [] None.
Proof.
  induction ls as [ | l ls IH]; intros H; [ reflexivity | ].
  simpl. rewrite readLine_closed by (apply H; left; reflexivity).
  apply IH. intros x I. apply H. right. exact I.
Qed.

(** A blank line or a comment line can be removed from a configuration
    without changing the result, and so can everything that precedes the
    first header line. *)
Theorem parseHomeConfig_skips :
  (forall (before line after : jsstring),
      ~ In "010"%char line -> isSkipped line = true ->
      parseHomeConfig parseFloat (before ++ "010"%char :: line ++ "010"%char :: after)
      = parseHomeConfig parseFloat (before ++ "010"%char :: after))
  /\ (forall (preamble rest : jsstring),
         (forall l, In l (split "010"%char preamble) -> isHeader l = false) ->
         parseHomeConfig parseFloat (preamble ++ "010"%char :: rest)
         = parseHomeConfig parseFloat rest).
Proof.
  split.
  - intros before line after Hn Hs. unfold parseHomeConfig.
    rewrite !split_app, (split_without_sep _ _ Hn).
    rewrite !fold_left_app. simpl.
    rewrite readLine_skipped by exact Hs. reflexivity.
  - intros preamble rest H. unfold parseHomeConfig.
    rewrite split_app, fold_left_app, fold_readLine_closed by exact H.
    reflexivity.
Qed.

(** *** Property lines *)

Lemma startsWith_app (p d : jsstring) : startsWith p (p ++ d) = true.
Proof.
  induction p as [ | c p IH]; [ reflexivity | ].
  simpl. rewrite Ascii.eqb_refl. exact IH.
Qed.

(** A key followed by '=' is a prefix of a line that starts with another
    key and '=' exactly when the two keys are the same. *)
Lemma startsWith_key (k l x : jsstring) :
  ~ In "="%char k -> ~ In "="%char l ->
  startsWith (k ++ ["="%char]) (l ++ "="%char :: x) = streq k l.
Proof.
  revert l; induction k as [ | a k IH]; intros [ | c l] Hk Hl;
    cbn [app startsWith streq].
  - rewrite Ascii.eqb_refl. reflexivity.
  - assert (N : "="%char <> c) by (intros E; apply Hl; left; symmetry; exact E).
    apply Ascii.eqb_neq in N. rewrite N. reflexivity.
  - assert (N : a <> "="%char) by (intros E; apply Hk; left; exact E).
    apply Ascii.eqb_neq in N. rewrite N. reflexivity.
  - rewrite IH; [ reflexivity | | ].
    + intros E; apply Hk; right; exact E.
    + intros E; apply Hl; right; exact E.
Qed.

Lemma includes_middle c (l x : jsstring) : includes c (l ++ c :: x) = true.
Proof.
  unfold includes. apply existsb_exists. exists c.
  split; [ apply in_or_app; right; left; reflexivity | apply Ascii.eqb_refl ].
Qed.

Lemma no_equals_in_keys :
  ~ In "="%char (lit "description") /\ ~ In "="%char (lit "image")
  /\ ~ In "="%char (lit "position").
Proof.
  repeat split; simpl; intros K;
    repeat (destruct K as [K | K]; [ discriminate K | ]); exact K.
Qed.

Lemma readLine_open st cur raw line :
  trim raw = line -> line <> [] ->
  startsWith (lit "#") line = false ->
  startsWith (lit "[") line = false ->
  currentScenario st = Some cur ->
  readLine parseFloat st raw
  = parseState (scenarios st) (Some (readProperty parseFloat line cur)).
Proof.
  intros E N S1 S2 Hc. unfold readLine. rewrite E.
  destruct line as [ | c l]; [ contradiction | ].
  rewrite S1, S2, Hc. reflexivity.
Qed.

(** How the lines of an open scenario are read.  After 'description=' and
    after 'image=' the whole rest of the line is kept, further '=' signs
    included.  Any other line of the form key=value adds a file entry whose
    label is the key and whose path is the value up to the next '=' sign:
    what follows a second '=' is lost.  A position line adds a position
    only when its value has exactly three pieces between commas. *)
Theorem readLine_properties :
  forall (st : ParseState Number) (cur : Scenario Number) (raw : jsstring),
    currentScenario st = Some cur ->
    (forall d, trim raw = lit "description=" ++ d ->
               readLine parseFloat st raw
               = parseState (scenarios st)
                   (Some (scenario (name cur) d (image cur) (files cur)
                                   (positions cur))))
    /\ (forall d, trim raw = lit "image=" ++ d ->
                  readLine parseFloat st raw
                  = parseState (scenarios st)
                      (Some (scenario (name cur) (description cur) d (files cur)
                                      (positions cur))))
    /\ (forall key value rest,
           trim raw = key ++ "="%char :: value ++ rest ->
           rest = [] \/ (exists more, rest = "="%char :: more) ->
           ~ In "="%char key -> ~ In "="%char value ->
           startsWith (lit "#") key = false ->
           startsWith (lit "[") key = false ->
           key <> lit "description" -> key <> lit "image" ->
           key <> lit "position" ->
           readLine parseFloat st raw
           = parseState (scenarios st)
               (Some (scenario (name cur) (description cur) (image cur)
                               (files cur ++ [fileEntry key value])
                               (positions cur))))
    /\ (forall d, trim raw = lit "position=" ++ d ->
                  List.length (split ","%char d) <> 3%nat ->
                  readLine parseFloat st raw = st).
Proof.
  intros st cur raw Hc.
  split; [ | split; [ | split ] ].
  - intros d E.
    rewrite (readLine_open st cur raw _ E); try reflexivity; try exact Hc;
      [ | intros K; discriminate K ].
    unfold readProperty. rewrite startsWith_app.
    change 12%Z with (Z.of_nat (List.length (lit "description="))).
    rewrite substringFrom_tail. reflexivity.
  - intros d E.
    rewrite (readLine_open st cur raw _ E); try reflexivity; try exact Hc;
      [ | intros K; discriminate K ].
    unfold readProperty.
    assert (D : startsWith (lit "description=") (lit "image=" ++ d) = false)
      by reflexivity.
    rewrite D, startsWith_app.
    change 6%Z with (Z.of_nat (List.length (lit "image="))).
    rewrite substringFrom_tail. reflexivity.
  - intros key value rest E Hr Hk Hv Hh Hb Nd Ni Np.
    destruct no_equals_in_keys as (Kd & Ki & Kp).
    set (line := key ++ "="%char :: value ++ rest) in *.
    assert (S1 : startsWith (lit "#") line = false).
    { unfold line. destruct key as [ | c key]; [ reflexivity | exact Hh ]. }
    assert (S2 : startsWith (lit "[") line = false).
    { unfold line. destruct key as [ | c key]; [ reflexivity | exact Hb ]. }
    assert (P1 : startsWith (lit "description=") line = false).
    { change (lit "description=") with (lit "description" ++ ["="%char]).
      unfold line. rewrite startsWith_key by assumption.
      apply streq_false_iff. congruence. }
    assert (P2 : startsWith (lit "image=") line = false).
    { change (lit "image=") with (lit "image" ++ ["="%char]).
      unfold line. rewrite startsWith_key by assumption.
      apply streq_false_iff. congruence. }
    assert (P3 : startsWith (lit "position=") line = false).
    { change (lit "position=") with (lit "position" ++ ["="%char]).
      unfold line. rewrite startsWith_key by assumption.
      apply streq_false_iff. congruence. }
    assert (I : includes "="%char line = true) by apply includes_middle.
    assert (SP : exists tail, split "="%char line = key :: value :: tail).
    { unfold line. rewrite split_app, (split_without_sep _ _ Hk).
      destruct Hr as [-> | (more & ->)].
      - rewrite app_nil_r, (split_without_sep _ _ Hv). exists []. reflexivity.
      - rewrite split_app, (split_without_sep _ _ Hv).
        exists (split "="%char more). reflexivity. }
    destruct SP as (tail & SP).
    assert (NE : line <> []).
    { unfold line. intros K. destruct key; discriminate K. }
    rewrite (readLine_open st cur raw line E NE S1 S2 Hc).
    unfold readProperty. rewrite P1, P2, P3, I, SP. reflexivity.
  - intros d E Hl.
    rewrite (readLine_open st cur raw _ E); try reflexivity; try exact Hc;
      [ | intros K; discriminate K ].
    unfold readProperty.
    assert (D1 : startsWith (lit "description=") (lit "position=" ++ d) = false)
      by reflexivity.
    assert (D2 : startsWith (lit "image=") (lit "position=" ++ d) = false)
      by reflexivity.
    rewrite D1, D2, startsWith_app.
    change 9%Z with (Z.of_nat (List.length (lit "position="))).
    rewrite substringFrom_tail.
    assert (L : List.length (map (fun n => parseFloat (trim n)) (split ","%char d))
                <> 3%nat) by (rewrite length_map; exact Hl).
    destruct (map _ _) as [ | x [ | y [ | z [ | w l]]]];
      try (destruct st; simpl in Hc; subst; reflexivity).
    exfalso. apply L. reflexivity.
Qed.

(** *** Model files of a scenario *)

Lemma lastPiece_without (sep : ascii) (s : jsstring) : ~ In sep (lastPiece sep s).
Proof.
  destruct (last_occurrence sep s) as [H | (a & e & -> & H)].
  - rewrite lastPiece_without_sep by exact H. exact H.
  - rewrite lastPiece_app by exact H. exact H.
Qed.

(** [loadScenarioModels] hands over exactly the file entries whose path
    ends, after its last dot and in any case, in obj, mtl, gltf, glb or
    stl, in their order; it hands over nothing when there is none.  The
    name of each is the text after the last slash of the path and so
    contains no slash. *)
Theorem loadScenarioModels_spec :
  forall (s : Scenario Number),
    (loadScenarioModels s = None <->
     forall f, In f (files s) -> isModelEntry f = false)
    /\ (forall urls,
           loadScenarioModels s = Some urls ->
           map urlPath urls = map path (filter isModelEntry (files s))
           /\ (forall u, In u urls ->
                         In (urlType u) modelExtensions
                         /\ ~ In "/"%char (urlName u))).
Proof.
  intros s. unfold loadScenarioModels.
  destruct (files s) as [ | f0 fs] eqn:E.
  - split; [ split; [ intros _ f [] | reflexivity ] | discriminate ].
  - rewrite <- E. clear E f0 fs.
    destruct (filter isModelEntry (files s)) as [ | m ms] eqn:F.
    + split; [ | destruct (files s); discriminate ].
      split.
      * intros _ f I. destruct (isModelEntry f) eqn:M; [ | reflexivity ].
        assert (K : In f (filter isModelEntry (files s)))
          by (apply filter_In; auto).
        rewrite F in K. contradiction.
      * destruct (files s); reflexivity.
    + assert (G : forall x, In x (m :: ms) -> isModelEntry x = true).
      { intros x I. rewrite <- F in I. apply filter_In in I. tauto. }
      split.
      * split; [ destruct (files s); discriminate | ].
        intros H. exfalso.
        assert (I : In m (filter isModelEntry (files s)))
          by (rewrite F; left; reflexivity).
        apply filter_In in I. destruct I as [I M].
        rewrite (H m I) in M. discriminate.
      * intros urls U.
        assert (U' : urls = map (fun f => modelUrl (lastPiece "/"%char (path f))
                                             (path f)
                                             (lastPiece "."%char (toLowerCase (path f))))
                                (m :: ms)).
        { destruct (files s); [ discriminate F | ]. injection U as <-. reflexivity. }
        subst urls. split.
        -- rewrite map_map. reflexivity.
        -- intros u I. apply in_map_iff in I. destruct I as (x & <- & I).
           simpl. split.
           ++ specialize (G x I). unfold isModelEntry in G.
              unfold listIncludes in G. apply existsb_exists in G.
              destruct G as (y & Iy & Hy). apply streq_true_iff in Hy.
              rewrite Hy. exact Iy.
           ++ apply lastPiece_without.
Qed.

End Parser.

(** The two cases on the sample of the README,
    with a stand-in for [parseFloat]. *)
Lemma parseHomeConfig_skips_witness :
  (~ In "010"%char (lit "# note") /\ isSkipped (lit "# note") = true
   /\ parseHomeConfig keepText
        (lit "[A]" ++ "010"%char :: lit "# note" ++ "010"%char :: lit "m=a.obj")
      = parseHomeConfig keepText (lit "[A]" ++ "010"%char :: lit "m=a.obj"))
  /\ ((forall l, In l (split "010"%char (lit "title=Home")) -> isHeader l = false)
      /\ parseHomeConfig keepText (lit "title=Home" ++ "010"%char :: lit "[A]")
         = parseHomeConfig keepText (lit "[A]")).
Proof.
  assert (H1 : ~ In "010"%char (lit "# note")).
  { simpl. intros K. repeat (destruct K as [K | K]; [ discriminate K | ]).
    exact K. }
  assert (H2 : isSkipped (lit "# note") = true) by reflexivity.
  assert (H3 : forall l, In l (split "010"%char (lit "title=Home")) ->
                         isHeader l = false).
  { intros l [<- | []]. reflexivity. }
  split.
  - split; [ exact H1 | ]. split; [ exact H2 | ].
    exact (proj1 (parseHomeConfig_skips jsstring keepText)
                 (lit "[A]") (lit "# note") (lit "m=a.obj") H1 H2).
  - split; [ exact H3 | ].
    exact (proj2 (parseHomeConfig_skips jsstring keepText)
                 (lit "title=Home") (lit "[A]") H3).
Defined.

(** A file line with a query string, in a scenario just opened. *)
Lemma readLine_properties_witness :
  currentScenario openState = Some (scenario (lit "A") [] [] [] [])
  /\ trim (lit "  model=ship.obj?v=2 ")
     = lit "model" ++ "="%char :: lit "ship.obj?v" ++ "="%char :: lit "2"
  /\ readLine keepText openState (lit "  model=ship.obj?v=2 ")
     = parseState []
         (Some (scenario (lit "A") [] []
                         ([] ++ [fileEntry (lit "model") (lit "ship.obj?v")]) [])).
Proof.
  assert (Hc : currentScenario openState = Some (scenario (lit "A") [] [] [] []))
    by reflexivity.
  assert (E : trim (lit "  model=ship.obj?v=2 ")
              = lit "model" ++ "="%char :: lit "ship.obj?v" ++ "="%char :: lit "2")
    by reflexivity.
  assert (Hk : ~ In "="%char (lit "model")).
  { simpl. intros K. repeat (destruct K as [K | K]; [ discriminate K | ]).
    exact K. }
  assert (Hv : ~ In "="%char (lit "ship.obj?v")).
  { simpl. intros K. repeat (destruct K as [K | K]; [ discriminate K | ]).
    exact K. }
  split; [ exact Hc | ]. split; [ exact E | ].
  apply (proj1 (proj2 (proj2 (readLine_properties jsstring keepText openState
                                _ (lit "  model=ship.obj?v=2 ") Hc)))
               (lit "model") (lit "ship.obj?v") ("="%char :: lit "2") E);
    try reflexivity; try assumption; try discriminate.
  right. exists (lit "2"). reflexivity.
Defined.

Lemma loadScenarioModels_spec_witness :
  loadScenarioModels sampleScenario
  = Some [modelUrl (lit "Ship.OBJ") (lit "models/Ship.OBJ") (lit "obj")]
  /\ map urlPath [modelUrl (lit "Ship.OBJ") (lit "models/Ship.OBJ") (lit "obj")]
     = map path (filter isModelEntry (files sampleScenario)).
Proof.
  assert (H : loadScenarioModels sampleScenario
              = Some [modelUrl (lit "Ship.OBJ") (lit "models/Ship.OBJ") (lit "obj")])
    by reflexivity.
  split; [ exact H | ].
  exact (proj1 (proj2 (loadScenarioModels_spec jsstring sampleScenario) _ H)).
Defined.

End HomeConfigProps.

(** ** Binary STL *)

Module StlProps.

Import Stl.

Section Decoder.

Variable Number : Type.
Variable float32 : byte -> byte -> byte -> byte -> Number.

Lemma skipn_four (data : list byte) offset :
  (exists b0 b1 b2 b3 rest, skipn offset data = b0 :: b1 :: b2 :: b3 :: rest)
  <-> (offset + 4 <= List.length data)%nat.
Proof.
  pose proof (length_skipn offset data) as L.
  split.
  - intros (b0 & b1 & b2 & b3 & rest & E). rewrite E in L. simpl in L. lia.
  - intros H. destruct (skipn offset data) as [ | b0 [ | b1 [ | b2 [ | b3 rest]]]];
      simpl in L; try lia.
    exists b0, b1, b2, b3, rest. reflexivity.
Qed.

Lemma getFloat32_inside data offset :
  (offset + 4 <= List.length data)%nat ->
  exists x, getFloat32 float32 data offset = Some x.
Proof.
  intros H. apply skipn_four in H. destruct H as (b0 & b1 & b2 & b3 & rest & E).
  unfold getFloat32. rewrite E. eexists. reflexivity.
Qed.

Lemma getFloat32_outside data offset :
  (List.length data < offset + 4)%nat -> getFloat32 float32 data offset = None.
Proof.
  intros H. unfold getFloat32.
  destruct (skipn offset data) as [ | b0 [ | b1 [ | b2 [ | b3 rest]]]] eqn:E;
    try reflexivity.
  exfalso. assert (K : (offset + 4 <= List.length data)%nat).
  { apply skipn_four. exists b0, b1, b2, b3, rest. exact E. }
  lia.
Qed.

Lemma getUint32_outside data offset :
  (List.length data < offset + 4)%nat -> getUint32 data offset = None.
Proof.
  intros H. unfold getUint32.
  destruct (skipn offset data) as [ | b0 [ | b1 [ | b2 [ | b3 rest]]]] eqn:E;
    try reflexivity.
  exfalso. assert (K : (offset + 4 <= List.length data)%nat).
  { apply skipn_four. exists b0, b1, b2, b3, rest. exact E. }
  lia.
Qed.

Lemma readFloats_inside data n : forall offset,
  (offset + 4 * n <= List.length data)%nat ->
  exists vs, readFloats float32 n data offset = Some vs /\ List.length vs = n.
Proof.
  induction n as [ | k IH]; intros offset H.
  - exists []. split; reflexivity.
  - destruct (getFloat32_inside data offset) as (x & X); [ lia | ].
    destruct (IH (offset + 4)%nat) as (vs & V & L); [ lia | ].
    exists (x :: vs). simpl. rewrite X, V. split; [ reflexivity | simpl; lia ].
Qed.

Lemma readFloats_outside data n : forall offset,
  (0 < n)%nat -> (List.length data < offset + 4 * n)%nat ->
  readFloats float32 n data offset = None.
Proof.
  induction n as [ | k IH]; intros offset Hn H; [ lia | ].
  simpl. destruct (getFloat32 float32 data offset) as [x | ] eqn:X;
    [ | reflexivity ].
  destruct k as [ | k'].
  - rewrite getFloat32_outside in X by lia. discriminate X.
  - rewrite IH by lia. reflexivity.
Qed.

Lemma readTriangles_inside data n : forall offset,
  (n = 0 \/ offset + 50 * n <= List.length data + 2)%nat ->
  exists vs, readTriangles float32 n data offset = Some vs
             /\ List.length vs = (9 * n)%nat.
Proof.
  induction n as [ | k IH]; intros offset H.
  - exists []. split; reflexivity.
  - destruct H as [H | H]; [ discriminate H | ].
    destruct (readFloats_inside data 9 (offset + 12)%nat) as (v & V & LV);
      [ lia | ].
    destruct (IH (offset + 12 + 36 + 2)%nat) as (vs & W & LW).
    { destruct k; [ left; reflexivity | right; lia ]. }
    exists (v ++ vs). cbn [readTriangles]. rewrite V, W.
    split; [ reflexivity | rewrite length_app; lia ].
Qed.

Lemma readTriangles_outside data n : forall offset,
  (0 < n)%nat -> (List.length data + 2 < offset + 50 * n)%nat ->
  readTriangles float32 n data offset = None.
Proof.
  induction n as [ | k IH]; intros offset Hn H; [ lia | ].
  cbn [readTriangles].
  destruct (readFloats float32 9 data (offset + 12)) as [v | ] eqn:V;
    [ | reflexivity ].
  destruct k as [ | k'].
  - rewrite readFloats_outside in V by lia. discriminate V.
  - rewrite IH by lia. reflexivity.
Qed.

(** [parseBinarySTL] fails on a buffer of fewer than 84 bytes.  With a
    triangle count n read at offset 80, it succeeds exactly when n is zero
    or the buffer holds 84 + 50 n - 2 bytes: the attribute bytes of the
    last triangle are never read.  On success there are 9 coordinates per
    triangle, and only on failure does [parse] fall back to the cube: a
    count of zero gives an empty geometry. *)
Theorem parseBinarySTL_bounds :
  forall (data : list byte),
    ((List.length data < 84)%nat -> parseBinarySTL float32 data = None)
    /\ (forall count,
           getUint32 data 80 = Some count ->
           let n := N.to_nat count in
           (parseBinarySTL float32 data <> None <->
            (n = 0 \/ 84 + 50 * n <= List.length data + 2)%nat)
           /\ (forall vs, parseBinarySTL float32 data = Some vs ->
                          List.length vs = (9 * n)%nat)
           /\ (n = 0%nat -> parse float32 data = Positions [])).
Proof.
  intros data. split.
  - intros H. unfold parseBinarySTL. rewrite getUint32_outside by lia.
    reflexivity.
  - intros count C n. unfold parse, parseBinarySTL. rewrite C. fold n.
    split; [ | split ].
    + split.
      * intros H. destruct n as [ | k] eqn:E; [ left; reflexivity | right ].
        destruct (Nat.le_gt_cases (84 + 50 * S k) (List.length data + 2))
          as [G | G]; [ exact G | ].
        exfalso. apply H. apply readTriangles_outside; lia.
      * intros H. destruct (readTriangles_inside data n 84 H) as (vs & V & _).
        rewrite V. discriminate.
    + intros vs V.
      destruct (Nat.eq_dec n 0) as [Z | Z].
      * rewrite Z in *. simpl in V. injection V as <-. reflexivity.
      * destruct (Nat.le_gt_cases (84 + 50 * n) (List.length data + 2))
          as [G | G].
        -- destruct (readTriangles_inside data n 84 (or_intror G))
             as (vs' & V' & L). rewrite V in V'. injection V' as <-. exact L.
        -- rewrite readTriangles_outside in V by lia. discriminate V.
    + intros Z. rewrite Z. reflexivity.
Qed.

End Decoder.

(** One triangle without its two attribute bytes: 132 bytes suffice. *)
Lemma parseBinarySTL_bounds_witness :
  getUint32 oneTriangle 80 = Some 1%N
  /\ List.length oneTriangle = 132%nat
  /\ parseBinarySTL rawBytes oneTriangle <> None
  /\ ((List.length (repeat x00 83) < 84)%nat
      /\ parseBinarySTL rawBytes (repeat x00 83) = None).
Proof.
  assert (C : getUint32 oneTriangle 80 = Some 1%N) by reflexivity.
  assert (H : (List.length (repeat x00 83) < 84)%nat) by (simpl; lia).
  split; [ exact C | ]. split; [ reflexivity | ].
  split.
  - apply (proj1 (proj2 (parseBinarySTL_bounds (list byte) rawBytes oneTriangle)
                        1%N C)).
    right. simpl. lia.
  - split; [ exact H | ].
    exact (proj1 (parseBinarySTL_bounds (list byte) rawBytes (repeat x00 83)) H).
Defined.

End StlProps.

(** ** The text parsers *)

Module TextLoadersProps.

Import JsString TextLoaders.

Lemma vertex_line_is_no_face_line line :
  isVertexLine line = true -> isFaceLine line = false.
Proof.
  unfold isVertexLine, isFaceLine. destruct line as [ | c rest]; [ discriminate | ].
  change (lit "v ") with ["v"%char; " "%char].
  change (lit "f ") with ["f"%char; " "%char].
  cbn [startsWith]. intros H. apply andb_true_iff in H. destruct H as [H _].
  apply Ascii.eqb_eq in H. subst c. reflexivity.
Qed.

(** The head of [line.split(' ')] is the letter v exactly when the line
    starts with v and a space, or is the letter v alone. *)
Lemma head_is_v (line : jsstring) :
  line <> lit "v" ->
  streq (nth 0 (split " "%char line) (lit "undefined")) (lit "v")
  = isVertexLine line.
Proof.
  intros N. unfold isVertexLine.
  change (lit "v ") with ["v"%char; " "%char].
  change (lit "v") with ["v"%char] in *.
  destruct line as [ | c rest]; [ reflexivity | ].
  cbn [split startsWith].
  destruct (Ascii.eqb c " ") eqn:S.
  - apply Ascii.eqb_eq in S. subst c. reflexivity.
  - pose proof (JsStringFacts.split_not_nil " "%char rest) as NN.
    destruct (split " "%char rest) as [ | piece pieces] eqn:E;
      [ contradiction | ].
    cbn [nth streq].
    destruct (Ascii.eqb c "v") eqn:V.
    + apply Ascii.eqb_eq in V. subst c.
      rewrite (Ascii.eqb_refl "v"%char). cbn [andb].
      destruct rest as [ | d rest']; [ contradiction N; reflexivity | ].
      cbn [split] in E. cbn [startsWith].
      destruct (Ascii.eqb d " ") eqn:D.
      * injection E as <- _. apply Ascii.eqb_eq in D. subst d. reflexivity.
      * destruct (split " "%char rest') as [ | q qs]; injection E as <- _;
          rewrite Ascii.eqb_sym, D; reflexivity.
    + rewrite Ascii.eqb_sym, V. reflexivity.
Qed.

Section Parsers.

Variable Number : Type.
Variable parseFloat : jsstring -> Number.
Variable parseInt : jsstring -> Number.
Variable minusOne : Number -> Number.

Lemma fold_objLine lines : forall b,
  List.length (vertices (fold_left (objLine parseFloat parseInt minusOne) lines b))
  = (List.length (vertices b)
     + 3 * List.length (filter isVertexLine (map trim lines)))%nat
  /\ List.length (faces (fold_left (objLine parseFloat parseInt minusOne) lines b))
     = (List.length (faces b)
        + list_sum (map fieldCount (filter isFaceLine (map trim lines))))%nat.
Proof.
  induction lines as [ | l lines IH]; intros b.
  - simpl. split; lia.
  - cbn [fold_left map filter].
    destruct (IH (objLine parseFloat parseInt minusOne b l)) as [IV IF]. rewrite IV, IF. clear IH IV IF.
    unfold objLine. fold (isVertexLine (trim l)). fold (isFaceLine (trim l)).
    destruct (isVertexLine (trim l)) eqn:V.
    + rewrite (vertex_line_is_no_face_line _ V).
      cbn [vertices faces List.length]. rewrite length_app.
      change (List.length (coordinates parseFloat (split " "%char (trim l))))
        with 3%nat.
      split; lia.
    + destruct (isFaceLine (trim l)) eqn:F.
      * cbn [vertices faces map].
        change (list_sum (fieldCount (trim l)
                          :: map fieldCount (filter isFaceLine (map trim lines))))
          with (fieldCount (trim l)
                + list_sum (map fieldCount
                                (filter isFaceLine (map trim lines))))%nat.
        rewrite length_app, length_map. fold (fieldCount (trim l)).
        split; lia.
      * split; lia.
Qed.

Lemma fold_stlLine lines : forall vs,
  List.length (fold_left (stlLine parseFloat) lines vs)
  = (List.length vs
     + 3 * List.length (filter isStlVertexLine (map trim lines)))%nat.
Proof.
  induction lines as [ | l lines IH]; intros vs.
  - simpl. lia.
  - cbn [fold_left map filter]. rewrite IH. unfold stlLine.
    fold (isStlVertexLine (trim l)).
    destruct (isStlVertexLine (trim l)).
    + cbn [List.length]. rewrite length_app.
      change (List.length (coordinates parseFloat (split " "%char (trim l))))
        with 3%nat.
      lia.
    + lia.
Qed.

Lemma fold_same_vertices lines : forall b1 b2,
  ~ In (lit "v") (map trim lines) ->
  vertices b1 = vertices b2 ->
  vertices (fold_left (objLine parseFloat parseInt minusOne) lines b1)
  = vertices (fold_left (simpleLine parseFloat parseInt minusOne) lines b2).
Proof.
  induction lines as [ | l lines IH]; intros b1 b2 N E.
  - exact E.
  - cbn [fold_left]. apply IH.
    + intros K. apply N. right. exact K.
    + assert (Nl : trim l <> lit "v").
      { intros K. apply N. left. exact K. }
      unfold objLine, simpleLine, item.
      rewrite (head_is_v _ Nl). fold (isVertexLine (trim l)).
      destruct (isVertexLine (trim l)).
      * cbn [vertices]. rewrite E. reflexivity.
      * destruct (startsWith (lit "f ") (trim l));
          destruct (streq (nth 0 (split " "%char (trim l)) (lit "undefined"))
                          (lit "f")); exact E.
Qed.

(** [SimpleOBJLoader.parse] reads three coordinates from every line that,
    trimmed, starts with v and a space, whatever the number of its fields,
    and one index from every field of a line that starts with f and a
    space: faces are not split into triangles.  It answers with the
    placeholder cube exactly when the text has no vertex line; otherwise
    the geometry has the coordinates read and, unless no index was read,
    the indices as its index. *)
Theorem obj_parse_counts :
  forall (text : jsstring),
    let b := objScan parseFloat parseInt minusOne text in
    List.length (vertices b)
    = (3 * List.length (filter isVertexLine (trimmedLines text)))%nat
    /\ List.length (faces b)
       = list_sum (map fieldCount (filter isFaceLine (trimmedLines text)))
    /\ (parse parseFloat parseInt minusOne text = PlaceholderCube
        <-> filter isVertexLine (trimmedLines text) = [])
    /\ (filter isVertexLine (trimmedLines text) <> [] ->
        parse parseFloat parseInt minusOne text
        = ObjMesh (vertices b)
                  (match faces b with [] => None | _ :: _ => Some (faces b) end)).
Proof.
  intros text b.
  destruct (fold_objLine (split "010"%char text) (buffers [] [])) as [V F].
  fold (objScan parseFloat parseInt minusOne text) in V, F. fold b in V, F. fold (trimmedLines text) in V, F.
  simpl in V, F.
  split; [ exact V | ]. split; [ exact F | ].
  unfold parse. fold b.
  destruct (vertices b) as [ | v vs] eqn:E.
  - simpl in V.
    assert (Z : filter isVertexLine (trimmedLines text) = []).
    { destruct (filter isVertexLine (trimmedLines text)); [ reflexivity | ].
      simpl in V. lia. }
    split; [ split; [ intros _; exact Z | reflexivity ] | ].
    intros K. contradiction.
  - split; [ | reflexivity ].
    split; [ discriminate | ].
    intros Z. rewrite Z in V. simpl in V. lia.
Qed.

(** Unless some line of the text, trimmed, is the single letter v, the two
    OBJ parsers read the same coordinates. *)
Theorem obj_parsers_same_vertices :
  forall (text : jsstring),
    ~ In (lit "v") (trimmedLines text) ->
    vertices (parseOBJSimple parseFloat parseInt minusOne text)
    = vertices (objScan parseFloat parseInt minusOne text).
Proof.
  intros text N. symmetry. apply fold_same_vertices; [ exact N | reflexivity ].
Qed.

(** [parseASCIISTL] reads three coordinates from every line that, trimmed,
    starts with the word vertex, and returns null exactly when there is no
    such line. *)
Theorem parseASCIISTL_counts :
  forall (text : jsstring),
    (parseASCIISTL parseFloat text = None
     <-> filter isStlVertexLine (trimmedLines text) = [])
    /\ (forall vs,
           parseASCIISTL parseFloat text = Some vs ->
           List.length vs
           = (3 * List.length (filter isStlVertexLine (trimmedLines text)))%nat).
Proof.
  intros text. unfold parseASCIISTL.
  pose proof (fold_stlLine (split "010"%char text) []) as L.
  fold (trimmedLines text) in L. simpl in L.
  destruct (fold_left (stlLine parseFloat) (split "010"%char text) []) as [ | v vs] eqn:E.
  - split.
    + split; [ intros _ | reflexivity ].
      destruct (filter isStlVertexLine (trimmedLines text)); [ reflexivity | ].
      simpl in L. lia.
    + intros ws K. discriminate K.
  - split.
    + split; [ discriminate | ].
      intros Z. rewrite Z in L. simpl in L. lia.
    + intros ws K. injection K as <-. exact L.
Qed.

End Parsers.

(** A quadrilateral face gives four indices. *)
Lemma obj_parse_counts_witness :
  filter isVertexLine (trimmedLines quadText) <> []
  /\ List.length (faces (objScan (fun s : jsstring => s) (fun s => s) (fun s => s)
                                 quadText)) = 4%nat.
Proof.
  assert (N : filter isVertexLine (trimmedLines quadText) <> [])
    by discriminate.
  split; [ exact N | ].
  exact (proj1 (proj2 (obj_parse_counts jsstring (fun s => s) (fun s => s)
                                        (fun s => s) quadText))).
Defined.

Lemma obj_parsers_same_vertices_witness :
  ~ In (lit "v") (trimmedLines quadText)
  /\ vertices (parseOBJSimple (fun s : jsstring => s) (fun s => s) (fun s => s)
                              quadText)
     = vertices (objScan (fun s : jsstring => s) (fun s => s) (fun s => s)
                         quadText).
Proof.
  assert (N : ~ In (lit "v") (trimmedLines quadText)).
  { intros K. repeat (destruct K as [K | K]; [ discriminate K | ]). exact K. }
  split; [ exact N | ].
  exact (obj_parsers_same_vertices jsstring (fun s => s) (fun s => s)
                                   (fun s => s) quadText N).
Defined.

Lemma parseASCIISTL_counts_witness :
  parseASCIISTL (fun s : jsstring => s) facetText
  = Some [lit "0"; lit "0"; lit "0"; lit "1"; lit "0"; lit "0";
          lit "0"; lit "1"; lit "0"]
  /\ 9%nat
     = (3 * List.length (filter isStlVertexLine (trimmedLines facetText)))%nat.
Proof.
  assert (P : parseASCIISTL (fun s : jsstring => s) facetText
              = Some [lit "0"; lit "0"; lit "0"; lit "1"; lit "0"; lit "0";
                      lit "0"; lit "1"; lit "0"]) by reflexivity.
  split; [ exact P | ].
  exact (proj2 (parseASCIISTL_counts jsstring (fun s => s) facetText) _ P).
Defined.

End TextLoadersProps.
